(** * whisper-api: the transcription core, embedded and verified

    A shallow embedding of the post-processing pipeline of the
    whisper-api service (src/whisper-api/src/services): the filler-word
    (aizuchi) filter, the hallucination filter, the hotwords manager, the
    transcription statistics and the orchestrating [WhisperService].

    Python values are modelled as the interpreter has them:
    - [str] is a sequence of Unicode code points, so [len] counts code
      points and not bytes;
    - [int] is [Z];
    - [float] is an IEEE 754 binary64 number (Rocq's primitive floats);
    - objects that are mutated in place are threaded explicitly. *)

From Stdlib Require Import ZArith NArith List String Ascii Bool Lia Floats.
From Stdlib Require Uint63.
Import ListNotations.

Local Open Scope Z_scope.

(* ================================================================== *)
(** * Python strings *)
(* ================================================================== *)

Module PyStr.

(** A character is a Unicode code point. *)
Definition char := N.
Definition str := list char.

Definition char_eqb (a b : char) : bool := N.eqb a b.

Definition str_eq_dec : forall a b : str, {a = b} + {a <> b} :=
  list_eq_dec N.eq_dec.

Definition str_eqb (a b : str) : bool :=
  if str_eq_dec a b then true else false.

(** [len(s)] *)
Definition len {A : Type} (s : list A) : Z := Z.of_nat (List.length s).

(** Truthiness of a string: [if s:] *)
Definition truthy {A : Type} (s : list A) : bool :=
  match s with [] => false | _ => true end.

(** ** Literals

    String literals of the source are written as Rocq strings, which hold
    the UTF-8 bytes of the file; [utf8] decodes them into code points. *)

Fixpoint utf8_decode (bs : list N) : str :=
  match bs with
  | [] => []
  | b0 :: r0 =>
      if (b0 <? 0x80)%N then b0 :: utf8_decode r0
      else if (b0 <? 0xE0)%N then
        match r0 with
        | b1 :: r1 => ((b0 - 0xC0) * 64 + (b1 - 0x80))%N :: utf8_decode r1
        | [] => []
        end
      else if (b0 <? 0xF0)%N then
        match r0 with
        | b1 :: b2 :: r2 =>
            ((b0 - 0xE0) * 4096 + (b1 - 0x80) * 64 + (b2 - 0x80))%N
              :: utf8_decode r2
        | _ => []
        end
      else
        match r0 with
        | b1 :: b2 :: b3 :: r3 =>
            ((b0 - 0xF0) * 262144 + (b1 - 0x80) * 4096
             + (b2 - 0x80) * 64 + (b3 - 0x80))%N :: utf8_decode r3
        | _ => []
        end
  end.

Definition utf8 (s : string) : str :=
  utf8_decode (map N_of_ascii (list_ascii_of_string s)).

(** ** Whitespace: [str.isspace] on one code point
    ([Py_UNICODE_ISSPACE]; the same set is used by [strip], [split] and by
    the regular-expression class [\s] on [str] patterns). *)

Definition isspace (c : char) : bool :=
  ((0x09 <=? c) && (c <=? 0x0D) || (0x1C <=? c) && (c <=? 0x20)
   || (c =? 0x85) || (c =? 0xA0) || (c =? 0x1680)
   || (0x2000 <=? c) && (c <=? 0x200A)
   || (c =? 0x2028) || (c =? 0x2029) || (c =? 0x202F) || (c =? 0x205F)
   || (c =? 0x3000))%N.

(** ** [str.strip()] *)

Fixpoint lstrip (s : str) : str :=
  match s with
  | [] => []
  | c :: r => if isspace c then lstrip r else s
  end.

Fixpoint rstrip (s : str) : str :=
  match s with
  | [] => []
  | c :: r =>
      match rstrip r with
      | [] => if isspace c then [] else [c]
      | r' => c :: r'
      end
  end.

Definition strip (s : str) : str := rstrip (lstrip s).

(** ** [str.split()] with no argument: the maximal runs of non-whitespace.
    [cur] is the word being read. *)

Fixpoint split_acc (cur : str) (s : str) : list str :=
  match s with
  | [] => match cur with [] => [] | _ => [cur] end
  | c :: r =>
      if isspace c then
        match cur with
        | [] => split_acc [] r
        | _ => cur :: split_acc [] r
        end
      else split_acc (cur ++ [c]) r
  end.

Definition split (s : str) : list str := split_acc [] s.

(** ** [str.split(sep)] for a one-character separator: every field is
    kept, the empty ones too. *)

Fixpoint split_on_acc (sep : char) (cur : str) (s : str) : list str :=
  match s with
  | [] => [cur]
  | c :: r =>
      if char_eqb c sep then cur :: split_on_acc sep [] r
      else split_on_acc sep (cur ++ [c]) r
  end.

Definition split_on (sep : char) (s : str) : list str :=
  split_on_acc sep [] s.

(** ** [sep.join(parts)] *)

Fixpoint join (sep : str) (parts : list str) : str :=
  match parts with
  | [] => []
  | [p] => p
  | p :: rest => p ++ sep ++ join sep rest
  end.

(** ** Slices [s[:k]] for a Python integer [k]: a negative bound counts
    from the end. *)

Definition slice_to {A : Type} (s : list A) (k : Z) : list A :=
  if k <? 0 then firstn (Z.to_nat (len s + k)) s
  else firstn (Z.to_nat k) s.

(** ** [s.count(sub)]: the number of non-overlapping occurrences of [sub]
    in [s], found from left to right.  [skip] is the number of positions
    still covered by the occurrence found last. *)

Fixpoint startswith (s sub : str) {struct sub} : bool :=
  match sub, s with
  | [], _ => true
  | _ :: _, [] => false
  | a :: sub', b :: s' => char_eqb a b && startswith s' sub'
  end.

Fixpoint count_from (skip : nat) (s sub : str) : Z :=
  match s with
  | [] => 0
  | _ :: r =>
      match skip with
      | S k => count_from k r sub
      | O =>
          if startswith s sub
          then 1 + count_from (List.length sub - 1) r sub
          else count_from 0 r sub
      end
  end.

Definition count (s sub : str) : Z :=
  match sub with
  | [] => len s + 1
  | _ => count_from 0 s sub
  end.

(** ** [set(words)], kept as the list of distinct elements *)

Definition set (ws : list str) : list str := nodup str_eq_dec ws.

(** Strings without whitespace, and strings made of whitespace. *)
Definition no_space (w : str) : Prop := Forall (fun c => isspace c = false) w.
Definition all_space (w : str) : Prop := Forall (fun c => isspace c = true) w.

(** ** [range(a, b)] *)

Definition range (a b : Z) : list Z :=
  map (fun i => a + Z.of_nat i) (seq 0 (Z.to_nat (b - a))).

End PyStr.

Import PyStr.

(* ================================================================== *)
(** * Python floats and the built-ins [min] and [max] *)
(* ================================================================== *)

Module PyFloat.

(** [float(n)] for an [int]; exact for [|n| <= 2^53]. *)
Definition of_int (n : Z) : float :=
  if n <? 0 then PrimFloat.opp (PrimFloat.of_uint63 (Uint63.of_Z (- n)))
  else PrimFloat.of_uint63 (Uint63.of_Z n).

(** [a / b] on two [int]s: true division.  Python rounds the exact
    quotient; for operands below [2^53], the only ones counters and
    lengths take, that is the IEEE quotient of the converted operands. *)
Definition int_truediv (a b : Z) : float :=
  PrimFloat.div (of_int a) (of_int b).

(** [max(a, b)] keeps its first argument unless the second is greater;
    [min(a, b)] keeps its first argument unless the second is smaller. *)
Definition max (a b : float) : float := if PrimFloat.ltb a b then b else a.
Definition min (a b : float) : float := if PrimFloat.ltb b a then b else a.

End PyFloat.


(* ================================================================== *)
(** * Regular expressions (the fragment of [re] the filters use) *)
(* ================================================================== *)

Module Re.

(** One item of a character class [[...]], or a one-character atom. *)
Inductive item :=
| Chr (c : char)        (* a literal character *)
| Space.                (* [\s] *)

Inductive regex :=
| Eps                            (* the empty pattern *)
| Bol                            (* [^] *)
| Eol                            (* [$] *)
| Dot                            (* [.] *)
| Lit (c : char)                 (* one literal character *)
| Cls (items : list item)        (* [[...]], and [\s] as [Cls [Space]] *)
| Seq (a b : regex)
| Alt (a b : regex)              (* [a|b] *)
| Star (a : regex)               (* [a*] *)
| Plus (a : regex).              (* [a+] *)

(** A literal string, a sequence of patterns, a class of characters. *)
Fixpoint lits (s : str) : regex :=
  match s with
  | [] => Eps
  | [c] => Lit c
  | c :: r => Seq (Lit c) (lits r)
  end.

Fixpoint cat (rs : list regex) : regex :=
  match rs with
  | [] => Eps
  | [r] => r
  | r :: rest => Seq r (cat rest)
  end.

Definition cls (s : str) : regex := Cls (map Chr s).

(** ** Case-insensitive comparison ([re.IGNORECASE] on a [str] pattern)

    The engine lowers the character of the text and compares it with the
    lowered pattern character and with its "fixes" (the code points with
    the same upper case).  [unicode_tolower] is given on Basic Latin and
    on U+0130; every other cased code point lowers to a code point that
    occurs in no pattern of this repository. *)

Definition unicode_tolower (c : char) : char :=
  if ((0x41 <=? c) && (c <=? 0x5A))%N then (c + 32)%N
  else if (c =? 0x130)%N then 0x69%N
  else c.

Definition ignorecase_fixes (lo : char) : list char :=
  if (lo =? 0x69)%N then [0x131%N]          (* i, dotless i *)
  else if (lo =? 0x73)%N then [0x17F%N]     (* s, long s *)
  else [].

Definition chr_match (ignorecase : bool) (p c : char) : bool :=
  char_eqb p c
  || (ignorecase &&
      let lo := unicode_tolower p in
      existsb (char_eqb (unicode_tolower c)) (lo :: ignorecase_fixes lo)).

Definition item_match (ignorecase : bool) (i : item) (c : char) : bool :=
  match i with
  | Chr p => chr_match ignorecase p c
  | Space => isspace c
  end.

(** ** Matching

    A position in the text is the suffix still to be read, with a flag
    telling whether it is the start of the text.  [ends r pos] lists the
    positions at which a match of [r] begun at [pos] can end; the order in
    which the engine tries them does not change whether there is one. *)

Definition pos := (bool * str)%type.

Definition one (ok : char -> bool) (p : pos) : list pos :=
  match snd p with
  | c :: r => if ok c then [(false, r)] else []
  | [] => []
  end.

(** Zero or more rounds of [step], each of which reads something. *)
Fixpoint star_ends (step : pos -> list pos) (fuel : nat) (p : pos)
  : list pos :=
  p :: match fuel with
       | O => []
       | S f =>
           flat_map
             (fun q =>
                if (List.length (snd q) <? List.length (snd p))%nat
                then star_ends step f q else [])
             (step p)
       end.

Fixpoint ends (ignorecase : bool) (r : regex) (p : pos) : list pos :=
  match r with
  | Eps => [p]
  | Bol => if fst p then [p] else []
  | Eol =>
      match snd p with
      | [] => [p]
      | [c] => if char_eqb c 10%N then [p] else []
      | _ => []
      end
  | Dot => one (fun c => negb (char_eqb c 10%N)) p
  | Lit c => one (chr_match ignorecase c) p
  | Cls items => one (fun c => existsb (fun i => item_match ignorecase i c) items) p
  | Seq a b => flat_map (ends ignorecase b) (ends ignorecase a p)
  | Alt a b => ends ignorecase a p ++ ends ignorecase b p
  | Star a => star_ends (ends ignorecase a) (List.length (snd p)) p
  | Plus a =>
      flat_map
        (fun q => star_ends (ends ignorecase a) (List.length (snd q)) q)
        (ends ignorecase a p)
  end.

Definition matches_at (ignorecase : bool) (r : regex) (p : pos) : bool :=
  truthy (ends ignorecase r p).

(** A compiled pattern: [re.compile(p, flags)]. *)
Record Pattern := compile { source : regex; IGNORECASE : bool }.

(** [pattern.match(s)]: a match that begins at the start of [s]. *)
Definition pmatch (pat : Pattern) (s : str) : bool :=
  matches_at (IGNORECASE pat) (source pat) (true, s).

(** [pattern.search(s)]: a match that begins anywhere in [s]. *)
Fixpoint search_from (pat : Pattern) (start : bool) (s : str) : bool :=
  matches_at (IGNORECASE pat) (source pat) (start, s)
  || match s with
     | [] => false
     | _ :: r => search_from pat false r
     end.

Definition search (pat : Pattern) (s : str) : bool := search_from pat true s.

End Re.

Import Re.

(** The first character of a literal, for one-character atoms. *)
Definition ch (s : string) : char := hd 0%N (utf8 s).

(* ================================================================== *)
(** * services/aizuchi_filter.py *)
(* ================================================================== *)

Module AizuchiFilter.

(** Trailing punctuation [[。．、]*], shared by every default pattern. *)
Definition punct : regex := Star (cls (utf8 "。．、")).

Definition DEFAULT_PATTERNS : list regex :=
  [ (* basic acknowledgements *)
    cat [Bol; lits (utf8 "うん"); punct; Eol];
    cat [Bol; lits (utf8 "ん"); Star (cls (utf8 "ー〜")); punct; Eol];
    cat [Bol; lits (utf8 "はい"); punct; Eol];
    cat [Bol; lits (utf8 "ええ"); punct; Eol];
    cat [Bol; lits (utf8 "へー"); Star (cls (utf8 "ー")); punct; Eol];
    (* fillers *)
    cat [Bol; lits (utf8 "えー"); Star (cls (utf8 "っと")); punct; Eol];
    cat [Bol; lits (utf8 "あー"); punct; Eol];
    cat [Bol; lits (utf8 "まあ"); punct; Eol];
    cat [Bol; lits (utf8 "えっと"); punct; Eol];
    cat [Bol; lits (utf8 "あの"); Star (Lit (ch "ー")); punct; Eol];
    cat [Bol; lits (utf8 "その"); Star (cls (utf8 "ー")); punct; Eol];
    cat [Bol; lits (utf8 "なんか"); punct; Eol];
    (* agreement *)
    cat [Bol; lits (utf8 "そうですね"); punct; Eol];
    cat [Bol; lits (utf8 "なるほど"); Star (cls (utf8 "ね")); punct; Eol];
    cat [Bol; lits (utf8 "確かに"); punct; Eol];
    cat [Bol; lits (utf8 "そうそう"); punct; Eol];
    cat [Bol; lits (utf8 "そっか"); Star (cls (utf8 "ー")); punct; Eol];
    cat [Bol; lits (utf8 "そうだね"); punct; Eol];
    cat [Bol; lits (utf8 "だね"); punct; Eol];
    cat [Bol; lits (utf8 "ね"); Star (cls (utf8 "ー")); punct; Eol];
    (* exclamations *)
    cat [Bol; lits (utf8 "おー"); punct; Eol];
    cat [Bol; lits (utf8 "わー"); punct; Eol];
    cat [Bol; lits (utf8 "すごい"); punct; Eol];
    cat [Bol; lits (utf8 "ふーん"); punct; Eol];
    cat [Bol; lits (utf8 "ほー"); punct; Eol];
    (* laughter *)
    cat [Bol; Plus (cls (utf8 "笑わはw")); punct; Eol];
    cat [Bol; lits (utf8 "(笑)"); punct; Eol];
    cat [Bol; lits (utf8 "ふふ"); Star (cls (utf8 "ふ")); punct; Eol];
    cat [Bol; lits (utf8 "あは"); Star (cls (utf8 "は")); punct; Eol] ].

Record t := {
  patterns : list regex;
  max_length : Z;
  enabled : bool;
  _compiled : list Pattern;
}.

(** The defaults of [__init__]'s keyword arguments. *)
Definition default_max_length : Z := 15.
Definition default_enabled : bool := true.

(** [AizuchiFilter(patterns, max_length, enabled)];
    [patterns or DEFAULT_PATTERNS] takes the defaults for [None] and for
    an empty list. *)
Definition init (patterns : option (list regex)) (max_length : Z)
    (enabled : bool) : t :=
  let ps := match patterns with
            | Some (p :: l) => p :: l
            | _ => DEFAULT_PATTERNS
            end in
  {| patterns := ps;
     max_length := max_length;
     enabled := enabled;
     _compiled := map (fun p => compile p false) ps |}.

(** The loop [for pattern in self._compiled: if pattern.match(t): return
    True], followed by [return False]. *)
Fixpoint first_match (compiled : list Pattern) (t : str) : bool :=
  match compiled with
  | [] => false
  | pattern :: rest => if pmatch pattern t then true else first_match rest t
  end.

Definition is_aizuchi (self : t) (text : str) : bool :=
  if negb (enabled self) then false
  else
    let t := strip text in
    if max_length self <? len t then false
    else if len t =? 0 then false
    else first_match (_compiled self) t.


(** The punctuation marks of [punct]. *)
Definition is_punct (c : char) : bool :=
  existsb (char_eqb c) (utf8 "。．、").

(** The fillers whose default pattern is the word itself followed by
    any punctuation: [^word[。．、]*$]. *)
Definition plain_fillers : list str :=
  map utf8
    [ "うん"; "はい"; "ええ"; "あー"; "まあ"; "えっと"; "なんか";
      "そうですね"; "確かに"; "そうそう"; "そうだね"; "だね";
      "おー"; "わー"; "すごい"; "ふーん"; "ほー"; "(笑)" ]%string.


End AizuchiFilter.

(* ================================================================== *)
(** * services/hallucination_filter.py *)
(* ================================================================== *)

Module HallucinationFilter.

Record HallucinationStats := {
  total_filtered : Z;
  repetition_filtered : Z;
  pattern_filtered : Z;
}.

Definition HALLUCINATION_PATTERNS : list regex :=
  [ cat [Bol; lits (utf8 "字幕提供"); Star Dot; Eol];
    cat [Bol; lits (utf8 "ご視聴ありがとうございました"); Star Dot; Eol];
    cat [Bol; lits (utf8 "チャンネル登録"); Star Dot; Eol];
    cat [Bol; lits (utf8 "お疲れ様でした"); Eol];
    cat [Bol; Plus (Lit (ch ".")); Eol];
    cat [Bol; Plus (Lit (ch ",")); Eol];
    cat [Bol; Plus (Cls [Space; Chr 0x3000%N]); Eol];
    Plus (Alt (lits (utf8 "music")) (Alt (lits (utf8 "♪")) (lits (utf8 "♫"))));
    lits (utf8 "[音楽]");
    lits (utf8 "[拍手]");
    cat [Bol; Star (Cls [Space]); lits (utf8 "お"); Star (Cls [Space]); Eol];
    cat [Bol; Star (Cls [Space]); lits (utf8 "ん"); Star (Cls [Space]); Eol] ].

Record t := {
  enabled : bool;
  min_repetition_count : Z;
  max_repetition_length : Z;
  stats : HallucinationStats;
  _compiled_patterns : list Pattern;
}.

Definition default_enabled : bool := true.
Definition default_min_repetition_count : Z := 3.
Definition default_max_repetition_length : Z := 20.

Definition init (enabled : bool) (min_repetition_count : Z)
    (max_repetition_length : Z) : t :=
  {| enabled := enabled;
     min_repetition_count := min_repetition_count;
     max_repetition_length := max_repetition_length;
     stats := {| total_filtered := 0;
                 repetition_filtered := 0;
                 pattern_filtered := 0 |};
     _compiled_patterns :=
       map (fun p => compile p true) HALLUCINATION_PATTERNS |}.

(** The literal [0.8]: the binary64 number nearest to it. *)
Definition point_eight : float := 0x1.999999999999ap-1%float.

(** The test of one candidate length in [detect_repetition]:
    [repetitions >= min_repetition_count] and
    [len(phrase) * repetitions / len(text) >= 0.8]. *)
Definition phrase_repeats (self : t) (text phrase : str) : bool :=
  let repetitions := count text phrase in
  if min_repetition_count self <=? repetitions then
    let expected_len := len phrase * repetitions in
    PrimFloat.leb point_eight (PyFloat.int_truediv expected_len (len text))
  else false.

(** The loop over [phrase_len], which returns at the first length whose
    prefix passes the test. *)
Fixpoint scan_phrases (self : t) (text : str) (phrase_lens : list Z)
  : bool * option str :=
  match phrase_lens with
  | [] => (false, None)
  | phrase_len :: rest =>
      let phrase := slice_to text phrase_len in
      if phrase_repeats self text phrase then (true, Some phrase)
      else scan_phrases self text rest
  end.

Definition detect_repetition (self : t) (text : str) : bool * option str :=
  if negb (truthy text) || (len text <? 6) then (false, None)
  else
    let text := strip text in
    let words := split text in
    if (min_repetition_count self <=? len words)
       && (len (set words) =? 1)
    then (true, Some (nth 0 words []))
    else
      scan_phrases self text
        (range 2 (Z.min (max_repetition_length self + 1)
                        (len text / 2 + 1))).

(** The loop over the compiled patterns, with [pattern.search]. *)
Fixpoint first_search (compiled : list Pattern) (text : str) : bool :=
  match compiled with
  | [] => false
  | pattern :: rest => if search pattern text then true
                       else first_search rest text
  end.

Definition detect_pattern_hallucination (self : t) (text : str) : bool :=
  if negb (truthy text) then false
  else first_search (_compiled_patterns self) text.

(** [self.stats.total_filtered += 1; self.stats.pattern_filtered += 1] *)
Definition count_pattern (self : t) : t :=
  let s := stats self in
  {| enabled := enabled self;
     min_repetition_count := min_repetition_count self;
     max_repetition_length := max_repetition_length self;
     stats := {| total_filtered := total_filtered s + 1;
                 repetition_filtered := repetition_filtered s;
                 pattern_filtered := pattern_filtered s + 1 |};
     _compiled_patterns := _compiled_patterns self |}.

(** [self.stats.total_filtered += 1; self.stats.repetition_filtered += 1] *)
Definition count_repetition (self : t) : t :=
  let s := stats self in
  {| enabled := enabled self;
     min_repetition_count := min_repetition_count self;
     max_repetition_length := max_repetition_length self;
     stats := {| total_filtered := total_filtered s + 1;
                 repetition_filtered := repetition_filtered s + 1;
                 pattern_filtered := pattern_filtered s |};
     _compiled_patterns := _compiled_patterns self |}.

(** What [filter] returns: [(filtered_text, was_filtered, reason)]. *)
Definition outcome := (str * bool * option str)%type.

(** [filter]: the filter after the call (its counters are updated in
    place) and the returned triple. *)
Definition filter (self : t) (text : str) : t * outcome :=
  if negb (enabled self) || negb (truthy text) then
    (self, (text, false, None))
  else if detect_pattern_hallucination self text then
    (count_pattern self, ([], true, Some (utf8 "pattern_match")))
  else
    let '(is_repetition, repeated_phrase) := detect_repetition self text in
    if is_repetition then
      let self' := count_repetition self in
      match repeated_phrase with
      | Some phrase =>
          if truthy phrase then
            (self', (strip phrase, true,
                     Some (utf8 "repetition:" ++ phrase)))
          else (self', ([], true, Some (utf8 "repetition")))
      | None => (self', ([], true, Some (utf8 "repetition")))
      end
    else (self, (text, false, None)).

(** The three outcomes of [filter]: the text is passed on, a pattern
    matched, or the phrase [p], a non-empty prefix of the trimmed text,
    was found repeated. *)
Inductive filter_case (self : t) (text : str) : t * outcome -> Prop :=
| Passed :
    filter_case self text (self, (text, false, None))
| PatternMatch :
    enabled self = true -> text <> [] ->
    detect_pattern_hallucination self text = true ->
    filter_case self text
      (count_pattern self, ([], true, Some (utf8 "pattern_match")))
| Repetition (p rest : str) :
    enabled self = true -> 6 <= len text ->
    detect_pattern_hallucination self text = false ->
    strip text = p ++ rest -> p <> [] -> strip p <> [] ->
    filter_case self text
      (count_repetition self,
       (strip p, true, Some (utf8 "repetition:" ++ p))).

(** A series of calls of [filter] on one filter object: the filter
    after the calls and the outcomes, in order. *)
Fixpoint filter_all (self : t) (texts : list str) : t * list outcome :=
  match texts with
  | [] => (self, [])
  | text :: rest =>
      let '(self, o) := filter self text in
      let '(self, os) := filter_all self rest in
      (self, o :: os)
  end.

End HallucinationFilter.

(* ================================================================== *)
(** * services/hotwords.py *)
(* ================================================================== *)

Module HotwordsManager.

(** What the manager reads from outside: a JSON file of hotwords and an
    environment variable. *)
Inductive FileContent :=
| Malformed                           (* [json.load] or [open] raises *)
| Json (hotwords : option (list str)). (* the value under "hotwords" *)

Record Env := {
  read_file : str -> option FileContent;   (* [None]: no such file *)
  getenv : str -> option str;
}.

Record t := {
  hotwords : list str;
  _config_path : option str;
}.

(** [word in words] *)
Definition contains (words : list str) (word : str) : bool :=
  existsb (str_eqb word) words.

(** The loop [for word in new: if word not in words: words.append(word)]. *)
Fixpoint merge (words new : list str) : list str :=
  match new with
  | [] => words
  | word :: rest =>
      if negb (contains words word) then merge (words ++ [word]) rest
      else merge words rest
  end.

Definition set_hotwords (self : t) (ws : list str) : t :=
  {| hotwords := ws; _config_path := _config_path self |}.

Definition load_from_file (env : Env) (self : t) (path : str) : t :=
  match read_file env path with
  | Some (Json (Some new_hotwords)) =>
      set_hotwords self (merge (hotwords self) new_hotwords)
  | Some (Json None) => self          (* [data.get('hotwords', [])] *)
  | Some Malformed => self            (* logged and ignored *)
  | None => self                      (* [open] raises: logged and ignored *)
  end.

(** [[w.strip() for w in value.split(",") if w.strip()]] *)
Definition comma_separated (value : str) : list str :=
  List.filter truthy (map strip (split_on (ch ",") value)).

Definition load_from_env (env : Env) (self : t) (env_var : str) : t :=
  match getenv env env_var with
  | Some (c :: value) =>
      set_hotwords self (merge (hotwords self) (comma_separated (c :: value)))
  | _ => self
  end.

Definition init (env : Env) (config_path : option str)
    (hotwords : option (list str)) : t :=
  let self := {| hotwords := match hotwords with Some l => l | None => [] end;
                 _config_path := config_path |} in
  match config_path with
  | Some (c :: path) =>
      match read_file env (c :: path) with
      | Some _ => load_from_file env self (c :: path)   (* the path exists *)
      | None => self
      end
  | _ => self
  end.

Definition add (self : t) (word : str) : t * bool :=
  if negb (contains (hotwords self) word)
  then (set_hotwords self (hotwords self ++ [word]), true)
  else (self, false).

Fixpoint add_many_loop (self : t) (words : list str) (added : Z) : t * Z :=
  match words with
  | [] => (self, added)
  | word :: rest =>
      let '(self', ok) := add self word in
      add_many_loop self' rest (if ok then added + 1 else added)
  end.

Definition add_many (self : t) (words : list str) : t * Z :=
  add_many_loop self words 0.

(** [list.remove]: the first occurrence. *)
Fixpoint remove_first (words : list str) (word : str) : list str :=
  match words with
  | [] => []
  | w :: rest => if str_eqb w word then rest else w :: remove_first rest word
  end.

Definition remove (self : t) (word : str) : t * bool :=
  if contains (hotwords self) word
  then (set_hotwords self (remove_first (hotwords self) word), true)
  else (self, false).

Definition clear (self : t) : t := set_hotwords self [].

Definition get_prompt (self : t) (max_words : Z) : str :=
  if negb (truthy (hotwords self)) then []
  else join (utf8 ", ") (slice_to (hotwords self) max_words).

Definition merge_with_request_hotwords (self : t)
    (request_hotwords : option (list str)) (max_total : Z) : str :=
  let combined := hotwords self in
  let combined :=
    match request_hotwords with
    | Some (w :: ws) => merge combined (w :: ws)
    | _ => combined
    end in
  let combined := slice_to combined max_total in
  if truthy combined then join (utf8 ", ") combined else [].

(** The operations that change a manager, and a series of them. *)
Inductive op :=
| Add (word : str)
| AddMany (words : list str)
| Remove (word : str)
| Clear
| LoadFromFile (env : Env) (path : str)
| LoadFromEnv (env : Env) (env_var : str).

Definition step (self : t) (o : op) : t :=
  match o with
  | Add word => fst (add self word)
  | AddMany words => fst (add_many self words)
  | Remove word => fst (remove self word)
  | Clear => clear self
  | LoadFromFile env path => load_from_file env self path
  | LoadFromEnv env env_var => load_from_env env self env_var
  end.

Definition run (ops : list op) (self : t) : t := fold_left step ops self.

End HotwordsManager.

(* ================================================================== *)
(** * services/whisper.py: the statistics *)
(* ================================================================== *)

Module TranscriptionStats.

Record t := {
  total_requests : Z;
  successful_requests : Z;
  failed_requests : Z;
  total_processing_time : float;
  total_audio_seconds : float;
}.

(** [TranscriptionStats()] *)
Definition init : t :=
  {| total_requests := 0;
     successful_requests := 0;
     failed_requests := 0;
     total_processing_time := 0%float;
     total_audio_seconds := 0%float |}.

Definition record (self : t) (processing_time : float) (success : bool)
    (audio_duration_seconds : float) : t :=
  {| total_requests := total_requests self + 1;
     successful_requests :=
       if success then successful_requests self + 1
       else successful_requests self;
     failed_requests :=
       if success then failed_requests self
       else failed_requests self + 1;
     total_processing_time :=
       PrimFloat.add (total_processing_time self) processing_time;
     total_audio_seconds :=
       PrimFloat.add (total_audio_seconds self) audio_duration_seconds |}.

(** A series of calls of [record], each with its three arguments. *)
Definition record_all (self : t) (calls : list (float * bool * float)) : t :=
  fold_left (fun s '(processing_time, success, audio_duration_seconds) =>
               record s processing_time success audio_duration_seconds)
            calls self.

(** The number of successful calls in a series. *)
Definition successes (calls : list (float * bool * float)) : Z :=
  len (List.filter (fun c => snd (fst c)) calls).

Definition avg_processing_time (self : t) : float :=
  if total_requests self =? 0 then 0%float
  else PrimFloat.div (total_processing_time self)
                     (PyFloat.of_int (total_requests self)).

Definition success_rate (self : t) : float :=
  if total_requests self =? 0 then 1%float
  else PyFloat.int_truediv (successful_requests self) (total_requests self).

End TranscriptionStats.

(* ================================================================== *)
(** * Exceptions and the world outside the service *)
(* ================================================================== *)

(** A raised exception: its class and its message.  These are instances
    of [Exception], the class every [except] clause of the service
    names. *)
Inductive exn :=
| RuntimeError (msg : str)
| ValueError (msg : str)
| ImportError (msg : str)
| OtherError (cls : str) (msg : str).

(** A call either returns or raises. *)
Inductive result (A : Type) :=
| Return (a : A)
| Raise (e : exn).
Arguments Return {A} a.
Arguments Raise {A} e.

(** A segment yielded by the local decoder. *)
Record Segment := {
  seg_start : float;
  seg_end : float;
  seg_text : str;
  avg_logprob : float;
}.

(** [info]: [duration] is [None] when the object has no such attribute. *)
Record TranscriptionInfo := { duration : option float }.

(** What [WhisperModel.transcribe] is called with. *)
Record DecodeRequest := {
  dr_audio_path : str;
  dr_language : str;
  dr_task : str;
  dr_beam_size : Z;
  dr_best_of : Z;
  dr_temperature : float;
  dr_vad_filter : bool;
  dr_vad_parameters : option (list (str * float));
  dr_initial_prompt : option str;
}.

(** What it answers: the call raises, or returns a lazy sequence of
    segments, which yields [dec_segments] and then ends or raises
    [dec_failure], together with [info]. *)
Record Decoding := {
  dec_segments : list Segment;
  dec_failure : option exn;
  dec_info : TranscriptionInfo;
}.

Inductive ProviderKind := Groq | OpenAI.

(** What the remote API is called with. *)
Record RemoteRequest := {
  rr_kind : ProviderKind;
  rr_audio_path : str;
  rr_model : str;
  rr_language : str;
}.

(** One invocation of a transcription backend. *)
Inductive Invocation :=
| Decode (r : DecodeRequest)
| Remote (r : RemoteRequest).

(** The host's accelerators, as [torch] reports them. *)
Record Host := {
  torch_installed : bool;
  cuda_available : bool;
  mps_available : bool;
  cuda_capability : result Z;     (* major version, or the probe raises *)
}.

(** The world: the clock, the backends and the log of their invocations.
    The answer of a backend may depend on how often backends were invoked
    before, so that a backend may fail once and succeed later. *)
Record World := {
  clock : nat -> float;                      (* readings of [time.time()] *)
  ticks : nat;                               (* readings taken so far *)
  host : Host;
  import_decoder : option exn;   (* [from faster_whisper import WhisperModel] *)
  load_decoder : str -> str -> str -> option exn;   (* [WhisperModel(...)] *)
  decoder : nat -> DecodeRequest -> result Decoding;
  sdk : ProviderKind -> str -> option exn;   (* import and build the client *)
  remote : nat -> RemoteRequest -> result str;
  invocations : list Invocation;
}.

(** [time.time()] *)
Definition time (w : World) : float * World :=
  (clock w (ticks w),
   {| clock := clock w; ticks := S (ticks w); host := host w;
      import_decoder := import_decoder w;
      load_decoder := load_decoder w; decoder := decoder w;
      sdk := sdk w; remote := remote w;
      invocations := invocations w |}).

(** An invocation: the backend answers and the call is logged. *)
Definition log (w : World) (i : Invocation) : World :=
  {| clock := clock w; ticks := ticks w; host := host w;
     import_decoder := import_decoder w;
     load_decoder := load_decoder w; decoder := decoder w;
     sdk := sdk w; remote := remote w;
     invocations := invocations w ++ [i] |}.

Definition invoke_decoder (w : World) (r : DecodeRequest)
  : result Decoding * World :=
  (decoder w (List.length (invocations w)) r, log w (Decode r)).

Definition invoke_remote (w : World) (r : RemoteRequest)
  : result str * World :=
  (remote w (List.length (invocations w)) r, log w (Remote r)).

(* ================================================================== *)
(** * services/device.py *)
(* ================================================================== *)

Module Device.

Definition detect_device (h : Host) : str :=
  if torch_installed h then
    if cuda_available h then utf8 "cuda"
    else if mps_available h then utf8 "mps"
    else utf8 "cpu"
  else utf8 "cpu".

Definition detect_compute_type (h : Host) (device : str) : str :=
  if str_eqb device (utf8 "cuda") then
    if torch_installed h then
      match cuda_capability h with
      | Return major => if 7 <=? major then utf8 "float16" else utf8 "int8"
      | Raise _ => utf8 "float16"
      end
    else utf8 "float16"
  else if str_eqb device (utf8 "mps") then utf8 "float16"
  else utf8 "int8".

Definition resolve_device_and_compute_type (h : Host)
    (device compute_type : str) : str * str :=
  let resolved_device :=
    if str_eqb device (utf8 "auto") then detect_device h else device in
  let resolved_compute_type :=
    if str_eqb compute_type (utf8 "auto")
    then detect_compute_type h resolved_device
    else compute_type in
  (resolved_device, resolved_compute_type).

End Device.

(* ================================================================== *)
(** * services/cloud_providers.py *)
(* ================================================================== *)

Module CloudProvider.

(** [GroqProvider] and [OpenAIProvider]: the two classes differ in the
    name of the package, in the confidence they report and in their
    display name. *)
Record t := {
  kind : ProviderKind;
  api_key : str;
  model : str;
  _client : bool;          (* [self._client is not None] *)
  _ready : bool;
}.

Definition init (kind : ProviderKind) (api_key model : str) : t :=
  {| kind := kind; api_key := api_key; model := model;
     _client := false; _ready := false |}.

Definition not_installed (k : ProviderKind) : str :=
  match k with
  | Groq => utf8 "groq package not installed. Run: pip install groq"
  | OpenAI => utf8 "openai package not installed. Run: pip install openai"
  end.

Definition _ensure_client (self : t) (w : World) : result unit * t :=
  if _client self then (Return tt, self)
  else
    match sdk w (kind self) (api_key self) with
    | None =>
        (Return tt,
         {| kind := kind self; api_key := api_key self; model := model self;
            _client := true; _ready := true |})
    | Some (ImportError _) =>
        (Raise (RuntimeError (not_installed (kind self))), self)
    | Some e => (Raise e, self)
    end.

(** The confidence reported for a non-empty text: [0.90] for Groq,
    [0.92] for OpenAI. *)
Definition assumed_confidence (k : ProviderKind) : float :=
  match k with
  | Groq => 0x1.ccccccccccccdp-1%float
  | OpenAI => 0x1.d70a3d70a3d71p-1%float
  end.

Definition transcribe (self : t) (w : World) (audio_path language : str)
  : result (str * float * float) * t * World :=
  match _ensure_client self w with
  | (Raise e, self) => (Raise e, self, w)
  | (Return _, self) =>
      let '(start, w) := time w in
      let '(answer, w) :=
        invoke_remote w {| rr_kind := kind self;
                           rr_audio_path := audio_path;
                           rr_model := model self;
                           rr_language := language |} in
      match answer with
      | Return transcription_text =>
          let '(now, w) := time w in
          let processing_time := PrimFloat.sub now start in
          let text := strip transcription_text in
          let confidence :=
            if truthy text then assumed_confidence (kind self)
            else 0%float in
          (Return (text, confidence, processing_time), self, w)
      | Raise e =>
          let '(_, w) := time w in
          (Raise e, self, w)
      end
  end.

Definition is_ready (self : t) (w : World) : bool * t :=
  match _ensure_client self w with
  | (Return _, self) => (_ready self, self)
  | (Raise _, self) => (false, self)
  end.

Definition get_provider_name (self : t) : str :=
  match kind self with
  | Groq => utf8 "groq (" ++ model self ++ utf8 ")"
  | OpenAI => utf8 "openai (" ++ model self ++ utf8 ")"
  end.

(** [create_provider]; [None] is returned for the local provider. *)
Definition create_provider (provider_type : str)
    (groq_api_key openai_api_key : option str) (groq_model openai_model : str)
  : result (option t) :=
  if str_eqb provider_type (utf8 "groq") then
    match groq_api_key with
    | Some (c :: k) => Return (Some (init Groq (c :: k) groq_model))
    | _ => Raise (ValueError
                    (utf8 "WHISPER_GROQ_API_KEY is required for Groq provider"))
    end
  else if str_eqb provider_type (utf8 "openai") then
    match openai_api_key with
    | Some (c :: k) => Return (Some (init OpenAI (c :: k) openai_model))
    | _ => Raise (ValueError
                    (utf8 "WHISPER_OPENAI_API_KEY is required for OpenAI provider"))
    end
  else if str_eqb provider_type (utf8 "local") then Return None
  else Raise (ValueError (utf8 "Unknown provider type: " ++ provider_type)).

End CloudProvider.

(* ================================================================== *)
(** * core/config.py *)
(* ================================================================== *)

Record WhisperConfig := {
  provider : str;
  groq_api_key : option str;
  openai_api_key : option str;
  model_name : str;
  device : str;
  compute_type : str;
  model_cache_dir : str;
  local_files_only : bool;
  groq_model : str;
  openai_model : str;
  beam_size : Z;
  best_of : Z;
  temperature : float;
  vad_filter : bool;
  vad_parameters : list (str * float);
  aizuchi_filter_enabled : bool;
  aizuchi_max_length : Z;
  hotwords : option str;
  hotwords_file : option str;
}.

(** [WhisperConfig()] with every default. *)
Definition default_config : WhisperConfig :=
  {| provider := utf8 "local";
     groq_api_key := None;
     openai_api_key := None;
     model_name := utf8 "large-v3";
     device := utf8 "auto";
     compute_type := utf8 "auto";
     model_cache_dir := utf8 "./models";
     local_files_only := false;
     groq_model := utf8 "whisper-large-v3";
     openai_model := utf8 "whisper-1";
     beam_size := 5;
     best_of := 5;
     temperature := 0%float;
     vad_filter := true;
     vad_parameters :=
       [ (utf8 "threshold", 0.5%float);
         (utf8 "min_speech_duration_ms", 250%float);
         (utf8 "min_silence_duration_ms", 100%float);
         (utf8 "speech_pad_ms", 30%float) ];
     aizuchi_filter_enabled := true;
     aizuchi_max_length := 15;
     hotwords := None;
     hotwords_file := None |}.

(* ================================================================== *)
(** * services/whisper.py: the service *)
(* ================================================================== *)

Module WhisperService.

(** The loaded local model: what [WhisperModel] was built with. *)
Record LocalModel := {
  lm_name : str;
  lm_device : str;
  lm_compute_type : str;
}.

Record t := {
  config : WhisperConfig;
  model : option LocalModel;
  cloud_provider : option CloudProvider.t;
  load_time : option float;
  stats : TranscriptionStats.t;
  _device : option str;
  _compute_type : option str;
  _provider_type : str;
  aizuchi_filter : AizuchiFilter.t;
  hallucination_filter : HallucinationFilter.t;
  hotwords_manager : HotwordsManager.t;       (* [self.hotwords] *)
}.

(** [WhisperService(config)] *)
Definition init (env : HotwordsManager.Env) (config : WhisperConfig) : t :=
  let hw := HotwordsManager.init env (hotwords_file config) None in
  let hw :=
    match hotwords config with
    | Some (c :: s) =>
        fst (HotwordsManager.add_many hw
               (HotwordsManager.comma_separated (c :: s)))
    | _ => hw
    end in
  let hw := HotwordsManager.load_from_env env hw (utf8 "WHISPER_HOTWORDS") in
  {| config := config;
     model := None;
     cloud_provider := None;
     load_time := None;
     stats := TranscriptionStats.init;
     _device := None;
     _compute_type := None;
     _provider_type := provider config;
     aizuchi_filter :=
       AizuchiFilter.init None (aizuchi_max_length config) false;
     hallucination_filter := HallucinationFilter.init false 3 20;
     hotwords_manager := hw |}.

(** [self._provider_type in ("groq", "openai")] *)
Definition is_cloud (self : t) : bool :=
  str_eqb (_provider_type self) (utf8 "groq")
  || str_eqb (_provider_type self) (utf8 "openai").

(** Field updates. *)
Definition set_stats (self : t) (s : TranscriptionStats.t) : t :=
  {| config := config self; model := model self;
     cloud_provider := cloud_provider self; load_time := load_time self;
     stats := s;
     _device := _device self; _compute_type := _compute_type self;
     _provider_type := _provider_type self;
     aizuchi_filter := aizuchi_filter self;
     hallucination_filter := hallucination_filter self;
     hotwords_manager := hotwords_manager self |}.

Definition set_hallucination_filter (self : t) (f : HallucinationFilter.t)
  : t :=
  {| config := config self; model := model self;
     cloud_provider := cloud_provider self; load_time := load_time self;
     stats := stats self;
     _device := _device self; _compute_type := _compute_type self;
     _provider_type := _provider_type self;
     aizuchi_filter := aizuchi_filter self;
     hallucination_filter := f;
     hotwords_manager := hotwords_manager self |}.

Definition set_cloud_provider (self : t) (p : option CloudProvider.t) : t :=
  {| config := config self; model := model self;
     cloud_provider := p; load_time := load_time self;
     stats := stats self;
     _device := _device self; _compute_type := _compute_type self;
     _provider_type := _provider_type self;
     aizuchi_filter := aizuchi_filter self;
     hallucination_filter := hallucination_filter self;
     hotwords_manager := hotwords_manager self |}.

Definition set_load_time (self : t) (lt : option float) : t :=
  {| config := config self; model := model self;
     cloud_provider := cloud_provider self; load_time := lt;
     stats := stats self;
     _device := _device self; _compute_type := _compute_type self;
     _provider_type := _provider_type self;
     aizuchi_filter := aizuchi_filter self;
     hallucination_filter := hallucination_filter self;
     hotwords_manager := hotwords_manager self |}.

Definition set_model (self : t) (d c : str) (m : LocalModel) : t :=
  {| config := config self; model := Some m;
     cloud_provider := cloud_provider self; load_time := load_time self;
     stats := stats self;
     _device := Some d; _compute_type := Some c;
     _provider_type := _provider_type self;
     aizuchi_filter := aizuchi_filter self;
     hallucination_filter := hallucination_filter self;
     hotwords_manager := hotwords_manager self |}.

Definition set_device (self : t) (d c : str) : t :=
  {| config := config self; model := model self;
     cloud_provider := cloud_provider self; load_time := load_time self;
     stats := stats self;
     _device := Some d; _compute_type := Some c;
     _provider_type := _provider_type self;
     aizuchi_filter := aizuchi_filter self;
     hallucination_filter := hallucination_filter self;
     hotwords_manager := hotwords_manager self |}.

(** [load_model] *)
Definition load_model (self : t) (w : World) : result unit * t * World :=
  let '(start, w) := time w in
  if str_eqb (_provider_type self) (utf8 "local") then
    match import_decoder w with
    | Some e => (Raise e, self, w)     (* nothing is assigned yet *)
    | None =>
        let '(d, c) :=
          Device.resolve_device_and_compute_type
            (host w) (device (config self)) (compute_type (config self)) in
        let self := set_device self d c in
        match load_decoder w (model_name (config self)) d c with
        | Some e => (Raise e, self, w)
        | None =>
            let self :=
              set_model self d c
                {| lm_name := model_name (config self);
                   lm_device := d; lm_compute_type := c |} in
            let '(now, w) := time w in
            (Return tt,
             set_load_time self (Some (PrimFloat.sub now start)), w)
        end
    end
  else if is_cloud self then
    match CloudProvider.create_provider (_provider_type self)
            (groq_api_key (config self)) (openai_api_key (config self))
            (groq_model (config self)) (openai_model (config self)) with
    | Raise e => (Raise e, self, w)
    | Return None =>
        (Raise (RuntimeError (utf8 "Failed to initialize "
                              ++ _provider_type self ++ utf8 " provider")),
         set_cloud_provider self None, w)
    | Return (Some p) =>
        let '(ready, p) := CloudProvider.is_ready p w in
        let self := set_cloud_provider self (Some p) in
        if ready then
          let '(now, w) := time w in
          (Return tt, set_load_time self (Some (PrimFloat.sub now start)), w)
        else
          (Raise (RuntimeError (utf8 "Failed to initialize "
                                ++ _provider_type self ++ utf8 " provider")),
           self, w)
    end
  else
    (Raise (ValueError (utf8 "Unknown provider type: "
                        ++ _provider_type self)), self, w).

(** ** [_transcribe_cloud] *)

Definition not_initialized : exn :=
  RuntimeError (utf8 "Cloud provider not initialized. Call load_model() first.").

Definition not_loaded : exn :=
  RuntimeError (utf8 "Local model not loaded. Call load_model() first.").

(** The [except] clause of both paths: the failure is recorded with the
    time spent since [start], and the exception is raised again. *)
Definition record_failure (self : t) (start : float) (e : exn) (w : World)
  : result (str * float * float) * t * World :=
  let '(now, w) := time w in
  let processing_time := PrimFloat.sub now start in
  (Raise e,
   set_stats self
     (TranscriptionStats.record (stats self) processing_time false 0%float),
   w).

Definition _transcribe_cloud (self : t) (w : World)
    (audio_path language : str)
  : result (str * float * float) * t * World :=
  match cloud_provider self with
  | None => (Raise not_initialized, self, w)
  | Some p =>
      let '(start, w) := time w in
      let '(answer, p, w) := CloudProvider.transcribe p w audio_path language in
      let self := set_cloud_provider self (Some p) in
      match answer with
      | Return (text, confidence, processing_time) =>
          let '(hf, (text, _, _)) :=
            HallucinationFilter.filter (hallucination_filter self) text in
          let self := set_hallucination_filter self hf in
          let self :=
            set_stats self
              (TranscriptionStats.record (stats self) processing_time
                 (0 <? len text) 0%float) in
          (Return (text, confidence, processing_time), self, w)
      | Raise e => record_failure self start e w
      end
  end.

(** ** [_transcribe_local] *)

Definition base_prompt : str :=
  utf8 "これは日本語の会話です。Discordのボイスチャンネルで話しています。".

Definition build_initial_prompt (language hotwords_prompt : str)
  : option str :=
  if str_eqb language (utf8 "ja") then
    if truthy hotwords_prompt
    then Some (base_prompt ++ utf8 " 用語: " ++ hotwords_prompt)
    else Some base_prompt
  else if truthy hotwords_prompt then Some hotwords_prompt else None.

(** The variables of the loop over the segments. *)
Record Collected := {
  text_parts : list str;
  total_logprob : float;
  segment_count : Z;
  filtered_count : Z;
}.

Definition collect_start : Collected :=
  {| text_parts := []; total_logprob := 0%float;
     segment_count := 0; filtered_count := 0 |}.

(** One round of the loop. *)
Definition collect_step (self : t) (filter_aizuchi : bool)
    (acc : Collected) (segment : Segment) : Collected :=
  let text := strip (seg_text segment) in
  if filter_aizuchi && AizuchiFilter.is_aizuchi (aizuchi_filter self) text then
    {| text_parts := text_parts acc;
       total_logprob := total_logprob acc;
       segment_count := segment_count acc;
       filtered_count := filtered_count acc + 1 |}
  else
    {| text_parts := text_parts acc ++ [text];
       total_logprob := PrimFloat.add (total_logprob acc) (avg_logprob segment);
       segment_count := segment_count acc + 1;
       filtered_count := filtered_count acc |}.

Fixpoint collect (self : t) (filter_aizuchi : bool) (acc : Collected)
    (segments : list Segment) : Collected :=
  match segments with
  | [] => acc
  | segment :: rest =>
      collect self filter_aizuchi
        (collect_step self filter_aizuchi acc segment) rest
  end.

(** [min(1.0, max(0.0, 1.0 + avg_logprob / 3))] *)
Definition confidence_of (avg_logprob : float) : float :=
  PyFloat.min 1%float
    (PyFloat.max 0%float
       (PrimFloat.add 1%float (PrimFloat.div avg_logprob (PyFloat.of_int 3)))).

(** The arguments of [self.model.transcribe(...)]. *)
Definition decode_request (self : t) (audio_path language : str)
    (additional_hotwords : option (list str)) : DecodeRequest :=
  let hotwords_prompt :=
    HotwordsManager.merge_with_request_hotwords
      (hotwords_manager self) additional_hotwords 50 in
  let initial_prompt := build_initial_prompt language hotwords_prompt in
  {| dr_audio_path := audio_path;
     dr_language := language;
     dr_task := utf8 "transcribe";
     dr_beam_size := beam_size (config self);
     dr_best_of := best_of (config self);
     dr_temperature := temperature (config self);
     dr_vad_filter := vad_filter (config self);
     dr_vad_parameters :=
       if vad_filter (config self)
       then Some (vad_parameters (config self)) else None;
     dr_initial_prompt := initial_prompt |}.

Definition _transcribe_local (self : t) (w : World)
    (audio_path language : str) (filter_aizuchi : bool)
    (additional_hotwords : option (list str))
  : result (str * float * float) * t * World :=
  match model self with
  | None => (Raise not_loaded, self, w)
  | Some _ =>
      let '(start, w) := time w in
      let '(answer, w) :=
        invoke_decoder w
          (decode_request self audio_path language additional_hotwords) in
      match answer with
      | Raise e => record_failure self start e w
      | Return d =>
          match dec_failure d with
          | Some e => record_failure self start e w   (* while iterating *)
          | None =>
              let acc :=
                collect self filter_aizuchi collect_start (dec_segments d) in
              let text := strip (join (utf8 " ") (text_parts acc)) in
              let '(hf, (text, _, _)) :=
                HallucinationFilter.filter (hallucination_filter self) text in
              let confidence :=
                if 0 <? segment_count acc then
                  let avg_logprob :=
                    PrimFloat.div (total_logprob acc)
                                  (PyFloat.of_int (segment_count acc)) in
                  confidence_of avg_logprob
                else 0%float in
              let '(now, w) := time w in
              let processing_time := PrimFloat.sub now start in
              let self := set_hallucination_filter self hf in
              let self :=
                set_stats self
                  (TranscriptionStats.record (stats self) processing_time
                     (0 <? len text)
                     (match duration (dec_info d) with
                      | Some secs => secs
                      | None => 0%float
                      end)) in
              (Return (text, confidence, processing_time), self, w)
          end
      end
  end.

(** ** [transcribe] *)
Definition transcribe (self : t) (w : World) (audio_path language : str)
    (filter_aizuchi : bool) (additional_hotwords : option (list str))
  : result (str * float * float) * t * World :=
  if is_cloud self then _transcribe_cloud self w audio_path language
  else _transcribe_local self w audio_path language filter_aizuchi
         additional_hotwords.

(** [is_ready] *)
Definition is_ready (self : t) (w : World) : bool * t :=
  if is_cloud self then
    match cloud_provider self with
    | None => (false, self)
    | Some p =>
        let '(ready, p) := CloudProvider.is_ready p w in
        (ready, set_cloud_provider self (Some p))
    end
  else (match model self with Some _ => true | None => false end, self).

(** The properties [device], [compute_type] and [provider_name];
    [x or y] takes [y] when [x] is [None] or empty. *)
Definition configured_device (self : t) : str := device (config self).
Definition configured_compute_type (self : t) : str :=
  compute_type (config self).
Definition local_name (self : t) : str :=
  utf8 "local (" ++ model_name (config self) ++ utf8 ")".

Definition device_property (self : t) : str :=
  if is_cloud self then utf8 "cloud"
  else match _device self with
       | Some (c :: d) => c :: d
       | _ => configured_device self
       end.

Definition compute_type_property (self : t) : str :=
  if is_cloud self then utf8 "cloud"
  else match _compute_type self with
       | Some (c :: d) => c :: d
       | _ => configured_compute_type self
       end.

Definition provider_name (self : t) : str :=
  if is_cloud self then
    match cloud_provider self with
    | Some p => CloudProvider.get_provider_name p
    | None => local_name self
    end
  else local_name self.

(** The provider of the configured kind exists: the test that
    [_transcribe_cloud] and [_transcribe_local] begin with. *)
Definition initialized (self : t) : bool :=
  if is_cloud self then
    match cloud_provider self with Some _ => true | None => false end
  else match model self with Some _ => true | None => false end.

(** The provider exists and, for a remote one, its client is built and
    ready. *)
Definition operational (self : t) : bool :=
  if is_cloud self then
    match cloud_provider self with
    | Some p => CloudProvider._client p && CloudProvider._ready p
    | None => false
    end
  else match model self with Some _ => true | None => false end.

(** What a failed call leaves in the service [s'], read field by field:
    one more request, counted as failed, with the elapsed time added to
    the processing time and no audio; everything else as in [self], the
    handle of the remote provider apart. *)
Definition failure_recorded (self s' : t) (elapsed : float) : Prop :=
  TranscriptionStats.total_requests (stats s')
  = TranscriptionStats.total_requests (stats self) + 1
  /\ TranscriptionStats.failed_requests (stats s')
     = TranscriptionStats.failed_requests (stats self) + 1
  /\ TranscriptionStats.successful_requests (stats s')
     = TranscriptionStats.successful_requests (stats self)
  /\ TranscriptionStats.total_processing_time (stats s')
     = PrimFloat.add (TranscriptionStats.total_processing_time (stats self))
         elapsed
  /\ TranscriptionStats.total_audio_seconds (stats s')
     = PrimFloat.add (TranscriptionStats.total_audio_seconds (stats self))
         0%float
  /\ config s' = config self /\ model s' = model self
  /\ load_time s' = load_time self
  /\ _device s' = _device self /\ _compute_type s' = _compute_type self
  /\ _provider_type s' = _provider_type self
  /\ aizuchi_filter s' = aizuchi_filter self
  /\ hallucination_filter s' = hallucination_filter self
  /\ hotwords_manager s' = hotwords_manager self.

(** Both filters are switched off. *)
Definition filters_off (s : t) : Prop :=
  AizuchiFilter.enabled (aizuchi_filter s) = false
  /\ HallucinationFilter.enabled (hallucination_filter s) = false.

End WhisperService.

(** ** The operations a caller performs on a service *)

Inductive op :=
| LoadModel
| Transcribe (audio_path language : str) (filter_aizuchi : bool)
             (additional_hotwords : option (list str))
| IsReady
| GetStatus.

Definition step (sw : WhisperService.t * World) (o : op)
  : WhisperService.t * World :=
  let '(self, w) := sw in
  match o with
  | LoadModel =>
      let '(_, self, w) := WhisperService.load_model self w in (self, w)
  | Transcribe audio_path language filter_aizuchi additional_hotwords =>
      let '(_, self, w) :=
        WhisperService.transcribe self w audio_path language filter_aizuchi
          additional_hotwords in
      (self, w)
  | IsReady => (snd (WhisperService.is_ready self w), w)
  | GetStatus =>                 (* reads, and asks [is_ready] *)
      (snd (WhisperService.is_ready self w), w)
  end.

(** The operation is a call of [transcribe]. *)
Definition is_transcribe (o : op) : bool :=
  match o with Transcribe _ _ _ _ => true | _ => false end.

Definition run (ops : list op) (sw : WhisperService.t * World)
  : WhisperService.t * World :=
  fold_left step ops sw.

(* ================================================================== *)
(** * The specification's formulas *)
(* ================================================================== *)

Module Spec.

(** [clamp(lo, hi, x)]: [x] brought back into [[lo, hi]]. *)
Definition clamp (lo hi x : float) : float :=
  PyFloat.min hi (PyFloat.max lo x).

(** The segments that are kept: the others are classified as fillers,
    when the caller asks for the filler filter. *)
Definition kept (f : AizuchiFilter.t) (filter_aizuchi : bool)
    (segments : list Segment) : list Segment :=
  List.filter
    (fun s => negb (filter_aizuchi
                    && AizuchiFilter.is_aizuchi f (strip (seg_text s))))
    segments.

(** The mean of the log-probabilities, summed in the order of the
    segments. *)
Definition averageLogProbability (segments : list Segment) : float :=
  PrimFloat.div
    (fold_left PrimFloat.add (map avg_logprob segments) 0%float)
    (PyFloat.of_int (len segments)).

Definition confidence (kept_segments : list Segment) : float :=
  match kept_segments with
  | [] => 0%float
  | _ =>
      clamp 0%float 1%float
        (PrimFloat.add 1%float
           (PrimFloat.div (averageLogProbability kept_segments) 3%float))
  end.


(** The request terms that a merge appends: those that are neither in
    the registry nor earlier in the request. *)
Fixpoint fresh_terms (seen : list str) (request : list str) : list str :=
  match request with
  | [] => []
  | w :: rest =>
      if HotwordsManager.contains seen w then fresh_terms seen rest
      else w :: fresh_terms (seen ++ [w]) rest
  end.

Definition request_terms (request : option (list str)) : list str :=
  match request with Some l => l | None => [] end.

End Spec.

(* ================================================================== *)
(** * Sample configurations, for the worked instances *)
(* ================================================================== *)

Module Sample.

(** No hotwords file and no environment variable. *)
Definition env : HotwordsManager.Env :=
  {| HotwordsManager.read_file := fun _ => None;
     HotwordsManager.getenv := fun _ => None |}.

Definition test_error : exn :=
  OtherError (utf8 "Exception") (utf8 "Test error").

Definition segment (text : string) (logprob : float) : Segment :=
  {| seg_start := 0%float; seg_end := 1%float;
     seg_text := utf8 text; avg_logprob := logprob |}.

Definition decoding : Decoding :=
  {| dec_segments := [ segment "うん" (-1)%float;
                       segment " これはテストです " (-2)%float ];
     dec_failure := None;
     dec_info := {| duration := Some 2.5%float |} |}.

(** A world whose clock shows 0, 1, 2, ... and whose backends give the
    answers [local] and [api]. *)
Definition world (local : result Decoding) (api : result str) : World :=
  {| clock := fun n => PyFloat.of_int (Z.of_nat n);
     ticks := 0;
     host := {| torch_installed := false; cuda_available := false;
                mps_available := false; cuda_capability := Return 7 |};
     import_decoder := None;
     load_decoder := fun _ _ _ => None;
     decoder := fun _ _ => local;
     sdk := fun _ _ => None;
     remote := fun _ _ => api;
     invocations := [] |}.

Definition with_provider (c : WhisperConfig) (kind : string)
    (key : option str) : WhisperConfig :=
  {| provider := utf8 kind;
     groq_api_key := key;
     openai_api_key := key;
     model_name := model_name c;
     device := device c;
     compute_type := compute_type c;
     model_cache_dir := model_cache_dir c;
     local_files_only := local_files_only c;
     groq_model := groq_model c;
     openai_model := openai_model c;
     beam_size := beam_size c;
     best_of := best_of c;
     temperature := temperature c;
     vad_filter := vad_filter c;
     vad_parameters := vad_parameters c;
     aizuchi_filter_enabled := aizuchi_filter_enabled c;
     aizuchi_max_length := aizuchi_max_length c;
     hotwords := hotwords c;
     hotwords_file := hotwords_file c |}.

(** A service after [load_model], with the world it leaves. *)
Definition loaded (c : WhisperConfig) (w : World) : WhisperService.t * World :=
  let '(_, s, w) :=
    WhisperService.load_model (WhisperService.init env c) w in
  (s, w).

Definition local_model : WhisperService.LocalModel :=
  {| WhisperService.lm_name := utf8 "large-v3";
     WhisperService.lm_device := utf8 "cpu";
     WhisperService.lm_compute_type := utf8 "int8" |}.

End Sample.

(** Proof steps that recur for the service: reading the clock, and
    entering an [except] clause. *)
Ltac read_clock := rewrite (surjective_pairing (time _)).
Ltac enter_except := unfold WhisperService.record_failure; read_clock.

(* ================================================================== *)
(** * Properties of the string operations *)
(* ================================================================== *)

Section StringFacts.

Lemma len_nonneg {A : Type} (s : list A) : 0 <= len s.
Proof. unfold len. lia. Qed.

Lemma len_app {A : Type} (a b : list A) : len (a ++ b) = len a + len b.
Proof. unfold len. rewrite length_app. lia. Qed.

Lemma truthy_len {A : Type} (s : list A) : truthy s = (0 <? len s).
Proof. destruct s; reflexivity. Qed.

Lemma str_eqb_refl (a : str) : str_eqb a a = true.
Proof. unfold str_eqb. destruct (str_eq_dec a a); congruence. Qed.

Lemma str_eqb_eq (a b : str) : str_eqb a b = true <-> a = b.
Proof.
  unfold str_eqb. destruct (str_eq_dec a b); split; congruence.
Qed.

(** *** [strip] *)

Lemma lstrip_no_space (c : char) (w : str) :
  isspace c = false -> lstrip (c :: w) = c :: w.
Proof. intros H. simpl. now rewrite H. Qed.

Lemma rstrip_no_space (w : str) : no_space w -> rstrip w = w.
Proof.
  induction 1 as [|c r Hc Hr IH]; simpl; [reflexivity|].
  rewrite IH. destruct r; [now rewrite Hc | reflexivity].
Qed.

Lemma strip_no_space (w : str) : no_space w -> strip w = w.
Proof.
  intros H. unfold strip. destruct H as [|c r Hc Hr]; [reflexivity|].
  rewrite lstrip_no_space by assumption.
  apply rstrip_no_space. now constructor.
Qed.

Lemma rstrip_nil_all_space (s : str) : rstrip s = [] -> all_space s.
Proof.
  induction s as [|c r IH]; simpl; intros H; [constructor|].
  destruct (rstrip r) eqn:E; [|discriminate].
  destruct (isspace c) eqn:Ec; [|discriminate].
  constructor; [assumption | apply IH; reflexivity].
Qed.

(** *** [split] *)

Lemma split_acc_all_space (cur s : str) :
  all_space s ->
  split_acc cur s = match cur with [] => [] | _ => [cur] end.
Proof.
  intros H. revert cur. induction H as [|c r Hc Hr IH]; intros cur; simpl.
  - reflexivity.
  - rewrite Hc. destruct cur; rewrite IH; reflexivity.
Qed.

Lemma split_acc_rstrip (s cur : str) :
  split_acc cur (rstrip s) = split_acc cur s.
Proof.
  revert cur. induction s as [|c r IH]; intros cur; [reflexivity|].
  simpl rstrip. destruct (rstrip r) as [|c' r'] eqn:E.
  - pose proof (rstrip_nil_all_space _ E) as Hsp.
    destruct (isspace c) eqn:Ec; simpl; rewrite Ec.
    + destruct cur; rewrite split_acc_all_space by assumption; reflexivity.
    + rewrite split_acc_all_space by assumption.
      destruct (cur ++ [c]) eqn:E2; [now destruct cur | reflexivity].
  - simpl. destruct (isspace c).
    + destruct cur; rewrite <- IH; reflexivity.
    + rewrite <- IH. reflexivity.
Qed.

Lemma split_lstrip (s : str) : split (lstrip s) = split s.
Proof.
  unfold split. induction s as [|c r IH]; [reflexivity|].
  simpl. destruct (isspace c) eqn:Ec; [assumption|].
  simpl. now rewrite Ec.
Qed.

Lemma split_strip (s : str) : split (strip s) = split s.
Proof.
  unfold strip, split. rewrite split_acc_rstrip. apply split_lstrip.
Qed.

(** Every word of a split is non-empty and free of whitespace. *)
Lemma split_acc_words (s cur : str) :
  no_space cur ->
  Forall (fun w => w <> [] /\ no_space w) (split_acc cur s).
Proof.
  revert cur. induction s as [|c r IH]; intros cur Hcur; simpl.
  - destruct cur; constructor; [split; [discriminate | assumption] | constructor].
  - destruct (isspace c) eqn:Ec.
    + destruct cur.
      * apply IH. constructor.
      * constructor; [split; [discriminate | assumption]|].
        apply IH. constructor.
    + apply IH. apply Forall_app. split; [assumption|].
      constructor; [assumption | constructor].
Qed.

Lemma split_words (s : str) :
  Forall (fun w => w <> [] /\ no_space w) (split s).
Proof. apply split_acc_words. constructor. Qed.

(** A text made of words joined by single spaces splits into them. *)
Lemma split_acc_word (w cur rest : str) :
  no_space w -> split_acc cur (w ++ rest) = split_acc (cur ++ w) rest.
Proof.
  intros H. revert cur. induction H as [|c r Hc Hr IH]; intros cur; simpl.
  - now rewrite app_nil_r.
  - rewrite Hc, IH, <- app_assoc. reflexivity.
Qed.

Lemma split_join_repeat (w : str) (n : nat) :
  w <> [] -> no_space w ->
  split (join (utf8 " ") (repeat w n)) = repeat w n.
Proof.
  intros Hne Hw. unfold split. induction n as [|n IH]; [reflexivity|].
  destruct n as [|n].
  - simpl. rewrite <- (app_nil_r w) at 1.
    rewrite split_acc_word by assumption. simpl.
    destruct w; [congruence | reflexivity].
  - change (repeat w (S (S n))) with (w :: repeat w (S n)).
    change (join (utf8 " ") (w :: repeat w (S n)))
      with (w ++ utf8 " " ++ join (utf8 " ") (repeat w (S n))).
    rewrite split_acc_word by assumption.
    change (utf8 " ") with [32%N] in *.
    cbn [app split_acc]. change (isspace 32%N) with true. cbn iota.
    rewrite IH. destruct w; [congruence | reflexivity].
Qed.

(** *** [count]: occurrences are counted without overlap *)

Lemma startswith_app (p s : str) : startswith (p ++ s) p = true.
Proof.
  induction p as [|c p IH]; [reflexivity|].
  simpl. unfold char_eqb. now rewrite N.eqb_refl, IH.
Qed.

Lemma count_from_skip (u s sub : str) :
  count_from (List.length u) (u ++ s) sub = count_from 0 s sub.
Proof. induction u as [|c u IH]; [reflexivity | exact IH]. Qed.

Lemma count_app_self (p s : str) : p <> [] -> count (p ++ s) p = 1 + count s p.
Proof.
  destruct p as [|c p]; [congruence|]. intros _. unfold count.
  change ((c :: p) ++ s) with (c :: (p ++ s)).
  cbn [count_from].
  change (c :: p ++ s) with ((c :: p) ++ s). rewrite startswith_app.
  replace (List.length (c :: p) - 1)%nat with (List.length p)
    by (cbn [List.length]; lia).
  now rewrite count_from_skip.
Qed.

Lemma count_nil (p : str) : p <> [] -> count [] p = 0.
Proof. destruct p; [congruence | reflexivity]. Qed.

Lemma count_concat_repeat (p : str) (n : nat) :
  p <> [] -> count (List.concat (repeat p n)) p = Z.of_nat n.
Proof.
  intros Hp. induction n as [|n IH].
  - now apply count_nil.
  - cbn [repeat List.concat]. rewrite count_app_self, IH by assumption. lia.
Qed.

(** *** [set] *)

Lemma set_repeat (w : str) (n : nat) : set (repeat w (S n)) = [w].
Proof.
  unfold set. induction n as [|n IH]; [reflexivity|].
  change (repeat w (S (S n))) with (w :: repeat w (S n)).
  remember (repeat w (S n)) as l eqn:El. simpl nodup.
  destruct (in_dec str_eq_dec w l) as [_|H]; [exact IH|].
  exfalso. apply H. subst l. now left.
Qed.

(** *** Slices and [range] *)

Lemma slice_to_firstn {A : Type} (s : list A) (k : Z) :
  0 <= k -> slice_to s k = firstn (Z.to_nat k) s.
Proof. intros H. unfold slice_to. destruct (Z.ltb_spec k 0); [lia | reflexivity]. Qed.

Lemma len_firstn {A : Type} (s : list A) (k : Z) :
  0 <= k <= len s -> len (firstn (Z.to_nat k) s) = k.
Proof. unfold len. intros H. rewrite length_firstn. lia. Qed.


Lemma range_cons (a b : Z) : a < b -> range a b = a :: range (a + 1) b.
Proof.
  intros H. unfold range.
  replace (Z.to_nat (b - a)) with (S (Z.to_nat (b - (a + 1)))) by lia.
  cbn [seq map]. f_equal; [lia|].
  rewrite <- seq_shift, map_map. apply map_ext. intros i. lia.
Qed.

Lemma range_nil (a b : Z) : b <= a -> range a b = [].
Proof.
  intros H. unfold range. replace (Z.to_nat (b - a)) with O by lia. reflexivity.
Qed.


End StringFacts.

(* ================================================================== *)
(** * The filler-word filter *)
(* ================================================================== *)

Section AizuchiFacts.
Import AizuchiFilter.

Lemma first_match_exists (compiled : list Pattern) (t : str) :
  first_match compiled t = true <->
  exists p, In p compiled /\ pmatch p t = true.
Proof.
  induction compiled as [|p l IH]; simpl.
  - split; [discriminate | intros (p & [] & _)].
  - destruct (pmatch p t) eqn:E.
    + split; [|reflexivity]. intros _. exists p. auto.
    + rewrite IH. split; intros (q & Hq & Hm).
      * exists q. auto.
      * destruct Hq as [<-|Hq]; [congruence|]. exists q. auto.
Qed.

(** C6: [is_aizuchi] answers [False] when the filter is disabled, when
    the trimmed fragment is longer than [max_length] (15 by default),
    whatever it contains, and when the trimmed fragment is empty; in
    every other case its answer is that of the ordered list of patterns
    on the trimmed fragment.  Hence it answers [True] exactly when the
    filter is enabled, the trimmed fragment is non-empty and at most
    [max_length] long, and some pattern matches it. *)
Theorem is_aizuchi_guards (self : AizuchiFilter.t) (text : str) :
  (enabled self = false -> is_aizuchi self text = false)
  /\ (max_length self < len (strip text) -> is_aizuchi self text = false)
  /\ (strip text = [] -> is_aizuchi self text = false)
  /\ (enabled self = true -> len (strip text) <= max_length self ->
      strip text <> [] ->
      is_aizuchi self text = first_match (_compiled self) (strip text))
  /\ (is_aizuchi self text = true <->
      enabled self = true /\ strip text <> []
      /\ len (strip text) <= max_length self
      /\ exists p, In p (_compiled self) /\ pmatch p (strip text) = true)
  /\ default_max_length = 15.
Proof.
  assert (G1 : enabled self = false -> is_aizuchi self text = false).
  { intros H. unfold is_aizuchi. now rewrite H. }
  assert (G2 : max_length self < len (strip text) ->
               is_aizuchi self text = false).
  { intros H. unfold is_aizuchi. destruct (enabled self); [|reflexivity].
    simpl. apply Z.ltb_lt in H. now rewrite H. }
  assert (G3 : strip text = [] -> is_aizuchi self text = false).
  { intros H. unfold is_aizuchi. rewrite H.
    destruct (enabled self); [|reflexivity]. simpl.
    destruct (max_length self <? len []); reflexivity. }
  assert (G4 : enabled self = true -> len (strip text) <= max_length self ->
               strip text <> [] ->
               is_aizuchi self text = first_match (_compiled self) (strip text)).
  { intros He Hl Hn. unfold is_aizuchi. rewrite He. simpl.
    destruct (Z.ltb_spec (max_length self) (len (strip text))); [lia|].
    destruct (strip text) as [|c r] eqn:E; [congruence|].
    reflexivity. }
  repeat split; auto.
  - destruct (enabled self) eqn:He; [reflexivity|].
    rewrite G1 in H; [discriminate | reflexivity].
  - intros E. rewrite (G3 E) in H. discriminate.
  - destruct (Z.lt_ge_cases (max_length self) (len (strip text))) as [L|L];
      [|lia].
    rewrite (G2 L) in H. discriminate.
  - destruct (enabled self) eqn:He; [|rewrite G1 in H; [discriminate | reflexivity]].
    destruct (Z.lt_ge_cases (max_length self) (len (strip text))) as [L|L].
    { rewrite (G2 L) in H. discriminate. }
    destruct (strip text) as [|c r] eqn:E.
    { rewrite G3 in H; [discriminate | reflexivity]. }
    rewrite G4 in H; try (reflexivity || lia || discriminate).
    now apply first_match_exists.
  - intros (He & Hn & Hl & Hex).
    rewrite G4 by assumption. now apply first_match_exists.
Qed.

Lemma is_aizuchi_guards_witness :
  is_aizuchi (init None 15 false) (utf8 "うん") = false
  /\ is_aizuchi (init None 15 true)
       (utf8 "うんうんうんうんうんうんうんうん") = false
  /\ is_aizuchi (init None 15 true) (utf8 "  ") = false
  /\ is_aizuchi (init None 15 true) (utf8 " うん。 ") = true.
Proof.
  split; [|split; [|split]].
  - apply (proj1 (is_aizuchi_guards _ _)). reflexivity.
  - apply (proj1 (proj2 (is_aizuchi_guards _ _))). vm_compute. reflexivity.
  - apply (proj1 (proj2 (proj2 (is_aizuchi_guards _ _)))). reflexivity.
  - rewrite (proj1 (proj2 (proj2 (proj2 (is_aizuchi_guards _ _))))).
    + reflexivity.
    + reflexivity.
    + vm_compute. discriminate.
    + vm_compute. discriminate.
Defined.

End AizuchiFacts.

(* ================================================================== *)
(** * Regular-expression search *)
(* ================================================================== *)

Section SearchFacts.

(** [search] finds a match that begins at any position of the text. *)
Lemma search_from_spec (pat : Pattern) (s : str) (start : bool) :
  search_from pat start s = true <->
  exists pre rest, s = pre ++ rest
    /\ matches_at (IGNORECASE pat) (source pat)
         (match pre with [] => start | _ => false end, rest) = true.
Proof.
  revert start. induction s as [|c r IH]; intros start; simpl.
  - rewrite orb_false_r. split.
    + intros H. exists [], []. auto.
    + intros (pre & rest & E & H).
      symmetry in E. apply app_eq_nil in E. destruct E; subst. exact H.
  - rewrite orb_true_iff, IH. split.
    + intros [H | (pre & rest & E & H)].
      * exists [], (c :: r). auto.
      * exists (c :: pre), rest. subst r. split; [reflexivity|].
        destruct pre; exact H.
    + intros (pre & rest & E & H). destruct pre as [|c' pre].
      * left. simpl in E. subst rest. exact H.
      * right. injection E as -> ->. exists pre, rest. split; [reflexivity|].
        destruct pre; exact H.
Qed.

Lemma unicode_tolower_idem (a : char) :
  unicode_tolower (unicode_tolower a) = unicode_tolower a.
Proof.
  unfold unicode_tolower.
  destruct ((65 <=? a) && (a <=? 90))%N eqn:E1.
  - apply andb_true_iff in E1. destruct E1 as [E1 E2].
    apply N.leb_le in E1, E2.
    destruct (N.leb_spec 65 (a + 32)), (N.leb_spec (a + 32) 90);
      simpl; try lia.
    destruct (N.eqb_spec (a + 32) 304); [lia | reflexivity].
  - destruct (N.eqb_spec a 304) as [E|E]; [reflexivity|].
    rewrite E1. destruct (N.eqb_spec a 304); congruence.
Qed.

Lemma chr_match_lower (p c : char) :
  unicode_tolower c = unicode_tolower p -> chr_match true p c = true.
Proof.
  intros H. unfold chr_match. rewrite H. cbn [andb existsb].
  unfold char_eqb at 2. rewrite N.eqb_refl. cbn [orb]. apply orb_true_r.
Qed.

(** A literal matches every text that begins with the same characters,
    up to case for a case-insensitive pattern. *)
Lemma ends_lits (ic : bool) (p w rest : str) (b : bool) :
  p <> [] ->
  Forall2 (fun pc c => chr_match ic pc c = true) p w ->
  In (false, rest) (ends ic (lits p) (b, w ++ rest)).
Proof.
  intros Hne H. revert b. induction H as [|pc c p' w' Hc Hrest IH]; intros b.
  - congruence.
  - destruct p' as [|pc' p''].
    + inversion Hrest; subst. cbn. rewrite Hc. now left.
    + change (lits (pc :: pc' :: p'')) with (Seq (Lit pc) (lits (pc' :: p''))).
      cbn [ends]. apply in_flat_map. exists (false, w' ++ rest). split.
      * cbn. rewrite Hc. now left.
      * apply IH. discriminate.
Qed.

Lemma star_ends_head (step : pos -> list pos) (fuel : nat) (p : pos) :
  In p (star_ends step fuel p).
Proof. destruct fuel; simpl; now left. Qed.

Lemma ends_plus (ic : bool) (a : regex) (p q : pos) :
  In q (ends ic a p) -> In q (ends ic (Plus a) p).
Proof.
  intros H. cbn [ends]. apply in_flat_map. exists q. split; [assumption|].
  apply star_ends_head.
Qed.

Lemma matches_at_in (ic : bool) (r : regex) (p q : pos) :
  In q (ends ic r p) -> matches_at ic r p = true.
Proof. unfold matches_at. destruct (ends ic r p); [intros [] | reflexivity]. Qed.

End SearchFacts.

(* ================================================================== *)
(** * The hallucination filter *)
(* ================================================================== *)

Section HallucinationFacts.
Import HallucinationFilter.

Lemma first_search_exists (compiled : list Pattern) (t : str) :
  first_search compiled t = true <->
  exists p, In p compiled /\ search p t = true.
Proof.
  induction compiled as [|p l IH]; simpl.
  - split; [discriminate | intros (p & [] & _)].
  - destruct (search p t) eqn:E.
    + split; [|reflexivity]. intros _. exists p. auto.
    + rewrite IH. split; intros (q & Hq & Hm).
      * exists q. auto.
      * destruct Hq as [<-|Hq]; [congruence|]. exists q. auto.
Qed.

(** The music pattern is found inside any text, in any case. *)
Lemma detect_music (e : bool) (m l : Z) (pre w post : str) :
  map unicode_tolower w = utf8 "music" ->
  detect_pattern_hallucination (init e m l) (pre ++ w ++ post) = true.
Proof.
  intros Hw. unfold detect_pattern_hallucination.
  assert (Hne : truthy (pre ++ w ++ post) = true).
  { destruct w; [discriminate|]. destruct pre; reflexivity. }
  rewrite Hne. cbn [negb].
  apply first_search_exists.
  exists (compile
            (Plus (Alt (lits (utf8 "music"))
                       (Alt (lits (utf8 "♪")) (lits (utf8 "♫"))))) true).
  split.
  - cbn. do 7 right. now left.
  - apply search_from_spec. exists pre, (w ++ post). split; [reflexivity|].
    cbn [IGNORECASE source].
    apply matches_at_in with (q := (false, post)).
    apply ends_plus. cbn [ends]. apply in_or_app. left.
    apply ends_lits; [discriminate|].
    rewrite <- Hw. clear. induction w; constructor; [|assumption].
    apply chr_match_lower. symmetry. apply unicode_tolower_idem.
Qed.

End HallucinationFacts.

Section RepetitionFacts.
Import HallucinationFilter.



(** A phrase found by the scan is the prefix of the first length that
    passes the test. *)
Lemma scan_phrases_found (self : t) (text p : str) (b : Z) (n : nat) :
  forall a, n = Z.to_nat (b - a) ->
  scan_phrases self text (range a b) = (true, Some p) ->
  exists k, a <= k < b /\ p = slice_to text k
    /\ phrase_repeats self text (slice_to text k) = true
    /\ forall j, a <= j < k ->
         phrase_repeats self text (slice_to text j) = false.
Proof.
  induction n as [|n IH]; intros a Hn Hscan.
  - rewrite range_nil in Hscan by lia. discriminate.
  - rewrite range_cons in Hscan by lia. cbn [scan_phrases] in Hscan.
    destruct (phrase_repeats self text (slice_to text a)) eqn:E.
    + injection Hscan as <-. exists a. repeat split; try lia; assumption.
    + destruct (IH (a + 1) ltac:(lia) Hscan) as (k & Hk & Hp & Hr & Hbefore).
      exists k. repeat split; try lia; try assumption.
      intros j Hj. destruct (Z.eq_dec j a) as [->|Hne]; [assumption|].
      apply Hbefore. lia.
Qed.



Lemma half_le_len {A : Type} (s : list A) : len s / 2 <= len s.
Proof.
  pose proof (len_nonneg s). apply Z.div_le_upper_bound; lia.
Qed.

(** The coverage test on the boundary: 8 of 10 characters pass, 7 of 9
    and 79 of 100 do not. *)
Example coverage_boundary :
  PrimFloat.leb point_eight (PyFloat.int_truediv 8 10) = true
  /\ PrimFloat.leb point_eight (PyFloat.int_truediv 7 9) = false
  /\ PrimFloat.leb point_eight (PyFloat.int_truediv 79 100) = false.
Proof. split; [|split]; reflexivity. Qed.



(** C1 (as amended): for an enabled filter with min_repetition_count 3,
    a text of at least six characters that matches no boilerplate pattern
    and whose whitespace-separated tokens are N >= 3 copies of one token
    is reported as a repetition: the output is that token (which trimming
    leaves as it is), was_filtered is true, the reason is
    "repetition:<token>", and the repetition counters are incremented. *)
Theorem filter_repeated_token (self : t) (text tok : str) (n : nat) :
  enabled self = true ->
  min_repetition_count self = 3 ->
  split text = repeat tok n ->
  (3 <= n)%nat ->
  6 <= len text ->
  detect_pattern_hallucination self text = false ->
  filter self text
  = (count_repetition self,
     (tok, true, Some (utf8 "repetition:" ++ tok)))
  /\ strip tok = tok.
Proof.
  intros He Hmin Hsplit Hn Hlen Hpat.
  assert (Htok : tok <> [] /\ no_space tok).
  { pose proof (split_words text) as H. rewrite Hsplit in H.
    destruct n as [|n]; [lia|]. now inversion H. }
  destruct Htok as [Hne Hns].
  assert (Hstrip : strip tok = tok) by now apply strip_no_space.
  split; [|exact Hstrip].
  assert (Hrep : detect_repetition self text = (true, Some tok)).
  { unfold detect_repetition. rewrite truthy_len.
    destruct (Z.ltb_spec 0 (len text)); [|lia].
    destruct (Z.ltb_spec (len text) 6); [lia|].
    cbn [negb orb]. rewrite split_strip, Hsplit, Hmin.
    destruct n as [|n]; [lia|]. rewrite set_repeat.
    unfold len at 1. rewrite repeat_length.
    destruct (Z.leb_spec 3 (Z.of_nat (S n))); [|lia].
    reflexivity. }
  unfold filter. rewrite He, truthy_len.
  destruct (Z.ltb_spec 0 (len text)); [|lia].
  cbn [negb orb]. rewrite Hpat, Hrep.
  destruct tok; [congruence|]. cbn [truthy]. now rewrite Hstrip.
Qed.

Lemma filter_repeated_token_witness :
  filter (init true 3 20) (utf8 "  hai hai  hai hai ")
  = (count_repetition (init true 3 20),
     (utf8 "hai", true, Some (utf8 "repetition:hai")))
  /\ strip (utf8 "hai") = utf8 "hai".
Proof.
  apply (filter_repeated_token (init true 3 20)
           (utf8 "  hai hai  hai hai ") (utf8 "hai") 4).
  - reflexivity.
  - reflexivity.
  - reflexivity.
  - lia.
  - vm_compute. discriminate.
  - vm_compute. reflexivity.
Defined.

(** C1 as stated fails on short texts and on boilerplate tokens: three
    copies of "a" make a text of five characters, which the length guard
    of [detect_repetition] lets through unchanged; three copies of
    "music" match a boilerplate pattern, so the output is empty and the
    reason is "pattern_match". *)
Lemma filter_repeated_token_not_reduced :
  (split (utf8 "a a a") = repeat (utf8 "a") 3
   /\ filter (init true 3 20) (utf8 "a a a")
      = (init true 3 20, (utf8 "a a a", false, None)))
  /\ (split (utf8 "music music music") = repeat (utf8 "music") 3
      /\ filter (init true 3 20) (utf8 "music music music")
         = (count_pattern (init true 3 20),
            ([], true, Some (utf8 "pattern_match")))).
Proof. split; split; vm_compute; reflexivity. Qed.

(** C7: in an enabled filter and on a non-empty text, a match of a
    boilerplate pattern decides the outcome before any repetition is
    looked for: the text returned is empty, was_filtered is true, the
    reason is "pattern_match", and total_filtered and pattern_filtered
    are incremented while repetition_filtered is not.  The patterns are
    compiled case-insensitively and are searched for: a pattern is
    detected when it matches from some position of the text, so "music"
    is found in any case inside any text. *)
Theorem filter_pattern_match_first :
  (forall (self : t) (text : str),
     enabled self = true -> text <> [] ->
     detect_pattern_hallucination self text = true ->
     filter self text
     = (count_pattern self, ([], true, Some (utf8 "pattern_match")))
     /\ total_filtered (stats (count_pattern self))
        = total_filtered (stats self) + 1
     /\ pattern_filtered (stats (count_pattern self))
        = pattern_filtered (stats self) + 1
     /\ repetition_filtered (stats (count_pattern self))
        = repetition_filtered (stats self))
  /\ (forall (self : t) (text : str),
        detect_pattern_hallucination self text = true <->
        text <> []
        /\ exists p pre rest,
             In p (_compiled_patterns self) /\ text = pre ++ rest
             /\ matches_at (IGNORECASE p) (source p)
                  (match pre with [] => true | _ => false end, rest) = true)
  /\ (forall e m l p,
        In p (_compiled_patterns (init e m l)) -> IGNORECASE p = true)
  /\ (forall e m l pre w post,
        map unicode_tolower w = utf8 "music" ->
        detect_pattern_hallucination (init e m l) (pre ++ w ++ post) = true)
  /\ detect_repetition (init true 3 20) (utf8 "Music Music Music")
     = (true, Some (utf8 "Music"))
  /\ filter (init true 3 20) (utf8 "Music Music Music")
     = (count_pattern (init true 3 20),
        ([], true, Some (utf8 "pattern_match"))).
Proof.
  split; [|split; [|split; [|split; [|split]]]].
  - intros self text He Hne Hpat. split; [|repeat split].
    unfold filter. rewrite He, Hpat.
    destruct text; [congruence | reflexivity].
  - intros self text. unfold detect_pattern_hallucination.
    destruct text as [|c r].
    + simpl. split; [discriminate | intros [H _]; congruence].
    + cbn [truthy negb]. rewrite first_search_exists. split.
      * intros (p & Hin & Hs). split; [discriminate|].
        apply search_from_spec in Hs. destruct Hs as (pre & rest & E & Hm).
        exists p, pre, rest. auto.
      * intros (_ & p & pre & rest & Hin & E & Hm).
        exists p. split; [assumption|].
        apply search_from_spec. exists pre, rest. auto.
  - intros e m l p Hin. unfold init in Hin. cbn [_compiled_patterns] in Hin.
    apply in_map_iff in Hin. destruct Hin as (r & <- & _). reflexivity.
  - intros e m l pre w post Hw. now apply detect_music.
  - vm_compute. reflexivity.
  - vm_compute. reflexivity.
Qed.

Lemma filter_pattern_match_first_witness :
  filter (init true 3 20) (utf8 "the MUSIC plays")
  = (count_pattern (init true 3 20), ([], true, Some (utf8 "pattern_match"))).
Proof.
  apply (proj1 filter_pattern_match_first (init true 3 20)
           (utf8 "the MUSIC plays")).
  - reflexivity.
  - vm_compute. discriminate.
  - apply (proj1 (proj2 (proj2 (proj2 filter_pattern_match_first)))
             true 3 20 (utf8 "the ") (utf8 "MUSIC") (utf8 " plays")).
    reflexivity.
Defined.

End RepetitionFacts.

(* ================================================================== *)
(** * The hotwords manager *)
(* ================================================================== *)

Section HotwordsFacts.
Import HotwordsManager.

Lemma contains_in (words : list str) (w : str) :
  contains words w = true <-> In w words.
Proof.
  unfold contains. rewrite existsb_exists. split.
  - intros (x & Hx & E). apply str_eqb_eq in E. now subst.
  - intros H. exists w. split; [assumption | apply str_eqb_refl].
Qed.

Lemma contains_not_in (words : list str) (w : str) :
  contains words w = false <-> ~ In w words.
Proof.
  rewrite <- contains_in. destruct (contains words w); split; congruence.
Qed.

(** The merging loop appends the fresh terms and leaves the list it
    starts from in front. *)
Lemma merge_fresh (new words : list str) :
  merge words new = words ++ Spec.fresh_terms words new.
Proof.
  revert words. induction new as [|w rest IH]; intros words; simpl.
  - now rewrite app_nil_r.
  - destruct (contains words w); simpl.
    + apply IH.
    + rewrite IH, <- app_assoc. reflexivity.
Qed.

Lemma fresh_terms_in (request seen : list str) (w : str) :
  In w (Spec.fresh_terms seen request) <-> In w request /\ ~ In w seen.
Proof.
  revert seen. induction request as [|x rest IH]; intros seen; simpl.
  - tauto.
  - destruct (contains seen x) eqn:E.
    + apply contains_in in E. rewrite IH. split.
      * tauto.
      * intros [[<-|H] Hn]; tauto.
    + apply contains_not_in in E. simpl. rewrite IH, in_app_iff. simpl.
      split.
      * intros [<-|[H Hn]]; tauto.
      * intros [[<-|H] Hn]; [now left|].
        destruct (str_eq_dec x w) as [<-|Hxw]; [now left | right; tauto].
Qed.

Lemma fresh_terms_nodup (request seen : list str) :
  NoDup (Spec.fresh_terms seen request).
Proof.
  revert seen. induction request as [|x rest IH]; intros seen; simpl.
  - constructor.
  - destruct (contains seen x) eqn:E; [apply IH|].
    constructor; [|apply IH].
    rewrite fresh_terms_in, in_app_iff. simpl. tauto.
Qed.

(** C5: [merge_with_request_hotwords] returns, joined with ", ", the
    slice [[:max_total]] of the registry's list followed by the request
    terms that are not in it (each once, in the order of the request);
    for a count [max_total >= 0] the slice is the first [max_total]
    entries.  On a registry ["A"; "B"], the request ["X"; "Y"] and
    max_total 3 it returns "A, B, X". *)
Theorem merge_with_request_hotwords_spec :
  (forall (self : t) (request : option (list str)) (max_total : Z),
     let fresh :=
       Spec.fresh_terms (hotwords self) (Spec.request_terms request) in
     merge_with_request_hotwords self request max_total
     = join (utf8 ", ") (slice_to (hotwords self ++ fresh) max_total)
     /\ (0 <= max_total ->
         slice_to (hotwords self ++ fresh) max_total
         = firstn (Z.to_nat max_total) (hotwords self ++ fresh))
     /\ (forall w, In w fresh <->
                   In w (Spec.request_terms request)
                   /\ ~ In w (hotwords self))
     /\ NoDup fresh)
  /\ merge_with_request_hotwords
       {| hotwords := [utf8 "A"; utf8 "B"]; _config_path := None |}
       (Some [utf8 "X"; utf8 "Y"]) 3
     = utf8 "A, B, X".
Proof.
  split; [|vm_compute; reflexivity].
  intros self request max_total fresh.
  split; [|split; [|split]].
  - unfold merge_with_request_hotwords.
    assert (E : match request with
                | Some (w :: ws) => merge (hotwords self) (w :: ws)
                | _ => hotwords self
                end = hotwords self ++ fresh).
    { unfold fresh. destruct request as [[|w ws]|].
      - simpl. now rewrite app_nil_r.
      - apply merge_fresh.
      - simpl. now rewrite app_nil_r. }
    rewrite E.
    destruct (slice_to (hotwords self ++ fresh) max_total); reflexivity.
  - intros Hmax. now apply slice_to_firstn.
  - apply fresh_terms_in.
  - apply fresh_terms_nodup.
Qed.

Lemma merge_with_request_hotwords_spec_witness :
  merge_with_request_hotwords
    {| hotwords := [utf8 "DAO"; utf8 "NFT"]; _config_path := None |}
    (Some [utf8 "NFT"; utf8 "Rocq"; utf8 "Rocq"; utf8 "Web3"]) 3
  = join (utf8 ", ")
      (firstn 3 ([utf8 "DAO"; utf8 "NFT"] ++ [utf8 "Rocq"; utf8 "Web3"])).
Proof.
  pose proof (proj1 merge_with_request_hotwords_spec
    {| hotwords := [utf8 "DAO"; utf8 "NFT"]; _config_path := None |}
    (Some [utf8 "NFT"; utf8 "Rocq"; utf8 "Rocq"; utf8 "Web3"]) 3)
    as (Hjoin & Hslice & _).
  rewrite Hjoin, Hslice; [reflexivity | lia].
Defined.

End HotwordsFacts.

(* ================================================================== *)
(** * The statistics *)
(* ================================================================== *)

Section StatsFacts.
Import TranscriptionStats.

Lemma record_all_counts (calls : list (float * bool * float)) (s : t) :
  total_requests (record_all s calls) = total_requests s + len calls
  /\ successful_requests (record_all s calls)
     = successful_requests s + successes calls
  /\ failed_requests (record_all s calls)
     = failed_requests s + (len calls - successes calls).
Proof.
  revert s. unfold record_all, successes.
  induction calls as [|[[pt ok] dur] rest IH]; intros s.
  - unfold len. simpl. lia.
  - cbn [fold_left]. destruct (IH (record s pt ok dur)) as (H1 & H2 & H3).
    rewrite H1, H2, H3. cbn [List.filter fst snd].
    destruct ok; unfold len; cbn [record total_requests successful_requests
      failed_requests List.length]; lia.
Qed.

(** C10: with no request recorded [success_rate] is 1.0, and not 0.0;
    otherwise it is successful_requests / total_requests, which after a
    non-empty series of records on fresh statistics is the number of
    successes over the number of records. *)
Theorem success_rate_spec :
  (forall s : t, total_requests s = 0 -> success_rate s = 1%float)
  /\ success_rate init = 1%float
  /\ 1%float <> 0%float
  /\ (forall s : t, total_requests s <> 0 ->
        success_rate s
        = PyFloat.int_truediv (successful_requests s) (total_requests s))
  /\ (forall calls : list (float * bool * float), calls <> [] ->
        let s := record_all init calls in
        total_requests s = len calls
        /\ total_requests s <> 0
        /\ success_rate s
           = PyFloat.int_truediv (successes calls) (len calls)).
Proof.
  split; [|split; [|split; [|split]]].
  - intros s H. unfold success_rate. now rewrite H.
  - reflexivity.
  - intros H. apply (f_equal (PrimFloat.eqb 1%float)) in H.
    vm_compute in H. discriminate.
  - intros s H. unfold success_rate.
    destruct (Z.eqb_spec (total_requests s) 0); [contradiction | reflexivity].
  - intros calls Hne s.
    destruct (record_all_counts calls init) as (H1 & H2 & _).
    fold s in H1, H2. cbn [init total_requests successful_requests] in H1, H2.
    assert (0 < len calls).
    { destruct calls; [congruence|]. unfold len. simpl. lia. }
    split; [lia|]. split; [lia|].
    unfold success_rate. rewrite H1, H2.
    destruct (Z.eqb_spec (0 + len calls) 0); [lia|].
    reflexivity.
Qed.

Lemma success_rate_spec_witness :
  success_rate (record_all init [(1%float, true, 0%float);
                                 (2%float, false, 0%float)])
  = 0.5%float.
Proof.
  refine (eq_trans
            (proj2 (proj2
               (proj2 (proj2 (proj2 (proj2 success_rate_spec)))
                  [(1%float, true, 0%float); (2%float, false, 0%float)] _)))
            _).
  - discriminate.
  - reflexivity.
Defined.

End StatsFacts.

(* ================================================================== *)
(** * The service *)
(* ================================================================== *)

Section ServiceFacts.
Import WhisperService.

(** ** Not ready *)

(** C9: when the provider of the configured kind was never initialized
    ([cloud_provider] is [None] for "groq" and "openai", [model] is
    [None] otherwise), [transcribe] raises the not-ready error at once:
    the service and the world are as before the call, so no backend was
    invoked, neither the one configured nor another, and nothing was
    recorded. *)
Theorem transcribe_not_ready (self : t) (w : World)
    (audio_path language : str) (filter_aizuchi : bool)
    (additional_hotwords : option (list str)) :
  (is_cloud self = true -> cloud_provider self = None ->
   transcribe self w audio_path language filter_aizuchi additional_hotwords
   = (Raise not_initialized, self, w))
  /\ (is_cloud self = false -> model self = None ->
      transcribe self w audio_path language filter_aizuchi
        additional_hotwords
      = (Raise not_loaded, self, w)).
Proof.
  split; intros Hk Hn; unfold transcribe; rewrite Hk.
  - unfold _transcribe_cloud. now rewrite Hn.
  - unfold _transcribe_local. now rewrite Hn.
Qed.

End ServiceFacts.

Section ServiceRun.
Import WhisperService.

(** ** The loop over the segments *)

Lemma kept_cons (f : AizuchiFilter.t) (fa : bool) (s : Segment)
    (rest : list Segment) :
  Spec.kept f fa (s :: rest)
  = if fa && AizuchiFilter.is_aizuchi f (strip (seg_text s))
    then Spec.kept f fa rest
    else s :: Spec.kept f fa rest.
Proof.
  unfold Spec.kept. cbn [List.filter].
  destruct (fa && AizuchiFilter.is_aizuchi f (strip (seg_text s)));
    reflexivity.
Qed.

Lemma collect_spec (self : t) (fa : bool) (segments : list Segment)
    (acc : Collected) :
  let kept := Spec.kept (aizuchi_filter self) fa segments in
  text_parts (collect self fa acc segments)
  = text_parts acc ++ map (fun s => strip (seg_text s)) kept
  /\ total_logprob (collect self fa acc segments)
     = fold_left PrimFloat.add (map avg_logprob kept) (total_logprob acc)
  /\ segment_count (collect self fa acc segments)
     = segment_count acc + len kept
  /\ filtered_count (collect self fa acc segments)
     = filtered_count acc + (len segments - len kept).
Proof.
  revert acc. induction segments as [|s rest IH]; intros acc.
  - cbn [collect Spec.kept List.filter map fold_left]. rewrite app_nil_r.
    unfold len. cbn [List.length]. repeat split; try reflexivity; lia.
  - cbn [collect]. cbv zeta in IH |- *.
    destruct (IH (collect_step self fa acc s)) as (H1 & H2 & H3 & H4).
    rewrite H1, H2, H3, H4. clear IH H1 H2 H3 H4.
    unfold collect_step. rewrite kept_cons.
    destruct (fa && AizuchiFilter.is_aizuchi (aizuchi_filter self)
                      (strip (seg_text s))) eqn:E;
      cbn [negb text_parts total_logprob segment_count filtered_count map
           fold_left]; unfold len; cbn [List.length].
    + repeat split; try reflexivity; lia.
    + rewrite <- app_assoc. repeat split; try reflexivity; lia.
Qed.

(** ** Confidence *)

Lemma ltb_leb (a b : float) :
  PrimFloat.ltb a b = true -> PrimFloat.leb a b = true.
Proof.
  rewrite FloatAxioms.ltb_spec, FloatAxioms.leb_spec.
  unfold SpecFloat.SFltb, SpecFloat.SFleb.
  destruct (SpecFloat.SFcompare (Prim2SF a) (Prim2SF b)) as [[]|];
    congruence.
Qed.

(** A clamped value lies between the bounds, whatever is clamped. *)
Lemma clamp_unit_interval (x : float) :
  PrimFloat.leb 0%float (Spec.clamp 0%float 1%float x) = true
  /\ PrimFloat.leb (Spec.clamp 0%float 1%float x) 1%float = true.
Proof.
  unfold Spec.clamp, PyFloat.min, PyFloat.max.
  destruct (PrimFloat.ltb 0%float x) eqn:E1.
  - destruct (PrimFloat.ltb x 1%float) eqn:E2.
    + split; now apply ltb_leb.
    + split; reflexivity.
  - change (PrimFloat.ltb 0%float 1%float) with true. split; reflexivity.
Qed.

Lemma confidence_of_clamp (x : float) :
  confidence_of x
  = Spec.clamp 0%float 1%float
      (PrimFloat.add 1%float (PrimFloat.div x 3%float)).
Proof. reflexivity. Qed.

(** C4: when the local decoder answers with segments, the confidence
    returned by [_transcribe_local] is clamp(0, 1, 1.0 + mean / 3), with
    [mean] the mean of [avg_logprob] over the segments that were kept,
    and 0.0 when none was kept; a mean of -3.0 gives 0.0, a mean of 0.0
    gives 1.0 and a mean of -1.5 gives 0.5; the value always lies in
    [0, 1]. *)
Theorem local_confidence_spec :
  (forall (self : t) (w : World) (audio_path language : str)
          (filter_aizuchi : bool) (additional_hotwords : option (list str))
          (m : LocalModel) (d : Decoding),
     model self = Some m ->
     decoder w (List.length (invocations w))
       (decode_request self audio_path language additional_hotwords)
     = Return d ->
     dec_failure d = None ->
     exists text processing_time self' w',
       _transcribe_local self w audio_path language filter_aizuchi
         additional_hotwords
       = (Return (text,
                  Spec.confidence
                    (Spec.kept (aizuchi_filter self) filter_aizuchi
                       (dec_segments d)),
                  processing_time),
          self', w'))
  /\ Spec.confidence [] = 0%float
  /\ (forall kept, kept <> [] ->
        (Spec.averageLogProbability kept = (-3)%float ->
         Spec.confidence kept = 0%float)
        /\ (Spec.averageLogProbability kept = 0%float ->
            Spec.confidence kept = 1%float)
        /\ (Spec.averageLogProbability kept = (-1.5)%float ->
            Spec.confidence kept = 0.5%float))
  /\ (forall kept,
        PrimFloat.leb 0%float (Spec.confidence kept) = true
        /\ PrimFloat.leb (Spec.confidence kept) 1%float = true).
Proof.
  split; [|split; [|split]].
  - intros self w audio_path language fa hot m d Hm Hd Hf.
    unfold _transcribe_local. rewrite Hm.
    unfold time, invoke_decoder, log.
    cbn [decoder invocations fst snd]. rewrite Hd, Hf.
    destruct (collect_spec self fa (dec_segments d) collect_start)
      as (_ & H2 & H3 & _).
    cbn [collect_start total_logprob segment_count] in H2, H3.
    rewrite H2, H3. clear H2 H3.
    destruct (HallucinationFilter.filter _ _) as [hf [[text b] r]].
    do 4 eexists. f_equal. f_equal. f_equal. f_equal.
    set (kept := Spec.kept (aizuchi_filter self) fa (dec_segments d)).
    destruct kept as [|s kept'] eqn:E; [reflexivity|].
    replace (0 <? 0 + len (s :: kept')) with true.
    2:{ symmetry. apply Z.ltb_lt. unfold len. cbn [List.length]. lia. }
    rewrite confidence_of_clamp. unfold Spec.confidence.
    unfold Spec.averageLogProbability. rewrite Z.add_0_l. reflexivity.
  - reflexivity.
  - intros kept Hne. destruct kept as [|s kept']; [congruence|].
    unfold Spec.confidence.
    repeat split; intros ->; vm_compute; reflexivity.
  - intros kept. destruct kept as [|s kept'].
    + split; reflexivity.
    + apply clamp_unit_interval.
Qed.

End ServiceRun.

Section ServiceFailures.
Import WhisperService.

(** ** Failures of the provider *)

(** The remote provider invokes its backend at most once per call. *)
Lemma cloud_transcribe_invocations (p p' : CloudProvider.t) (w w' : World)
    (audio_path language : str) (r : result (str * float * float)) :
  CloudProvider.transcribe p w audio_path language = (r, p', w') ->
  (List.length (invocations w') <= List.length (invocations w) + 1)%nat.
Proof.
  unfold CloudProvider.transcribe, CloudProvider._ensure_client.
  destruct (CloudProvider._client p).
  - unfold time, invoke_remote, log. cbn [fst snd remote invocations].
    destruct (remote w _ _); intros H; injection H as _ _ <-;
      cbn [invocations]; rewrite length_app; cbn; lia.
  - destruct (sdk w _ _) as [[]|].
    1-4: intros H; injection H as _ _ <-; lia.
    unfold time, invoke_remote, log. cbn [fst snd remote invocations].
    destruct (remote w _ _); intros H; injection H as _ _ <-;
      cbn [invocations]; rewrite length_app; cbn; lia.
Qed.

(** C8: an exception raised by the provider during a transcription, by
    the local decoder when it is called or while its segments are read,
    or by the remote provider, leaves exactly one more request in the
    statistics of the service, counted as failed, with the time elapsed
    since the start of the call added to the processing time; nothing
    else of the service changes; the same exception is raised to the
    caller; and the backend is invoked once at most. *)
Theorem provider_failure_recorded_and_reraised :
  (forall (self : t) (w : World) (audio_path language : str)
          (filter_aizuchi : bool) (additional_hotwords : option (list str))
          (m : LocalModel) (e : exn),
     is_cloud self = false ->
     model self = Some m ->
     let request :=
       decode_request self audio_path language additional_hotwords in
     let answer := decoder w (List.length (invocations w)) request in
     (answer = Raise e
      \/ exists d, answer = Return d /\ dec_failure d = Some e) ->
     let elapsed :=
       PrimFloat.sub (clock w (S (ticks w))) (clock w (ticks w)) in
     exists s' w',
       transcribe self w audio_path language filter_aizuchi
         additional_hotwords
       = (Raise e, s', w')
       /\ failure_recorded self s' elapsed
       /\ cloud_provider s' = cloud_provider self
       /\ invocations w' = invocations w ++ [Decode request]
       /\ ticks w' = S (S (ticks w)))
  /\ (forall (self : t) (w w1 : World) (audio_path language : str)
             (filter_aizuchi : bool)
             (additional_hotwords : option (list str))
             (p p' : CloudProvider.t) (e : exn),
        is_cloud self = true ->
        cloud_provider self = Some p ->
        CloudProvider.transcribe p (snd (time w)) audio_path language
        = (Raise e, p', w1) ->
        let elapsed :=
          PrimFloat.sub (clock w1 (ticks w1)) (clock w (ticks w)) in
        exists s',
          transcribe self w audio_path language filter_aizuchi
            additional_hotwords
          = (Raise e, s', snd (time w1))
          /\ failure_recorded self s' elapsed
          /\ cloud_provider s' = Some p'
          /\ (List.length (invocations (snd (time w1)))
              <= List.length (invocations w) + 1)%nat).
Proof.
  split.
  - intros self w audio_path language fa hot m e Hk Hm request answer Hraise
      elapsed.
    unfold transcribe. rewrite Hk. unfold _transcribe_local. rewrite Hm.
    unfold time, invoke_decoder, log. cbn [decoder invocations fst snd].
    fold request. fold answer.
    destruct Hraise as [-> | (d & -> & ->)];
      unfold record_failure, time; cbn [clock ticks];
      do 2 eexists; (split; [reflexivity|]);
      unfold failure_recorded;
      cbn [set_stats stats TranscriptionStats.record
           TranscriptionStats.total_requests
           TranscriptionStats.failed_requests
           TranscriptionStats.successful_requests
           TranscriptionStats.total_processing_time
           TranscriptionStats.total_audio_seconds
           config model cloud_provider load_time _device _compute_type
           _provider_type aizuchi_filter hallucination_filter
           hotwords_manager invocations ticks];
      (split; [repeat (split; [reflexivity|]); reflexivity|]);
      repeat (split; [reflexivity|]); reflexivity.
  - intros self w w1 audio_path language fa hot p p' e Hk Hp Hraise elapsed.
    eexists. split; [|split; [|split]].
    + unfold transcribe. rewrite Hk. unfold _transcribe_cloud. rewrite Hp.
      rewrite (surjective_pairing (time w)). rewrite Hraise.
      unfold record_failure.
      rewrite (surjective_pairing (time w1)). reflexivity.
    + unfold failure_recorded, elapsed, time.
      cbn [set_stats set_cloud_provider stats TranscriptionStats.record
           TranscriptionStats.total_requests
           TranscriptionStats.failed_requests
           TranscriptionStats.successful_requests
           TranscriptionStats.total_processing_time
           TranscriptionStats.total_audio_seconds
           config model cloud_provider load_time _device _compute_type
           _provider_type aizuchi_filter hallucination_filter
           hotwords_manager fst snd].
      repeat (split; [reflexivity|]). reflexivity.
    + reflexivity.
    + apply cloud_transcribe_invocations in Hraise.
      unfold time in *. cbn [snd invocations] in *. exact Hraise.
Qed.

End ServiceFailures.

Section ServiceInvariant.
Import WhisperService.

(** ** The filters of the service *)

Lemma is_aizuchi_disabled (f : AizuchiFilter.t) (text : str) :
  AizuchiFilter.enabled f = false -> AizuchiFilter.is_aizuchi f text = false.
Proof. intros H. unfold AizuchiFilter.is_aizuchi. now rewrite H. Qed.

Lemma filter_disabled (f : HallucinationFilter.t) (text : str) :
  HallucinationFilter.enabled f = false ->
  HallucinationFilter.filter f text = (f, (text, false, None)).
Proof. intros H. unfold HallucinationFilter.filter. now rewrite H. Qed.

Lemma kept_disabled (f : AizuchiFilter.t) (fa : bool)
    (segments : list Segment) :
  AizuchiFilter.enabled f = false -> Spec.kept f fa segments = segments.
Proof.
  intros H. induction segments as [|s rest IH]; [reflexivity|].
  rewrite kept_cons, is_aizuchi_disabled, andb_false_r by assumption.
  now rewrite IH.
Qed.

Lemma init_filters_off (env : HotwordsManager.Env) (config : WhisperConfig) :
  filters_off (init env config).
Proof. split; reflexivity. Qed.

Lemma load_model_filters (self : t) (w : World) :
  filters_off self -> filters_off (snd (fst (load_model self w))).
Proof.
  intros H. unfold load_model, time.
  destruct (str_eqb (_provider_type self) (utf8 "local")).
  - destruct (import_decoder _); [exact H|].
    destruct (Device.resolve_device_and_compute_type _ _ _) as [d c].
    destruct (load_decoder _ _ _ _); exact H.
  - destruct (is_cloud self); [|exact H].
    destruct (CloudProvider.create_provider _ _ _ _ _) as [[p|]|e];
      try exact H.
    destruct (CloudProvider.is_ready p _) as [[] p']; exact H.
Qed.

Lemma transcribe_filters (self : t) (w : World) (audio_path language : str)
    (fa : bool) (hot : option (list str)) :
  filters_off self ->
  filters_off
    (snd (fst (transcribe self w audio_path language fa hot))).
Proof.
  intros H. pose proof H as [Ha Hh]. unfold transcribe.
  destruct (is_cloud self).
  - unfold _transcribe_cloud. destruct (cloud_provider self) as [p|];
      [|exact H].
    read_clock.
    destruct (CloudProvider.transcribe p _ _ _) as [[[[[text c] pt]|e] p'] w'].
    + cbn [set_cloud_provider hallucination_filter].
      rewrite filter_disabled by assumption. exact H.
    + enter_except. exact H.
  - unfold _transcribe_local. destruct (model self); [|exact H].
    rewrite (surjective_pairing (time w)).
    rewrite (surjective_pairing (invoke_decoder _ _)).
    destruct (fst (invoke_decoder _ _)) as [d|e].
    + destruct (dec_failure d).
      * enter_except. exact H.
      * rewrite filter_disabled by assumption. read_clock. exact H.
    + enter_except. exact H.
Qed.

Lemma is_ready_filters (self : t) (w : World) :
  filters_off self -> filters_off (snd (is_ready self w)).
Proof.
  intros H. unfold is_ready. destruct (is_cloud self); [|exact H].
  destruct (cloud_provider self) as [p|]; [|exact H].
  destruct (CloudProvider.is_ready p w); exact H.
Qed.

Lemma step_filters (sw : t * World) (o : op) :
  filters_off (fst sw) -> filters_off (fst (step sw o)).
Proof.
  destruct sw as [self w]. cbn [fst]. intros H. destruct o; cbn [step].
  - pose proof (load_model_filters self w H) as H'.
    destruct (load_model self w) as [[r s] w']. exact H'.
  - pose proof (transcribe_filters self w audio_path language
                  filter_aizuchi additional_hotwords H) as H'.
    destruct (transcribe _ _ _ _ _ _) as [[r s] w']. exact H'.
  - apply is_ready_filters. exact H.
  - apply is_ready_filters. exact H.
Qed.

Lemma run_filters (ops : list op) (sw : t * World) :
  filters_off (fst sw) -> filters_off (fst (run ops sw)).
Proof.
  revert sw. unfold run. induction ops as [|o ops IH]; intros sw H.
  - exact H.
  - cbn [fold_left]. apply IH. now apply step_filters.
Qed.

Lemma collect_disabled (self : t) (segments : list Segment)
    (acc : Collected) :
  AizuchiFilter.enabled (aizuchi_filter self) = false ->
  collect self true acc segments = collect self false acc segments.
Proof.
  intros H. revert acc. induction segments as [|s rest IH]; intros acc.
  - reflexivity.
  - cbn [collect].
    replace (collect_step self true acc s) with (collect_step self false acc s);
      [apply IH|].
    unfold collect_step. now rewrite is_aizuchi_disabled.
Qed.

Lemma transcribe_ignores_flag (self : t) (w : World)
    (audio_path language : str) (hot : option (list str)) :
  AizuchiFilter.enabled (aizuchi_filter self) = false ->
  transcribe self w audio_path language true hot
  = transcribe self w audio_path language false hot.
Proof.
  intros H. unfold transcribe. destruct (is_cloud self); [reflexivity|].
  unfold _transcribe_local. destruct (model self); [|reflexivity].
  rewrite (surjective_pairing (time w)).
  rewrite (surjective_pairing (invoke_decoder _ _)).
  destruct (fst (invoke_decoder _ _)) as [d|e]; [|reflexivity].
  destruct (dec_failure d); [reflexivity|].
  now rewrite collect_disabled.
Qed.

(** C3: the constructor of the service builds both filters disabled, and
    no operation of the service enables them: after any sequence of
    operations, [is_aizuchi] is false on every fragment, so that no
    segment is dropped whatever [filter_aizuchi] is ([transcribe] does
    the same with and without it), and the hallucination filter returns
    every text as it is, with was_filtered false. *)
Theorem service_filters_stay_disabled (env : HotwordsManager.Env)
    (config : WhisperConfig) (w : World) (ops : list op) :
  let s := fst (run ops (init env config, w)) in
  AizuchiFilter.enabled (aizuchi_filter s) = false
  /\ HallucinationFilter.enabled (hallucination_filter s) = false
  /\ (forall text,
        AizuchiFilter.is_aizuchi (aizuchi_filter s) text = false)
  /\ (forall text,
        HallucinationFilter.filter (hallucination_filter s) text
        = (hallucination_filter s, (text, false, None)))
  /\ (forall filter_aizuchi segments,
        let acc := collect s filter_aizuchi collect_start segments in
        text_parts acc = map (fun x => strip (seg_text x)) segments
        /\ segment_count acc = len segments
        /\ filtered_count acc = 0)
  /\ (forall w' audio_path language additional_hotwords,
        transcribe s w' audio_path language true additional_hotwords
        = transcribe s w' audio_path language false additional_hotwords).
Proof.
  intros s.
  assert (H : filters_off s).
  { apply run_filters. apply init_filters_off. }
  destruct H as [Ha Hh].
  split; [exact Ha|]. split; [exact Hh|].
  split; [intros text; now apply is_aizuchi_disabled|].
  split; [intros text; now apply filter_disabled|].
  split; [|intros; now apply transcribe_ignores_flag].
  intros fa segments acc.
  destruct (collect_spec s fa segments collect_start) as (H1 & _ & H3 & H4).
  fold acc in H1, H3, H4.
  rewrite kept_disabled in H1, H3, H4 by assumption.
  cbn [collect_start text_parts segment_count filtered_count] in H1, H3, H4.
  split; [exact H1|]. split; lia.
Qed.

End ServiceInvariant.

(* ================================================================== *)
(** * Worked instances on the sample service *)
(* ================================================================== *)

Section Instances.
Import WhisperService.

Lemma transcribe_not_ready_witness :
  (let s := set_model (init Sample.env
                         (Sample.with_provider default_config "groq" None))
              (utf8 "cpu") (utf8 "int8") Sample.local_model in
   let w := Sample.world (Return Sample.decoding) (Return (utf8 "hello")) in
   transcribe s w (utf8 "a.wav") (utf8 "ja") true None
   = (Raise not_initialized, s, w))
  /\ (let s := init Sample.env default_config in
      let w := Sample.world (Return Sample.decoding)
                 (Return (utf8 "hello")) in
      transcribe s w (utf8 "a.wav") (utf8 "ja") true None
      = (Raise not_loaded, s, w)).
Proof.
  split; cbv zeta.
  - apply (proj1 (transcribe_not_ready _ _ _ _ _ _)); reflexivity.
  - apply (proj2 (transcribe_not_ready _ _ _ _ _ _)); reflexivity.
Defined.

Lemma local_confidence_spec_witness :
  let sw := Sample.loaded default_config
              (Sample.world (Return Sample.decoding)
                 (Return (utf8 "hello"))) in
  exists text processing_time self' w',
    _transcribe_local (fst sw) (snd sw) (utf8 "a.wav") (utf8 "ja") true None
    = (Return (text, 0.5%float, processing_time), self', w').
Proof.
  cbv zeta.
  refine (proj1 local_confidence_spec _ _ (utf8 "a.wav") (utf8 "ja") true
            None Sample.local_model Sample.decoding _ _ _);
    vm_compute; reflexivity.
Defined.

Lemma provider_failure_recorded_and_reraised_witness :
  (let sw := Sample.loaded default_config
               (Sample.world (Raise Sample.test_error)
                  (Return (utf8 "hello"))) in
   exists s' w',
     transcribe (fst sw) (snd sw) (utf8 "a.wav") (utf8 "ja") true None
     = (Raise Sample.test_error, s', w')
     /\ TranscriptionStats.total_requests (stats s') = 1
     /\ TranscriptionStats.failed_requests (stats s') = 1
     /\ TranscriptionStats.successful_requests (stats s') = 0
     /\ TranscriptionStats.total_processing_time (stats s') = 1%float
     /\ invocations w'
        = [Decode (decode_request (fst sw) (utf8 "a.wav") (utf8 "ja") None)])
  /\ (let sw := Sample.loaded
                  (Sample.with_provider default_config "groq"
                     (Some (utf8 "key")))
                  (Sample.world (Return Sample.decoding)
                     (Raise Sample.test_error)) in
      exists s' w',
        transcribe (fst sw) (snd sw) (utf8 "a.wav") (utf8 "ja") true None
        = (Raise Sample.test_error, s', w')
        /\ TranscriptionStats.total_requests (stats s') = 1
        /\ TranscriptionStats.failed_requests (stats s') = 1
        /\ TranscriptionStats.successful_requests (stats s') = 0).
Proof.
  split; cbv zeta.
  - destruct (proj1 provider_failure_recorded_and_reraised
                (fst (Sample.loaded default_config
                        (Sample.world (Raise Sample.test_error)
                           (Return (utf8 "hello")))))
                (snd (Sample.loaded default_config
                        (Sample.world (Raise Sample.test_error)
                           (Return (utf8 "hello")))))
                (utf8 "a.wav") (utf8 "ja") true None Sample.local_model
                Sample.test_error eq_refl eq_refl (or_introl eq_refl))
      as (s' & w' & E & (H1 & H2 & H3 & H4 & _) & _ & Hi & _).
    exists s', w'. split; [exact E|].
    split; [exact H1|]. split; [exact H2|]. split; [exact H3|].
    split; [exact H4 | exact Hi].
  - pose (S := fst (Sample.loaded
                      (Sample.with_provider default_config "groq"
                         (Some (utf8 "key")))
                      (Sample.world (Return Sample.decoding)
                         (Raise Sample.test_error)))).
    pose (W := snd (Sample.loaded
                      (Sample.with_provider default_config "groq"
                         (Some (utf8 "key")))
                      (Sample.world (Return Sample.decoding)
                         (Raise Sample.test_error)))).
    pose (P := {| CloudProvider.kind := Groq;
                  CloudProvider.api_key := utf8 "key";
                  CloudProvider.model := groq_model default_config;
                  CloudProvider._client := true;
                  CloudProvider._ready := true |}).
    pose (out := CloudProvider.transcribe P (snd (time W)) (utf8 "a.wav")
                   (utf8 "ja")).
    destruct (proj2 provider_failure_recorded_and_reraised
                S W (snd out) (utf8 "a.wav") (utf8 "ja") true None
                P (snd (fst out)) Sample.test_error)
      as (s' & E & (H1 & H2 & H3 & _) & _).
    + reflexivity.
    + vm_compute. reflexivity.
    + vm_compute. reflexivity.
    + exists s'. eexists. split; [exact E|].
      split; [exact H1|]. split; [exact H2 | exact H3].
Defined.

End Instances.

(* ================================================================== *)
(** * Further properties of the string operations *)
(* ================================================================== *)

Section MoreStringFacts.

(** Checking a property of every character by computation. *)
Lemma Forall_check {A : Type} (f : A -> bool) (l : list A) :
  forallb f l = true -> Forall (fun c => f c = true) l.
Proof. intros H. apply Forall_forall. now apply forallb_forall. Qed.

Lemma all_space_check (ws : str) : forallb isspace ws = true -> all_space ws.
Proof. apply Forall_check. Qed.

Lemma lstrip_length (s : str) : (List.length (lstrip s) <= List.length s)%nat.
Proof.
  induction s as [|c r IH]; simpl; [lia|].
  destruct (isspace c); simpl; lia.
Qed.

Lemma rstrip_length (s : str) : (List.length (rstrip s) <= List.length s)%nat.
Proof.
  induction s as [|c r IH]; simpl; [lia|].
  destruct (rstrip r); [destruct (isspace c)|]; simpl in *; lia.
Qed.

Lemma len_strip (s : str) : len (strip s) <= len s.
Proof.
  unfold len, strip.
  pose proof (rstrip_length (lstrip s)). pose proof (lstrip_length s). lia.
Qed.

(** A string starts clean when it is empty or begins with a character
    that is not whitespace. *)
Lemma lstrip_clean (s : str) :
  match lstrip s with [] => True | c :: _ => isspace c = false end.
Proof.
  induction s as [|c r IH]; simpl; [exact I|].
  destruct (isspace c) eqn:E; [exact IH | exact E].
Qed.

Lemma rstrip_head (c : char) (r : str) :
  isspace c = false -> exists r', rstrip (c :: r) = c :: r'.
Proof.
  intros H. simpl. destruct (rstrip r) as [|d r'].
  - rewrite H. now exists [].
  - now exists (d :: r').
Qed.

Lemma strip_clean (s : str) :
  match strip s with [] => True | c :: _ => isspace c = false end.
Proof.
  unfold strip. pose proof (lstrip_clean s) as H.
  destruct (lstrip s) as [|c r]; [exact I|].
  destruct (rstrip_head c r H) as (r' & ->). exact H.
Qed.

Lemma rstrip_clean (s : str) :
  match rev (rstrip s) with [] => True | c :: _ => isspace c = false end.
Proof.
  induction s as [|c r IH]; [exact I|]. simpl rstrip.
  destruct (rstrip r) as [|d r'].
  - destruct (isspace c) eqn:E; [exact I | exact E].
  - change (rev (c :: d :: r')) with (rev (d :: r') ++ [c]).
    destruct (rev (d :: r')) as [|x l] eqn:Er; [|exact IH].
    apply (f_equal (@List.length _)) in Er. rewrite length_rev in Er.
    discriminate.
Qed.

Lemma rstrip_idem (s : str) : rstrip (rstrip s) = rstrip s.
Proof.
  induction s as [|c r IH]; [reflexivity|].
  simpl. destruct (rstrip r) as [|d r'] eqn:E.
  - destruct (isspace c) eqn:Ec; [reflexivity|]. simpl. now rewrite Ec.
  - simpl in IH |- *. now rewrite IH.
Qed.

(** Trimming twice is trimming once. *)
Lemma strip_idem (s : str) : strip (strip s) = strip s.
Proof.
  pose proof (strip_clean s) as H. unfold strip at 1.
  destruct (strip s) as [|c r] eqn:E; [reflexivity|].
  simpl lstrip. rewrite H. rewrite <- E. unfold strip. apply rstrip_idem.
Qed.

(** The first word of a split is a prefix of the text, when the text
    does not begin with whitespace. *)
Lemma split_acc_first (s cur w : str) (ws : list str) :
  (cur <> [] \/ match s with [] => True | c :: _ => isspace c = false end) ->
  split_acc cur s = w :: ws ->
  exists rest, cur ++ s = w ++ rest.
Proof.
  revert cur. induction s as [|c r IH]; intros cur Hstart Hsplit.
  - simpl in Hsplit. destruct cur; [discriminate|].
    injection Hsplit as <- _. now exists [].
  - simpl in Hsplit. destruct (isspace c) eqn:Ec.
    + destruct cur as [|d cur'].
      * destruct Hstart as [H|H]; congruence.
      * injection Hsplit as <- _. now exists (c :: r).
    + apply IH in Hsplit.
      * destruct Hsplit as (rest & E). exists rest.
        now rewrite <- E, <- app_assoc.
      * left. now destruct cur.
Qed.

Lemma split_first_prefix (s w : str) (ws : list str) :
  split (strip s) = w :: ws -> exists rest, strip s = w ++ rest.
Proof.
  intros H. apply (split_acc_first (strip s) [] w ws); [|exact H].
  right. apply strip_clean.
Qed.

End MoreStringFacts.

(* ================================================================== *)
(** * The hotwords manager: its operations *)
(* ================================================================== *)

Section HotwordsOperations.
Import HotwordsManager.

Lemma merge_in (words new : list str) (w : str) :
  In w (merge words new) <-> In w words \/ In w new.
Proof.
  rewrite merge_fresh, in_app_iff, fresh_terms_in.
  destruct (in_dec str_eq_dec w words); tauto.
Qed.

Lemma merge_nodup (words new : list str) :
  NoDup words -> NoDup (merge words new).
Proof.
  intros H. rewrite merge_fresh.
  apply NoDup_app; [assumption | apply fresh_terms_nodup |].
  intros a Ha Hf. apply fresh_terms_in in Hf. tauto.
Qed.

Lemma set_hotwords_same (self : t) : set_hotwords self (hotwords self) = self.
Proof. now destruct self. Qed.

Lemma add_merge (self : t) (word : str) :
  hotwords (fst (add self word)) = merge (hotwords self) [word].
Proof.
  unfold add. simpl. destruct (contains (hotwords self) word); reflexivity.
Qed.

Lemma add_many_loop_spec (words : list str) (self : t) (added : Z) :
  let fresh := Spec.fresh_terms (hotwords self) words in
  add_many_loop self words added
  = (set_hotwords self (hotwords self ++ fresh), added + len fresh).
Proof.
  revert self added. induction words as [|w rest IH]; intros self added.
  - cbn. rewrite app_nil_r, set_hotwords_same. unfold len. cbn.
    now rewrite Z.add_0_r.
  - cbn [add_many_loop Spec.fresh_terms]. unfold add.
    destruct (contains (hotwords self) w) eqn:E; cbn [negb].
    + apply IH.
    + cbv zeta in IH. rewrite IH. cbn [set_hotwords hotwords _config_path].
      rewrite <- app_assoc. f_equal. unfold len. cbn [List.length app]. lia.
Qed.

Lemma remove_first_not_in (words : list str) (w : str) :
  NoDup words -> ~ In w (remove_first words w).
Proof.
  induction 1 as [|x l Hx Hl IH]; simpl; [tauto|].
  destruct (str_eqb x w) eqn:E.
  - apply str_eqb_eq in E. now subst.
  - intros [->|H]; [now rewrite str_eqb_refl in E | tauto].
Qed.

Lemma remove_first_incl (words : list str) (w x : str) :
  In x (remove_first words w) -> In x words.
Proof.
  induction words as [|y l IH]; simpl; [tauto|].
  destruct (str_eqb y w); simpl; tauto.
Qed.

Lemma remove_first_nodup (words : list str) (w : str) :
  NoDup words -> NoDup (remove_first words w).
Proof.
  induction 1 as [|x l Hx Hl IH]; simpl; [constructor|].
  destruct (str_eqb x w); [assumption|].
  constructor; [|assumption]. intros H. apply Hx.
  now apply remove_first_incl in H.
Qed.

Lemma remove_first_last (words : list str) (w : str) :
  ~ In w words -> remove_first (words ++ [w]) w = words.
Proof.
  induction words as [|x l IH]; simpl; intros H.
  - now rewrite str_eqb_refl.
  - destruct (str_eqb x w) eqn:E.
    + apply str_eqb_eq in E. tauto.
    + f_equal. apply IH. tauto.
Qed.

Lemma step_nodup (self : t) (o : op) :
  NoDup (hotwords self) -> NoDup (hotwords (step self o)).
Proof.
  intros H. destruct o; cbn [step].
  - rewrite add_merge. now apply merge_nodup.
  - unfold add_many. rewrite add_many_loop_spec. cbn [fst set_hotwords hotwords].
    rewrite <- merge_fresh. now apply merge_nodup.
  - unfold remove. destruct (contains (hotwords self) word); [|assumption].
    cbn. now apply remove_first_nodup.
  - constructor.
  - unfold load_from_file.
    destruct (read_file env path) as [[|[new|]]|]; try assumption.
    cbn. now apply merge_nodup.
  - unfold load_from_env.
    destruct (getenv env env_var) as [[|c value]|]; try assumption.
    cbn. now apply merge_nodup.
Qed.

(** X1: a manager built without an initial list holds no word twice,
    and no operation (add, add_many, remove, clear, load_from_file,
    load_from_env) introduces a duplicate into a list that has none. *)
Theorem hotwords_stay_distinct :
  (forall (env : Env) (config_path : option str),
     NoDup (hotwords (init env config_path None)))
  /\ (forall (ops : list op) (self : t),
        NoDup (hotwords self) -> NoDup (hotwords (run ops self))).
Proof.
  split.
  - intros env config_path. unfold init.
    destruct config_path as [[|c path]|]; try constructor.
    destruct (read_file env (c :: path)) eqn:E; [|constructor].
    apply (step_nodup _ (LoadFromFile env (c :: path))). constructor.
  - intros ops. unfold run. induction ops as [|o ops IH]; intros self H.
    + exact H.
    + cbn [fold_left]. apply IH. now apply step_nodup.
Qed.

Lemma hotwords_stay_distinct_witness :
  NoDup (hotwords
           (run [Add (utf8 "DAO"); AddMany [utf8 "NFT"; utf8 "DAO"];
                 Remove (utf8 "NFT"); Add (utf8 "NFT")]
              {| hotwords := [utf8 "Web3"]; _config_path := None |})).
Proof.
  apply (proj2 hotwords_stay_distinct).
  cbn. constructor; [intros [] | constructor].
Defined.

(** X2: [add_many] appends to the list, in their order, the given words
    that are new and not repeated earlier among them, and returns how
    many it appended; the list grows by exactly that number, which lies
    between 0 and the number of words given. *)
Theorem add_many_appends_fresh (self : t) (words : list str) :
  let fresh := Spec.fresh_terms (hotwords self) words in
  hotwords (fst (add_many self words)) = hotwords self ++ fresh
  /\ _config_path (fst (add_many self words)) = _config_path self
  /\ snd (add_many self words) = len fresh
  /\ len (hotwords (fst (add_many self words)))
     = len (hotwords self) + snd (add_many self words)
  /\ 0 <= snd (add_many self words) <= len words
  /\ (forall w, In w (hotwords (fst (add_many self words))) <->
                In w (hotwords self) \/ In w words).
Proof.
  intros fresh. unfold add_many. rewrite add_many_loop_spec.
  cbn [fst snd set_hotwords hotwords _config_path]. fold fresh.
  assert (Hle : forall seen ws,
            (List.length (Spec.fresh_terms seen ws) <= List.length ws)%nat).
  { intros seen ws. revert seen. induction ws as [|x r IH]; intros seen;
      simpl; [lia|].
    destruct (contains seen x); simpl; [specialize (IH seen)
                                       | specialize (IH (seen ++ [x]))]; lia. }
  specialize (Hle (hotwords self) words). fold fresh in Hle.
  split; [reflexivity|]. split; [reflexivity|]. split; [lia|].
  split; [rewrite len_app; lia|].
  split; [unfold len; lia|].
  intros w. unfold fresh. rewrite <- merge_fresh. apply merge_in.
Qed.

(** X3: looking up, adding and removing.  A word just added is in the
    list; removing a word that was added to a list without it gives
    back the manager as it was; and after [remove] a word is no longer
    in a list that held it at most once. *)
Theorem add_remove_round_trip (self : t) (word : str) :
  contains (hotwords (fst (add self word))) word = true
  /\ (contains (hotwords self) word = false ->
      add self word = (set_hotwords self (hotwords self ++ [word]), true)
      /\ remove (fst (add self word)) word = (self, true))
  /\ (contains (hotwords self) word = true -> add self word = (self, false))
  /\ (contains (hotwords self) word = false ->
      remove self word = (self, false))
  /\ (NoDup (hotwords self) ->
      contains (hotwords (fst (remove self word))) word = false).
Proof.
  split; [|split; [|split; [|split]]].
  - unfold add. destruct (contains (hotwords self) word) eqn:E; cbn; [exact E|].
    apply contains_in. apply in_app_iff. right. now left.
  - intros E. unfold add. rewrite E. cbn [negb fst]. split; [reflexivity|].
    unfold remove. cbn [set_hotwords hotwords].
    assert (H : contains (hotwords self ++ [word]) word = true).
    { apply contains_in. apply in_app_iff. right. now left. }
    rewrite H. rewrite remove_first_last by now apply contains_not_in.
    unfold set_hotwords. cbn [hotwords _config_path]. now destruct self.
  - intros E. unfold add. now rewrite E.
  - intros E. unfold remove. now rewrite E.
  - intros H. unfold remove.
    destruct (contains (hotwords self) word) eqn:E; cbn; [|exact E].
    apply contains_not_in. now apply remove_first_not_in.
Qed.

Lemma add_remove_round_trip_witness :
  remove (fst (add {| hotwords := [utf8 "DAO"]; _config_path := None |}
                 (utf8 "NFT")))
    (utf8 "NFT")
  = ({| hotwords := [utf8 "DAO"]; _config_path := None |}, true).
Proof.
  apply (proj2 (proj1 (proj2 (add_remove_round_trip
           {| hotwords := [utf8 "DAO"]; _config_path := None |}
           (utf8 "NFT"))) eq_refl)).
Defined.

(** X4: the prompt that [merge_with_request_hotwords] builds for a
    request is the prompt [get_prompt] would give after adding the
    request's words to the manager, for every bound. *)
Theorem merge_is_prompt_after_add (self : t) (request : option (list str))
    (max_total : Z) :
  merge_with_request_hotwords self request max_total
  = get_prompt (fst (add_many self (Spec.request_terms request))) max_total.
Proof.
  unfold merge_with_request_hotwords, get_prompt, add_many.
  rewrite add_many_loop_spec. cbn [fst set_hotwords hotwords].
  rewrite <- merge_fresh.
  assert (E : match request with
              | Some (w :: ws) => merge (hotwords self) (w :: ws)
              | _ => hotwords self
              end = merge (hotwords self) (Spec.request_terms request)).
  { destruct request as [[|w ws]|]; reflexivity. }
  rewrite E.
  destruct (merge (hotwords self) (Spec.request_terms request)) as [|x l].
  - unfold slice_to. destruct (max_total <? 0); now rewrite firstn_nil.
  - cbn [truthy negb].
    destruct (slice_to (x :: l) max_total); reflexivity.
Qed.

End HotwordsOperations.

Section HotwordsLoading.
Import HotwordsManager.

Lemma split_on_acc_no_sep (sep : char) (s cur f : str) :
  ~ In sep cur -> In f (split_on_acc sep cur s) -> ~ In sep f.
Proof.
  revert cur. induction s as [|c r IH]; intros cur Hcur; simpl.
  - intros [<-|[]]. exact Hcur.
  - destruct (char_eqb c sep) eqn:E.
    + intros [<-|H]; [exact Hcur|]. apply (IH []); auto.
    + apply IH. rewrite in_app_iff. intros [H|[->|[]]]; [auto|].
      unfold char_eqb in E. rewrite N.eqb_refl in E. discriminate.
Qed.

Lemma lstrip_incl (s : str) (c : char) : In c (lstrip s) -> In c s.
Proof.
  induction s as [|d r IH]; [auto|]. simpl.
  destruct (isspace d); [right; auto | auto].
Qed.

Lemma rstrip_incl (s : str) (c : char) : In c (rstrip s) -> In c s.
Proof.
  induction s as [|d r IH]; [auto|]. simpl.
  destruct (rstrip r) as [|e r'].
  - destruct (isspace d); [intros [] | intros [->|[]]; now left].
  - intros [->|H]; [now left | right; auto].
Qed.

(** The items read from a comma-separated value. *)
Lemma comma_separated_items (value w : str) :
  In w (comma_separated value) ->
  w <> [] /\ strip w = w /\ ~ In (ch ",") w.
Proof.
  unfold comma_separated. rewrite filter_In, in_map_iff.
  intros ((f & <- & Hf) & Ht). split; [|split].
  - intros E. rewrite E in Ht. discriminate.
  - apply strip_idem.
  - intros H. apply rstrip_incl, lstrip_incl in H.
    revert H. apply (split_on_acc_no_sep (ch ",") value [] f); auto.
Qed.

(** X22: [load_from_env] appends the items of the comma-separated
    variable that the list does not hold yet.  Every word it appends is
    trimmed, not empty, free of commas and new, and none is appended
    twice; every item of the variable is in the list afterwards; an
    unset or empty variable changes nothing. *)
Theorem load_from_env_words (env : Env) (self : t) (env_var : str) :
  let self' := load_from_env env self env_var in
  (exists fresh,
     hotwords self' = hotwords self ++ fresh
     /\ NoDup fresh
     /\ forall w, In w fresh ->
          w <> [] /\ strip w = w /\ ~ In (ch ",") w
          /\ ~ In w (hotwords self))
  /\ _config_path self' = _config_path self
  /\ (getenv env env_var = None \/ getenv env env_var = Some [] ->
      self' = self)
  /\ (forall value w,
        getenv env env_var = Some value ->
        In w (comma_separated value) -> In w (hotwords self')).
Proof.
  cbv zeta. unfold load_from_env.
  destruct (getenv env env_var) as [[|c value]|].
  - split; [exists []; rewrite app_nil_r;
            split; [reflexivity | split; [constructor | intros w []]]|].
    split; [reflexivity|]. split; [reflexivity|].
    intros value w E. injection E as <-. intros [].
  - cbn [hotwords _config_path set_hotwords]. rewrite merge_fresh.
    split; [|split; [reflexivity|split]].
    + eexists. split; [reflexivity|]. split; [apply fresh_terms_nodup|].
      intros w Hw. apply fresh_terms_in in Hw. destruct Hw as [Hw Hn].
      destruct (comma_separated_items _ _ Hw) as (H1 & H2 & H3). auto.
    + intros [E|E]; discriminate.
    + intros v w E Hw. injection E as <-. rewrite in_app_iff.
      destruct (in_dec str_eq_dec w (hotwords self)) as [Hi|Hn];
        [now left | right].
      apply fresh_terms_in. auto.
  - split; [exists []; rewrite app_nil_r;
            split; [reflexivity | split; [constructor | intros w []]]|].
    split; [reflexivity|]. split; [reflexivity|].
    intros value w E. discriminate.
Qed.

Lemma load_from_env_words_witness :
  let env := {| read_file := fun _ => None;
                getenv := fun _ => Some (utf8 " DAO, NFT ,,DAO,") |} in
  let self := fst (add (init env None None) (utf8 "NFT")) in
  hotwords (load_from_env env self (utf8 "WHISPER_HOTWORDS"))
  = [utf8 "NFT"; utf8 "DAO"]
  /\ In (utf8 "DAO")
       (hotwords (load_from_env env self (utf8 "WHISPER_HOTWORDS"))).
Proof.
  cbv zeta. split; [vm_compute; reflexivity|].
  apply (proj2 (proj2 (proj2
           (load_from_env_words
              {| read_file := fun _ => None;
                 getenv := fun _ => Some (utf8 " DAO, NFT ,,DAO,") |}
              (fst (add (init {| read_file := fun _ => None;
                                 getenv := fun _ => Some (utf8 " DAO, NFT ,,DAO,") |}
                           None None) (utf8 "NFT")))
              (utf8 "WHISPER_HOTWORDS"))))
         (utf8 " DAO, NFT ,,DAO,") (utf8 "DAO")).
  - reflexivity.
  - vm_compute. left. reflexivity.
Defined.

End HotwordsLoading.

(* ================================================================== *)
(** * The filler-word filter: whitespace, punctuation, segments *)
(* ================================================================== *)

Section AizuchiMore.
Import AizuchiFilter.

Lemma lstrip_all_space (ws s : str) :
  all_space ws -> lstrip (ws ++ s) = lstrip s.
Proof.
  induction 1 as [|c r Hc Hr IH]; [reflexivity|]. simpl. now rewrite Hc.
Qed.

Lemma rstrip_all_space (ws : str) : all_space ws -> rstrip ws = [].
Proof.
  induction 1 as [|c r Hc Hr IH]; [reflexivity|]. simpl. now rewrite IH, Hc.
Qed.

Lemma rstrip_app_space (s ws : str) :
  all_space ws -> rstrip (s ++ ws) = rstrip s.
Proof.
  intros H. induction s as [|c r IH]; simpl.
  - now apply rstrip_all_space.
  - now rewrite IH.
Qed.

Lemma strip_app_space (s ws : str) :
  all_space ws -> strip (s ++ ws) = strip s.
Proof.
  intros H. unfold strip. induction s as [|c r IH]; simpl.
  - rewrite <- (app_nil_r ws), lstrip_all_space by assumption. reflexivity.
  - destruct (isspace c); [exact IH|].
    change (c :: r ++ ws) with ((c :: r) ++ ws).
    now apply rstrip_app_space.
Qed.

(** Whitespace around a text does not change what it is trimmed to. *)
Lemma strip_surrounded (ws1 s ws2 : str) :
  all_space ws1 -> all_space ws2 -> strip (ws1 ++ s ++ ws2) = strip s.
Proof.
  intros H1 H2. unfold strip at 1. rewrite lstrip_all_space by assumption.
  fold (strip (s ++ ws2)). now apply strip_app_space.
Qed.

(** X5: the classification of a fragment depends on its trimmed text
    only: whitespace before and after it never changes the answer of
    [is_aizuchi], nor does it count towards the length cap. *)
Theorem is_aizuchi_ignores_surrounding_space (self : t)
    (ws1 text ws2 : str) :
  all_space ws1 -> all_space ws2 ->
  is_aizuchi self (ws1 ++ text ++ ws2) = is_aizuchi self text
  /\ is_aizuchi self (strip text) = is_aizuchi self text.
Proof.
  intros H1 H2. unfold is_aizuchi.
  now rewrite strip_surrounded, strip_idem by assumption.
Qed.

Lemma is_aizuchi_ignores_surrounding_space_witness :
  is_aizuchi (init None 15 true)
    (utf8 "                 はい。 ")
  = is_aizuchi (init None 15 true) (utf8 "はい。").
Proof.
  refine (proj1 (is_aizuchi_ignores_surrounding_space (init None 15 true)
                   (utf8 "                 ") (utf8 "はい。") (utf8 " ")
                   _ _)).
  - apply all_space_check. vm_compute. reflexivity.
  - apply all_space_check. vm_compute. reflexivity.
Defined.

(** ** A run of characters under a star *)

Lemma star_ends_run (step : pos -> list pos) (ok : char -> bool) :
  (forall b c r, ok c = true -> step (b, c :: r) = [(false, r)]) ->
  forall (run rest : str) (b : bool) (fuel : nat),
    Forall (fun c => ok c = true) run ->
    (List.length run <= fuel)%nat ->
    In (match run with [] => b | _ => false end, rest)
       (star_ends step fuel (b, run ++ rest)).
Proof.
  intros Hstep run rest. induction run as [|c run IH]; intros b fuel Hrun Hfuel.
  - apply star_ends_head.
  - destruct fuel as [|fuel]; [simpl in Hfuel; lia|].
    inversion Hrun as [|c' run' Hc Hrun']; subst.
    cbn [star_ends app]. right.
    rewrite (Hstep b c (run ++ rest) Hc). cbn [flat_map snd].
    replace (List.length (run ++ rest) <? List.length (c :: run ++ rest))%nat
      with true by (symmetry; apply Nat.ltb_lt; simpl; lia).
    rewrite app_nil_r.
    specialize (IH false fuel Hrun' ltac:(simpl in Hfuel; lia)).
    destruct run; exact IH.
Qed.

Lemma chr_match_refl (ic : bool) (c : char) : chr_match ic c c = true.
Proof. unfold chr_match, char_eqb. now rewrite N.eqb_refl. Qed.

Lemma ends_lits_self (ic : bool) (w rest : str) (b : bool) :
  w <> [] -> In (false, rest) (ends ic (lits w) (b, w ++ rest)).
Proof.
  intros H. apply ends_lits; [assumption|].
  clear H. induction w; constructor; [apply chr_match_refl | assumption].
Qed.

Lemma ends_punct (run : str) (b : bool) :
  Forall (fun c => is_punct c = true) run ->
  In (match run with [] => b | _ => false end, [])
     (ends false punct (b, run)).
Proof.
  intros H. unfold punct. cbn [ends snd].
  rewrite <- (app_nil_r run) at 2 3.
  apply (star_ends_run _ is_punct); [|assumption|rewrite app_nil_r; lia].
  intros b' c r Hc. cbn [ends cls one snd].
  replace (existsb (fun i => item_match false i c) (map Chr (utf8 "。．、")))
    with true; [reflexivity|].
  symmetry. unfold is_punct in Hc. apply existsb_exists in Hc.
  destruct Hc as (x & Hx & E). apply N.eqb_eq in E. subst x.
  apply existsb_exists. exists (Chr c). split.
  - now apply in_map.
  - apply chr_match_refl.
Qed.

(** A word followed by punctuation matches the pattern of that word. *)
Lemma pmatch_word_punct (w run : str) :
  w <> [] -> Forall (fun c => is_punct c = true) run ->
  pmatch (compile (cat [Bol; lits w; punct; Eol]) false) (w ++ run) = true.
Proof.
  intros Hw Hrun. unfold pmatch. cbn [IGNORECASE source cat].
  apply matches_at_in
    with (q := (match run with [] => false | _ => false end, [])).
  cbn [ends fst flat_map]. rewrite app_nil_r.
  apply in_flat_map. exists (false, run). split.
  - now apply ends_lits_self.
  - apply in_flat_map.
    exists (match run with [] => false | _ => false end, []). split.
    + now apply ends_punct.
    + cbn. now left.
Qed.

Lemma is_punct_not_space (c : char) : is_punct c = true -> isspace c = false.
Proof.
  unfold is_punct. intros H. apply existsb_exists in H.
  destruct H as (x & Hx & E). apply N.eqb_eq in E. subst x.
  cbn in Hx. destruct Hx as [<-|[<-|[<-|[]]]]; reflexivity.
Qed.

Lemma plain_filler_pattern (w : str) :
  In w plain_fillers ->
  w <> [] /\ no_space w
  /\ In (cat [Bol; lits w; punct; Eol]) DEFAULT_PATTERNS.
Proof.
  unfold plain_fillers. cbn [map In]. intros H.
  repeat (destruct H as [<-|H];
          [split; [discriminate|]; split;
           [repeat constructor | cbn; auto 40]|]).
  destruct H.
Qed.

(** X6: with the default patterns, each plain filler word ("うん",
    "はい", "ええ", ..., "(笑)") followed by any number of the marks 。．、
    is a filler, provided the filter is enabled and the fragment is not
    longer than [max_length]; surrounding whitespace does not matter. *)
Theorem plain_fillers_with_punctuation (max_length : Z) (w run ws1 ws2 : str) :
  In w plain_fillers ->
  Forall (fun c => is_punct c = true) run ->
  len (w ++ run) <= max_length ->
  all_space ws1 -> all_space ws2 ->
  is_aizuchi (init None max_length true) (ws1 ++ (w ++ run) ++ ws2) = true.
Proof.
  intros Hw Hrun Hlen H1 H2.
  destruct (plain_filler_pattern w Hw) as (Hne & Hns & Hin).
  assert (Hclean : no_space (w ++ run)).
  { apply Forall_app. split; [assumption|].
    eapply Forall_impl; [|exact Hrun]. apply is_punct_not_space. }
  unfold is_aizuchi. cbn [init enabled AizuchiFilter.max_length negb].
  rewrite strip_surrounded by assumption.
  rewrite strip_no_space by assumption.
  destruct (Z.ltb_spec max_length (len (w ++ run))); [lia|].
  replace (len (w ++ run) =? 0) with false.
  2:{ symmetry. apply Z.eqb_neq. destruct w; [congruence|].
      unfold len. simpl. lia. }
  apply first_match_exists.
  exists (compile (cat [Bol; lits w; punct; Eol]) false). split.
  - cbn [_compiled init].
    apply (in_map (fun p => compile p false)) in Hin. exact Hin.
  - now apply pmatch_word_punct.
Qed.

Lemma plain_fillers_with_punctuation_witness :
  is_aizuchi (init None 15 true) (utf8 " そうですね。。、 ") = true.
Proof.
  refine (plain_fillers_with_punctuation 15 (utf8 "そうですね") (utf8 "。。、")
            (utf8 " ") (utf8 " ") _ _ _ _ _).
  - cbn. auto 20.
  - repeat constructor.
  - vm_compute. discriminate.
  - apply all_space_check. vm_compute. reflexivity.
  - apply all_space_check. vm_compute. reflexivity.
Defined.







End AizuchiMore.

(* ================================================================== *)
(** * The hallucination filter: outcomes and counters *)
(* ================================================================== *)

Section HallucinationMore.
Import HallucinationFilter.

Lemma scan_phrases_shape (self : t) (text : str) (l : list Z) :
  scan_phrases self text l = (false, None)
  \/ exists p, scan_phrases self text l = (true, Some p).
Proof.
  induction l as [|k l IH]; simpl; [now left|].
  destruct (phrase_repeats self text (slice_to text k)); [|exact IH].
  right. eauto.
Qed.

(** What [detect_repetition] reports: nothing, or a non-empty prefix of
    the trimmed text that trimming does not empty. *)
Lemma detect_repetition_cases (self : t) (text : str) :
  detect_repetition self text = (false, None)
  \/ exists p rest,
       detect_repetition self text = (true, Some p)
       /\ strip text = p ++ rest /\ p <> [] /\ strip p <> []
       /\ 6 <= len text.
Proof.
  unfold detect_repetition.
  destruct (negb (truthy text) || (len text <? 6)) eqn:Eguard; [now left|].
  apply orb_false_iff in Eguard. destruct Eguard as [_ Hlen].
  apply Z.ltb_ge in Hlen.
  set (t := strip text).
  assert (Hclean : forall p rest, t = p ++ rest -> p <> [] -> strip p <> []).
  { intros p rest E Hp. pose proof (strip_clean text) as Hc. fold t in Hc.
    rewrite E in Hc. destruct p as [|c p']; [congruence|]. cbn [app] in Hc.
    unfold strip. rewrite lstrip_no_space by assumption.
    destruct (rstrip_head c p' Hc) as (r' & ->). discriminate. }
  destruct ((min_repetition_count self <=? len (split t))
            && (len (set (split t)) =? 1)) eqn:Ewhole.
  - right. apply andb_true_iff in Ewhole. destruct Ewhole as [_ Hone].
    destruct (split t) as [|w ws] eqn:Esplit; [discriminate|].
    destruct (split_first_prefix text w ws Esplit) as (rest & E).
    fold t in E. pose proof (split_words t) as Hw. rewrite Esplit in Hw.
    inversion Hw as [|? ? [Hne Hns] _]; subst.
    exists w, rest. cbn [nth]. repeat split; try assumption.
    now apply (Hclean w rest).
  - set (b := Z.min (max_repetition_length self + 1) (len t / 2 + 1)).
    destruct (scan_phrases_shape self t (range 2 b)) as [->|(p & Hp)];
      [now left|].
    right. rewrite Hp.
    apply (scan_phrases_found self t p b (Z.to_nat (b - 2)) 2 eq_refl) in Hp.
    destruct Hp as (k & Hk & -> & _ & _).
    assert (Hkt : 2 <= k <= len t).
    { pose proof (half_le_len t). unfold b in Hk. lia. }
    rewrite slice_to_firstn by lia.
    exists (firstn (Z.to_nat k) t), (skipn (Z.to_nat k) t).
    assert (Hne : firstn (Z.to_nat k) t <> []).
    { intros E. apply (f_equal len) in E. rewrite len_firstn in E by lia.
      unfold len in E. simpl in E. lia. }
    repeat split; try assumption.
    + symmetry. apply firstn_skipn.
    + apply (Hclean _ (skipn (Z.to_nat k) t)); [|assumption].
      symmetry. apply firstn_skipn.
Qed.

Lemma filter_cases (self : t) (text : str) :
  filter_case self text (filter self text).
Proof.
  unfold filter.
  destruct (enabled self) eqn:He; [|constructor].
  destruct text as [|c text']; [constructor|]. cbn [truthy negb orb].
  destruct (detect_pattern_hallucination self (c :: text')) eqn:Hp.
  - now constructor.
  - destruct (detect_repetition_cases self (c :: text'))
      as [->|(p & rest & -> & E & Hne & Hs & Hlen)]; [constructor|].
    destruct p as [|d p']; [congruence|]. cbn [truthy].
    now apply Repetition with (rest := rest).
Qed.

(** X8: what [filter] can return.  Either the text comes back as it is
    (was_filtered false, no reason, counters untouched); or a pattern
    matched (empty text, reason "pattern_match"); or a repetition was
    found, and then the text returned is never empty: it is the trimmed
    repeated phrase, a prefix of the trimmed input, and the reason is
    "repetition:" followed by the phrase.  The reason "repetition" alone
    is never returned. *)
Theorem filter_outcome_shape (self : t) (text : str) :
  let '(self', (out, was_filtered, reason)) := filter self text in
  (was_filtered = false -> out = text /\ reason = None /\ self' = self)
  /\ (was_filtered = true ->
      (out = [] /\ reason = Some (utf8 "pattern_match")
       /\ self' = count_pattern self)
      \/ (out <> [] /\ self' = count_repetition self
          /\ exists p rest,
               strip text = p ++ rest /\ out = strip p
               /\ reason = Some (utf8 "repetition:" ++ p)))
  /\ reason <> Some (utf8 "repetition")
  /\ (text = [] -> was_filtered = false)
  /\ (enabled self = false -> was_filtered = false).
Proof.
  destruct (filter_cases self text)
    as [|He Hne Hp|p rest He Hlen Hp E Hpne Hs].
  - repeat split; try discriminate; auto.
  - split; [discriminate|]. split; [intros _; left; auto|].
    split; [discriminate|]. split; [congruence | congruence].
  - split; [discriminate|]. split.
    + intros _. right. split; [assumption|]. split; [reflexivity|].
      exists p, rest. auto.
    + split.
      * intros H.
        assert (Hl : List.length (utf8 "repetition:" ++ p)
                     = List.length (utf8 "repetition")) by congruence.
        rewrite length_app in Hl.
        change (List.length (utf8 "repetition:")) with 11%nat in Hl.
        change (List.length (utf8 "repetition")) with 10%nat in Hl. lia.
      * split; [|congruence]. intros ->. unfold len in Hlen. simpl in Hlen. lia.
Qed.

Lemma filter_outcome_shape_witness :
  let f := init true 3 50 in
  let text := utf8 "ありがとう ありがとう ありがとう ありがとう" in
  snd (fst (snd (filter f text))) = true
  /\ fst (fst (snd (filter f text))) <> [].
Proof.
  cbv zeta. split; [vm_compute; reflexivity|].
  pose proof (filter_outcome_shape (init true 3 50)
                (utf8 "ありがとう ありがとう ありがとう ありがとう")) as H.
  destruct (filter (init true 3 50)
              (utf8 "ありがとう ありがとう ありがとう ありがとう"))
    as [s [[out b] r]] eqn:E.
  cbn [fst snd].
  assert (Hb : b = true).
  { apply (f_equal (fun x => snd (fst (snd x)))) in E. cbn [fst snd] in E.
    rewrite <- E. vm_compute. reflexivity. }
  destruct H as (_ & H & _).
  destruct (H Hb) as [(Ho & Hr & _)|(Ho & _)]; [|exact Ho].
  exfalso.
  apply (f_equal (fun x => snd (snd x))) in E. cbn [fst snd] in E.
  rewrite Hr in E. vm_compute in E. discriminate.
Defined.


(** X9: [filter] never returns a text longer than the one it was
    given. *)
Theorem filter_never_lengthens (self : t) (text : str) :
  len (fst (fst (snd (filter self text)))) <= len text.
Proof.
  destruct (filter_cases self text)
    as [|He Hne Hp|p rest He Hlen Hp E Hpne Hs]; cbn [fst snd].
  - lia.
  - apply len_nonneg.
  - pose proof (len_strip p). pose proof (len_strip text).
    rewrite E, len_app in *. pose proof (len_nonneg rest). lia.
Qed.

(** The number of outcomes that report a filtered text. *)
Lemma filter_counts (self : t) (text : str) :
  let self' := fst (filter self text) in
  let n := if snd (fst (snd (filter self text))) then 1 else 0 in
  enabled self' = enabled self
  /\ min_repetition_count self' = min_repetition_count self
  /\ max_repetition_length self' = max_repetition_length self
  /\ _compiled_patterns self' = _compiled_patterns self
  /\ total_filtered (stats self') = total_filtered (stats self) + n
  /\ repetition_filtered (stats self') + pattern_filtered (stats self')
     = repetition_filtered (stats self) + pattern_filtered (stats self) + n
  /\ repetition_filtered (stats self) <= repetition_filtered (stats self')
  /\ pattern_filtered (stats self) <= pattern_filtered (stats self').
Proof.
  destruct (filter_cases self text) as [| |]; cbn; repeat split; lia.
Qed.

(** X10: over any series of calls, [filter] changes nothing of a filter
    but its counters; total_filtered grows by the number of texts
    reported as filtered, and so does the sum of repetition_filtered and
    pattern_filtered: on a filter built by the constructor,
    total_filtered = repetition_filtered + pattern_filtered always
    holds, and it is the number of filtered texts so far. *)
Theorem filter_counters_add_up :
  (forall (texts : list str) (self : t),
     let self' := fst (filter_all self texts) in
     let outcomes := snd (filter_all self texts) in
     let n := len (List.filter (fun o => snd (fst o)) outcomes) in
     List.length outcomes = List.length texts
     /\ enabled self' = enabled self
     /\ min_repetition_count self' = min_repetition_count self
     /\ max_repetition_length self' = max_repetition_length self
     /\ _compiled_patterns self' = _compiled_patterns self
     /\ total_filtered (stats self') = total_filtered (stats self) + n
     /\ repetition_filtered (stats self') + pattern_filtered (stats self')
        = repetition_filtered (stats self) + pattern_filtered (stats self)
          + n)
  /\ (forall (texts : list str) (e : bool) (m l : Z),
        let self' := fst (filter_all (init e m l) texts) in
        total_filtered (stats self')
        = repetition_filtered (stats self') + pattern_filtered (stats self')
        /\ 0 <= repetition_filtered (stats self')
        /\ 0 <= pattern_filtered (stats self')
        /\ total_filtered (stats self') <= len texts).
Proof.
  assert (Hall : forall (texts : list str) (self : t),
     let self' := fst (filter_all self texts) in
     let outcomes := snd (filter_all self texts) in
     let n := len (List.filter (fun o => snd (fst o)) outcomes) in
     List.length outcomes = List.length texts
     /\ enabled self' = enabled self
     /\ min_repetition_count self' = min_repetition_count self
     /\ max_repetition_length self' = max_repetition_length self
     /\ _compiled_patterns self' = _compiled_patterns self
     /\ total_filtered (stats self') = total_filtered (stats self) + n
     /\ repetition_filtered (stats self') + pattern_filtered (stats self')
        = repetition_filtered (stats self) + pattern_filtered (stats self)
          + n
     /\ repetition_filtered (stats self) <= repetition_filtered (stats self')
     /\ pattern_filtered (stats self) <= pattern_filtered (stats self')
     /\ n <= len texts).
  { induction texts as [|text rest IH]; intros self.
    - cbn. unfold len. cbn. repeat split; lia.
    - cbn [filter_all].
      pose proof (filter_counts self text) as Hone. cbv zeta in Hone.
      destruct (filter self text) as [s1 o] eqn:E1. cbn [fst snd] in Hone.
      specialize (IH s1). cbv zeta in IH.
      destruct (filter_all s1 rest) as [s2 os] eqn:E2. cbn [fst snd] in IH |- *.
      destruct Hone as (A1 & A2 & A3 & A4 & A5 & A6 & A7 & A8).
      destruct IH as (B0 & B1 & B2 & B3 & B4 & B5 & B6 & B7 & B8 & B9).
      cbn [List.filter List.length].
      destruct (snd (fst o)); unfold len in *; cbn [List.length] in *;
        repeat split; try congruence; try lia. }
  split.
  - intros texts self. cbv zeta.
    destruct (Hall texts self) as (B0 & B1 & B2 & B3 & B4 & B5 & B6 & _).
    repeat split; assumption.
  - intros texts e m l. cbv zeta.
    destruct (Hall texts (init e m l))
      as (_ & _ & _ & _ & _ & B5 & B6 & B7 & B8 & B9).
    cbn [init stats total_filtered repetition_filtered pattern_filtered]
      in B5, B6, B7, B8.
    repeat split; lia.
Qed.

(** ** Texts that are always boilerplate *)

Lemma filter_on_pattern (self : t) (text : str) :
  enabled self = true -> text <> [] ->
  detect_pattern_hallucination self text = true ->
  filter self text
  = (count_pattern self, ([], true, Some (utf8 "pattern_match"))).
Proof.
  intros He Hne Hp. unfold filter. rewrite He, Hp.
  destruct text; [congruence | reflexivity].
Qed.

Lemma search_at_start (pat : Pattern) (s : str) :
  matches_at (IGNORECASE pat) (source pat) (true, s) = true ->
  search pat s = true.
Proof.
  intros H. unfold search. destruct s; simpl; rewrite H; reflexivity.
Qed.

Lemma In_singleton_eq {A : Type} (x : A) (l : list A) : l = [x] -> In x l.
Proof. intros ->. now left. Qed.

(** A text made of characters that an atom accepts matches [^atom+$]. *)
Lemma only_atoms_match (ic : bool) (a : regex) (ok : char -> bool)
    (text : str) :
  (forall b c r, ok c = true -> ends ic a (b, c :: r) = [(false, r)]) ->
  text <> [] -> Forall (fun c => ok c = true) text ->
  matches_at ic (cat [Bol; Plus a; Eol]) (true, text) = true.
Proof.
  intros Hstep Hne Hall. destruct text as [|c run]; [congruence|].
  inversion Hall as [|? ? Hc Hrun]; subst.
  apply matches_at_in
    with (q := (match run with [] => false | _ => false end, [])).
  cbn [cat ends fst flat_map]. rewrite app_nil_r.
  apply in_flat_map.
  exists (match run with [] => false | _ => false end, []). split.
  - apply in_flat_map. exists (false, run). split.
    + apply In_singleton_eq. now apply Hstep.
    + cbn [snd].
      pose proof (star_ends_run (ends ic a) ok Hstep run [] false
                    (List.length run) Hrun (le_n _)) as H.
      rewrite app_nil_r in H. exact H.
  - cbn. now left.
Qed.

(** A single character with whitespace around it matches
    [^\s*c\s*$]. *)
Lemma lone_char_match (ic : bool) (c : char) (ws1 ws2 : str) :
  all_space ws1 -> all_space ws2 ->
  matches_at ic
    (cat [Bol; Star (Cls [Space]); Lit c; Star (Cls [Space]); Eol])
    (true, ws1 ++ [c] ++ ws2) = true.
Proof.
  intros H1 H2.
  assert (Hstep : forall b d r, isspace d = true ->
            ends ic (Cls [Space]) (b, d :: r) = [(false, r)]).
  { intros b d r Hd. cbn. now rewrite Hd. }
  apply matches_at_in
    with (q := (match ws2 with [] => false | _ => false end, [])).
  cbn [cat ends fst flat_map]. rewrite app_nil_r.
  apply in_flat_map.
  exists (match ws1 with [] => true | _ => false end, [c] ++ ws2). split.
  - cbn [snd].
    apply (star_ends_run (ends ic (Cls [Space])) isspace Hstep ws1
             ([c] ++ ws2) true); [assumption|].
    rewrite length_app. lia.
  - apply in_flat_map. exists (false, ws2). split.
    + cbn. rewrite chr_match_refl. now left.
    + apply in_flat_map.
      exists (match ws2 with [] => false | _ => false end, []). split.
      * cbn [ends snd].
        pose proof (star_ends_run (ends ic (Cls [Space])) isspace Hstep ws2
                      [] false (List.length ws2) H2 (le_n _)) as H.
        rewrite app_nil_r in H. exact H.
      * cbn. now left.
Qed.

(** X11: an enabled filter with the built-in patterns always removes,
    with reason "pattern_match", a non-empty text made only of
    whitespace, only of dots or only of commas, and the lone particles
    "お" and "ん" with any whitespace around them. *)
Theorem noise_only_text_is_removed (m l : Z) (text : str) :
  text <> [] ->
  (all_space text
   \/ Forall (fun c => c = ch ".") text
   \/ Forall (fun c => c = ch ",") text
   \/ exists ws1 ws2, all_space ws1 /\ all_space ws2
        /\ (text = ws1 ++ utf8 "お" ++ ws2
            \/ text = ws1 ++ utf8 "ん" ++ ws2)) ->
  filter (init true m l) text
  = (count_pattern (init true m l),
     ([], true, Some (utf8 "pattern_match"))).
Proof.
  intros Hne Hkind.
  apply filter_on_pattern; [reflexivity | assumption |].
  unfold detect_pattern_hallucination.
  destruct text as [|c0 r0] eqn:Et; [congruence|]. cbn [truthy negb].
  rewrite <- Et in *. clear Et.
  apply first_search_exists.
  destruct Hkind as [H|[H|[H|(ws1 & ws2 & H1 & H2 & H)]]].
  - exists (compile (cat [Bol; Plus (Cls [Space; Chr 0x3000%N]); Eol]) true).
    split; [cbn; auto 20|].
    apply search_at_start. cbn [IGNORECASE source].
    apply (only_atoms_match _ _ isspace); [|assumption|assumption].
    intros b c r Hc. cbn. now rewrite Hc.
  - exists (compile (cat [Bol; Plus (Lit (ch ".")); Eol]) true).
    split; [cbn; auto 20|].
    apply search_at_start. cbn [IGNORECASE source].
    apply (only_atoms_match _ _ (fun c => char_eqb c (ch ".")));
      [|assumption|].
    + intros b c r Hc. apply N.eqb_eq in Hc. subst c. reflexivity.
    + eapply Forall_impl; [|exact H]. intros a ->. reflexivity.
  - exists (compile (cat [Bol; Plus (Lit (ch ",")); Eol]) true).
    split; [cbn; auto 20|].
    apply search_at_start. cbn [IGNORECASE source].
    apply (only_atoms_match _ _ (fun c => char_eqb c (ch ",")));
      [|assumption|].
    + intros b c r Hc. apply N.eqb_eq in Hc. subst c. reflexivity.
    + eapply Forall_impl; [|exact H]. intros a ->. reflexivity.
  - destruct H as [->| ->].
    + exists (compile (cat [Bol; Star (Cls [Space]); lits (utf8 "お");
                            Star (Cls [Space]); Eol]) true).
      split; [cbn; auto 20|].
      apply search_at_start. cbn [IGNORECASE source].
      now apply lone_char_match.
    + exists (compile (cat [Bol; Star (Cls [Space]); lits (utf8 "ん");
                            Star (Cls [Space]); Eol]) true).
      split; [cbn; auto 20|].
      apply search_at_start. cbn [IGNORECASE source].
      now apply lone_char_match.
Qed.

Lemma noise_only_text_is_removed_witness :
  filter (init true 3 20) (utf8 "..........")
  = (count_pattern (init true 3 20),
     ([], true, Some (utf8 "pattern_match"))).
Proof.
  apply (noise_only_text_is_removed 3 20 (utf8 "..........")).
  - vm_compute. discriminate.
  - right. left. vm_compute. repeat constructor.
Defined.

End HallucinationMore.

(* ================================================================== *)
(** * The remote providers and the device *)
(* ================================================================== *)

Section ProviderFacts.
Import CloudProvider.

Lemma ensure_client_cases (p : t) (w : World) :
  (exists p', _ensure_client p w = (Return tt, p')
              /\ _client p' = true /\ kind p' = kind p
              /\ api_key p' = api_key p /\ model p' = model p
              /\ (_client p = true -> p' = p)
              /\ (_client p = false -> _ready p' = true))
  \/ (exists e, _ensure_client p w = (Raise e, p) /\ _client p = false).
Proof.
  unfold _ensure_client. destruct (_client p) eqn:Ec.
  - left. exists p. repeat split; auto. discriminate.
  - destruct (sdk w (kind p) (api_key p)) as [e|].
    + right. destruct e; eauto.
    + left. eexists. repeat split; auto. discriminate.
Qed.

Lemma cloud_transcribe_trimmed (p p' : t) (w w' : World)
    (audio_path language text : str) (c pt : float) :
  transcribe p w audio_path language = (Return (text, c, pt), p', w') ->
  strip text = text.
Proof.
  unfold transcribe.
  destruct (_ensure_client p w) as [[[]|e] p1]; [|discriminate].
  unfold time, invoke_remote, log. cbn [fst snd remote invocations].
  destruct (remote w _ _) as [raw|e]; [|discriminate].
  intros H. injection H as <- _ _ _ _. apply strip_idem.
Qed.

Lemma cloud_transcribe_keeps_client (p p' : t) (w w' : World)
    (audio_path language : str) (r : result (str * float * float)) :
  transcribe p w audio_path language = (r, p', w') ->
  _client p = true -> p' = p.
Proof.
  unfold transcribe, _ensure_client. intros H Hc. rewrite Hc in H.
  unfold time, invoke_remote, log in H.
  cbn [fst snd remote invocations] in H.
  destruct (remote w _ _); now injection H as _ <- _.
Qed.

(** X12: what a remote provider returns.  When [transcribe] returns,
    the text is trimmed, the confidence is 0.0 for an empty text and the
    provider's fixed value (0.90 for Groq, 0.92 for OpenAI) otherwise,
    the processing time is the difference of the two clock readings
    around the call of the API, the API was called exactly once, and the
    provider keeps its client. *)
Theorem cloud_transcribe_result (p p' : t) (w w' : World)
    (audio_path language text : str) (confidence processing_time : float) :
  transcribe p w audio_path language
  = (Return (text, confidence, processing_time), p', w') ->
  strip text = text
  /\ (text = [] -> confidence = 0%float)
  /\ (text <> [] -> confidence = assumed_confidence (kind p))
  /\ processing_time
     = PrimFloat.sub (clock w (S (ticks w))) (clock w (ticks w))
  /\ ticks w' = S (S (ticks w))
  /\ invocations w'
     = invocations w
       ++ [Remote {| rr_kind := kind p; rr_audio_path := audio_path;
                     rr_model := model p; rr_language := language |}]
  /\ _client p' = true.
Proof.
  unfold transcribe.
  destruct (ensure_client_cases p w)
    as [(p1 & -> & Hc & Hk & Ha & Hm & _)|(e & -> & _)]; [|discriminate].
  unfold time, invoke_remote, log. cbn [fst snd remote invocations].
  rewrite Hk, Hm.
  destruct (remote w _ _) as [raw|e]; [|discriminate].
  intros H. injection H as <- <- <- <- <-. cbn [clock ticks invocations].
  split; [apply strip_idem|].
  split; [intros ->; reflexivity|].
  split; [|auto].
  intros Hne. destruct (strip raw); [congruence | reflexivity].
Qed.

Lemma cloud_transcribe_result_witness :
  strip (utf8 "hello") = utf8 "hello".
Proof.
  refine (proj1 (cloud_transcribe_result (init Groq (utf8 "key") (utf8 "m"))
            _ (Sample.world (Return Sample.decoding) (Return (utf8 " hello ")))
            _ (utf8 "a.wav") (utf8 "ja") (utf8 "hello") _ _ _)).
  vm_compute. reflexivity.
Defined.

(** X13: the client of a remote provider is built once.  After
    [is_ready] has answered True, [_ensure_client] and [is_ready]
    succeed in every world and leave the provider as it is. *)
Theorem client_is_cached (p : t) (w : World) :
  fst (is_ready p w) = true ->
  let p' := snd (is_ready p w) in
  _client p' = true /\ _ready p' = true
  /\ forall w', _ensure_client p' w' = (Return tt, p')
                /\ is_ready p' w' = (true, p').
Proof.
  unfold is_ready.
  destruct (ensure_client_cases p w)
    as [(p1 & E & Hc & _ & _ & _ & Hsame & Hnew)|(e & E & _)];
    rewrite E; cbn [fst snd]; [|discriminate].
  intros Hr. split; [assumption|]. split; [assumption|].
  intros w'. unfold _ensure_client. rewrite Hc. cbn. now rewrite Hr.
Qed.

Lemma client_is_cached_witness :
  let p := snd (is_ready (init OpenAI (utf8 "key") (utf8 "whisper-1"))
                  (Sample.world (Return Sample.decoding)
                     (Return (utf8 "hello")))) in
  _client p = true /\ _ready p = true.
Proof.
  cbv zeta.
  pose proof (client_is_cached (init OpenAI (utf8 "key") (utf8 "whisper-1"))
                (Sample.world (Return Sample.decoding)
                   (Return (utf8 "hello"))) eq_refl) as (H1 & H2 & _).
  split; assumption.
Defined.

End ProviderFacts.

Section DeviceFacts.
Import Device.

Lemma str_eqb_neq (a b : str) : str_eqb a b = false <-> a <> b.
Proof.
  unfold str_eqb. destruct (str_eq_dec a b); split; congruence.
Qed.

(** The resolved settings are never "auto", and are empty only when the
    configured ones are. *)
Lemma resolve_cases (h : Host) (device compute_type : str) :
  let '(d, c) := resolve_device_and_compute_type h device compute_type in
  d <> utf8 "auto" /\ c <> utf8 "auto"
  /\ (d = [] -> device = []) /\ (c = [] -> compute_type = []).
Proof.
  unfold resolve_device_and_compute_type.
  split; [|split; [|split]].
  - destruct (str_eqb device (utf8 "auto")) eqn:E.
    + unfold detect_device.
      destruct (torch_installed h), (cuda_available h), (mps_available h);
        discriminate.
    + now apply str_eqb_neq.
  - destruct (str_eqb compute_type (utf8 "auto")) eqn:E.
    + unfold detect_compute_type.
      repeat match goal with
             | |- context [if ?b then _ else _] => destruct b
             | |- context [match ?r with Return _ => _ | Raise _ => _ end] =>
                 destruct r
             end; discriminate.
    + now apply str_eqb_neq.
  - destruct (str_eqb device (utf8 "auto")) eqn:E; [|auto].
    unfold detect_device.
    destruct (torch_installed h), (cuda_available h), (mps_available h);
      discriminate.
  - destruct (str_eqb compute_type (utf8 "auto")) eqn:E; [|auto].
    unfold detect_compute_type.
    repeat match goal with
           | |- context [if ?b then _ else _] => destruct b
           | |- context [match ?r with Return _ => _ | Raise _ => _ end] =>
               destruct r
           end; discriminate.
Qed.

(** X14: resolving the device and the compute type never leaves "auto"
    in the result; a setting that is not "auto" is returned as it is; an
    automatic device is one of "cuda", "mps", "cpu", and an automatic
    compute type is "float16" or "int8", "int8" on every device other
    than "cuda" and "mps". *)
Theorem resolve_leaves_no_auto (h : Host) (device compute_type : str) :
  let '(d, c) := resolve_device_and_compute_type h device compute_type in
  d <> utf8 "auto" /\ c <> utf8 "auto"
  /\ (device <> utf8 "auto" -> d = device)
  /\ (compute_type <> utf8 "auto" -> c = compute_type)
  /\ (device = utf8 "auto" ->
      d = utf8 "cuda" \/ d = utf8 "mps" \/ d = utf8 "cpu")
  /\ (compute_type = utf8 "auto" ->
      (c = utf8 "float16" \/ c = utf8 "int8")
      /\ (d <> utf8 "cuda" -> d <> utf8 "mps" -> c = utf8 "int8")).
Proof.
  unfold resolve_device_and_compute_type.
  set (d := if str_eqb device (utf8 "auto") then detect_device h else device).
  assert (Hd : d <> utf8 "auto"
               /\ (device <> utf8 "auto" -> d = device)
               /\ (device = utf8 "auto" ->
                   d = utf8 "cuda" \/ d = utf8 "mps" \/ d = utf8 "cpu")).
  { unfold d. destruct (str_eqb device (utf8 "auto")) eqn:E.
    - apply str_eqb_eq in E. unfold detect_device.
      destruct (torch_installed h), (cuda_available h), (mps_available h);
        (split; [discriminate|]); (split; [congruence|]); intros _; auto.
    - apply str_eqb_neq in E. repeat split; auto. congruence. }
  destruct Hd as (Hd1 & Hd2 & Hd3).
  split; [assumption|].
  destruct (str_eqb compute_type (utf8 "auto")) eqn:E.
  - apply str_eqb_eq in E.
    assert (Hc : (detect_compute_type h d = utf8 "float16"
                  \/ detect_compute_type h d = utf8 "int8")
                 /\ (d <> utf8 "cuda" -> d <> utf8 "mps" ->
                     detect_compute_type h d = utf8 "int8")).
    { unfold detect_compute_type.
      destruct (str_eqb d (utf8 "cuda")) eqn:E1.
      - apply str_eqb_eq in E1. split; [|congruence].
        destruct (torch_installed h); [|now left].
        destruct (cuda_capability h) as [major|]; [|now left].
        destruct (7 <=? major); auto.
      - destruct (str_eqb d (utf8 "mps")) eqn:E2.
        + apply str_eqb_eq in E2. split; [now left | congruence].
        + split; [now right | reflexivity]. }
    destruct Hc as (Hc1 & Hc2).
    split; [destruct Hc1 as [->| ->]; discriminate|].
    split; [assumption|]. split; [congruence|]. split; [assumption|].
    intros _. split; assumption.
  - apply str_eqb_neq in E.
    split; [assumption|]. split; [assumption|]. split; [reflexivity|].
    split; [assumption | congruence].
Qed.

Lemma resolve_leaves_no_auto_witness :
  fst (resolve_device_and_compute_type (host (Sample.world
         (Return Sample.decoding) (Return (utf8 "hello"))))
         (utf8 "cuda") (utf8 "auto")) = utf8 "cuda".
Proof.
  pose proof (resolve_leaves_no_auto
                (host (Sample.world (Return Sample.decoding)
                         (Return (utf8 "hello"))))
                (utf8 "cuda") (utf8 "auto")) as H.
  destruct (resolve_device_and_compute_type _ _ _) as [d c].
  destruct H as (_ & _ & H & _). apply H. vm_compute. discriminate.
Defined.

End DeviceFacts.

(* ================================================================== *)
(** * The service: accounting, readiness, results *)
(* ================================================================== *)

Section ServiceMore.
Import WhisperService.

Lemma filter_output_trimmed (f : HallucinationFilter.t) (text : str) :
  strip text = text ->
  let out := fst (fst (snd (HallucinationFilter.filter f text))) in
  strip out = out.
Proof.
  intros H. cbv zeta.
  destruct (filter_cases f text) as [| |p rest]; cbn [fst snd].
  - exact H.
  - reflexivity.
  - apply strip_idem.
Qed.

Lemma truthy_lt (s : str) : (0 <? len s) = truthy s.
Proof. symmetry. apply truthy_len. Qed.

(** What one call of [transcribe] does to the statistics and returns. *)
Lemma transcribe_effect (self : t) (w : World) (audio_path language : str)
    (fa : bool) (hot : option (list str)) :
  let r := fst (fst (transcribe self w audio_path language fa hot)) in
  let s' := snd (fst (transcribe self w audio_path language fa hot)) in
  let w' := snd (transcribe self w audio_path language fa hot) in
  (initialized self = false /\ s' = self /\ w' = w
   /\ r = Raise (if is_cloud self then not_initialized else not_loaded))
  \/ (initialized self = true
      /\ config s' = config self /\ model s' = model self
      /\ _provider_type s' = _provider_type self
      /\ hotwords_manager s' = hotwords_manager self
      /\ aizuchi_filter s' = aizuchi_filter self
      /\ (exists pt dur,
            stats s' = TranscriptionStats.record (stats self) pt
                         (match r with
                          | Return (text, _, _) => truthy text
                          | Raise _ => false
                          end) dur)
      /\ match r with
         | Return (text, _, _) => strip text = text
         | Raise _ => True
         end
      /\ (operational self = true ->
          cloud_provider s' = cloud_provider self)).
Proof.
  cbv zeta. unfold transcribe, initialized, operational.
  destruct (is_cloud self) eqn:Ek.
  - unfold _transcribe_cloud. destruct (cloud_provider self) as [p|] eqn:Ep.
    2:{ left. cbn. auto. }
    right. split; [reflexivity|].
    rewrite (surjective_pairing (time w)).
    destruct (CloudProvider.transcribe p (snd (time w)) audio_path language)
      as [[[[[text c] pt]|e] p'] w1] eqn:Et.
    + pose proof (cloud_transcribe_trimmed p p' (snd (time w)) w1 audio_path
                    language text c pt Et) as Hs.
      pose proof (filter_output_trimmed
                    (hallucination_filter (set_cloud_provider self (Some p')))
                    text Hs) as Hout. cbv zeta in Hout.
      destruct (HallucinationFilter.filter _ text) as [hf [[out b] reason]].
      cbn [fst snd] in Hout |- *.
      cbn [set_stats set_hallucination_filter set_cloud_provider config model
           _provider_type hotwords_manager aizuchi_filter stats
           cloud_provider].
      repeat split; try assumption.
      * exists pt, 0%float. now rewrite truthy_lt.
      * intros Hc. apply andb_true_iff in Hc. destruct Hc as [Hc _].
        now rewrite (cloud_transcribe_keeps_client _ _ _ _ _ _ _ Et Hc).
    + unfold record_failure. rewrite (surjective_pairing (time w1)).
      cbn [fst snd set_stats set_cloud_provider config model _provider_type
           hotwords_manager aizuchi_filter stats cloud_provider].
      repeat split; try assumption.
      * eauto.
      * intros Hc. apply andb_true_iff in Hc. destruct Hc as [Hc _].
        now rewrite (cloud_transcribe_keeps_client _ _ _ _ _ _ _ Et Hc).
  - unfold _transcribe_local. destruct (model self) as [m|] eqn:Em.
    2:{ left. cbn. auto. }
    right. split; [reflexivity|].
    rewrite (surjective_pairing (time w)).
    rewrite (surjective_pairing (invoke_decoder _ _)).
    destruct (fst (invoke_decoder _ _)) as [d|e].
    + destruct (dec_failure d) as [e|].
      * unfold record_failure. rewrite (surjective_pairing (time _)).
        cbn [fst snd set_stats config model _provider_type hotwords_manager
             aizuchi_filter stats cloud_provider].
        repeat split; try assumption. eauto.
      * set (joined := strip (join (utf8 " ") _)).
        pose proof (filter_output_trimmed (hallucination_filter self) joined
                      (strip_idem _)) as Hout. cbv zeta in Hout.
        destruct (HallucinationFilter.filter _ joined)
          as [hf [[out b] reason]].
        rewrite (surjective_pairing (time _)).
        cbn [fst snd] in Hout |- *.
        cbn [set_stats set_hallucination_filter config model _provider_type
             hotwords_manager aizuchi_filter stats cloud_provider].
        repeat split; try assumption.
        eexists. eexists. now rewrite truthy_lt.
    + unfold record_failure. rewrite (surjective_pairing (time _)).
      cbn [fst snd set_stats config model _provider_type hotwords_manager
           aizuchi_filter stats cloud_provider].
      repeat split; try assumption. eauto.
Qed.

End ServiceMore.

Section ServiceLifecycle.
Import WhisperService.

Lemma local_is_not_cloud (self : t) :
  str_eqb (_provider_type self) (utf8 "local") = true -> is_cloud self = false.
Proof.
  intros H. apply str_eqb_eq in H. unfold is_cloud. now rewrite H.
Qed.

(** A provider is created for "groq" and "openai" only, with a
    non-empty key and no client yet. *)
Lemma create_provider_cases (provider_type : str)
    (groq_api_key openai_api_key : option str) (groq_model openai_model : str) :
  match CloudProvider.create_provider provider_type groq_api_key
          openai_api_key groq_model openai_model with
  | Return (Some p) =>
      CloudProvider._client p = false /\ CloudProvider.api_key p <> []
      /\ (provider_type = utf8 "groq" \/ provider_type = utf8 "openai")
  | Return None => provider_type = utf8 "local"
  | Raise e => exists msg, e = ValueError msg
  end.
Proof.
  unfold CloudProvider.create_provider.
  destruct (str_eqb provider_type (utf8 "groq")) eqn:Eg.
  - apply str_eqb_eq in Eg.
    destruct groq_api_key as [[|c k]|]; eauto.
    repeat split; [discriminate | now left].
  - destruct (str_eqb provider_type (utf8 "openai")) eqn:Eo.
    + apply str_eqb_eq in Eo.
      destruct openai_api_key as [[|c k]|]; eauto.
      repeat split; [discriminate | now right].
    + destruct (str_eqb provider_type (utf8 "local")) eqn:El; eauto.
      now apply str_eqb_eq in El.
Qed.

(** What [load_model] changes, and what it leaves when it fails. *)
Lemma load_model_effect (self : t) (w : World) :
  let r := fst (fst (load_model self w)) in
  let s' := snd (fst (load_model self w)) in
  config s' = config self /\ stats s' = stats self
  /\ _provider_type s' = _provider_type self
  /\ hotwords_manager s' = hotwords_manager self
  /\ match r with
     | Return _ =>
         operational s' = true
         /\ (is_cloud self = false ->
             exists m,
               model s' = Some m
               /\ (_device s', _compute_type s')
                  = (let '(d, c) :=
                       Device.resolve_device_and_compute_type (host w)
                         (device (config self)) (compute_type (config self))
                     in (Some d, Some c)))
     | Raise _ =>
         model s' = model self
         /\ (cloud_provider s' = cloud_provider self
             \/ exists p, cloud_provider s' = Some p
                          /\ CloudProvider._client p = false)
     end.
Proof.
  cbv zeta. unfold load_model, time.
  destruct (str_eqb (_provider_type self) (utf8 "local")) eqn:El.
  - pose proof (local_is_not_cloud self El) as Hk. cbn [host import_decoder].
    destruct (import_decoder w) as [e|]; [cbn [fst snd]; repeat split; auto|].
    destruct (Device.resolve_device_and_compute_type _ _ _) as [d c].
    destruct (load_decoder _ _ _ _) as [e|]; cbn [fst snd].
    + repeat split; auto.
    + repeat split; try reflexivity.
      * unfold operational, is_cloud in *.
        cbn [set_load_time set_model set_device _provider_type model].
        now rewrite Hk.
      * intros _. eexists. split; reflexivity.
  - destruct (is_cloud self) eqn:Ek.
    + pose proof (create_provider_cases (_provider_type self)
                    (groq_api_key (config self)) (openai_api_key (config self))
                    (groq_model (config self)) (openai_model (config self)))
        as Hcreate.
      destruct (CloudProvider.create_provider _ _ _ _ _) as [[p|]|e];
        cbn [fst snd].
      * destruct Hcreate as (Hfresh & _ & _).
        destruct (CloudProvider.is_ready p _) as [ready p'] eqn:Ei.
        unfold CloudProvider.is_ready in Ei.
        match type of Ei with
        | context [CloudProvider._ensure_client p ?w1] =>
            destruct (ensure_client_cases p w1)
              as [(p1 & E & Hc & _ & _ & _ & _ & Hnew)|(e & E & Hc)]
        end; rewrite E in Ei; injection Ei as <- <-.
        -- rewrite (Hnew Hfresh). cbn [fst snd].
           repeat split; try reflexivity; [|congruence].
           unfold operational, is_cloud in *.
           cbn [set_load_time set_cloud_provider _provider_type
                cloud_provider].
           now rewrite Ek, Hc, (Hnew Hfresh).
        -- cbn [fst snd]. repeat split; try reflexivity.
           right. exists p. cbn. auto.
      * exfalso. rewrite Hcreate in El. discriminate.
      * repeat split; auto.
    + cbn [fst snd]. repeat split; auto.
Qed.

Lemma is_ready_effect (self : t) (w : World) :
  let s' := snd (is_ready self w) in
  config s' = config self /\ stats s' = stats self
  /\ _provider_type s' = _provider_type self
  /\ hotwords_manager s' = hotwords_manager self
  /\ model s' = model self
  /\ (operational self = true -> is_ready self w = (true, self))
  /\ (initialized self = false -> is_ready self w = (false, self)).
Proof.
  cbv zeta. unfold is_ready, operational, initialized.
  destruct (is_cloud self).
  - destruct (cloud_provider self) as [p|] eqn:Ep.
    + destruct (CloudProvider.is_ready p w) as [ready p'] eqn:Ei.
      cbn [snd]. repeat split; try reflexivity; [|discriminate].
      intros H. apply andb_true_iff in H. destruct H as [Hc Hr].
      unfold CloudProvider.is_ready, CloudProvider._ensure_client in Ei.
      rewrite Hc in Ei. cbn in Ei. injection Ei as <- <-. rewrite Hr.
      f_equal. unfold set_cloud_provider. rewrite <- Ep. now destruct self.
    + repeat split; auto. discriminate.
  - destruct (model self) eqn:Em; cbn [snd]; rewrite ?Em;
      repeat split; try reflexivity; intros;
      try discriminate; reflexivity.
Qed.

(** X15: every call of [transcribe] on a service whose provider exists
    is recorded once, whether it returns or raises: total_requests grows
    by one; the call counts as successful exactly when it returns a
    non-empty text, so a call that returns an empty text is counted as
    failed.  A call on a service whose provider does not exist changes
    nothing. *)
Theorem transcribe_is_recorded_once (self : t) (w : World)
    (audio_path language : str) (filter_aizuchi : bool)
    (additional_hotwords : option (list str)) :
  let '(r, s', w') :=
    transcribe self w audio_path language filter_aizuchi
      additional_hotwords in
  let success :=
    match r with
    | Return (text, _, _) => truthy text
    | Raise _ => false
    end in
  (initialized self = false -> s' = self /\ w' = w)
  /\ (initialized self = true ->
      TranscriptionStats.total_requests (stats s')
      = TranscriptionStats.total_requests (stats self) + 1
      /\ TranscriptionStats.successful_requests (stats s')
         = TranscriptionStats.successful_requests (stats self)
           + (if success then 1 else 0)
      /\ TranscriptionStats.failed_requests (stats s')
         = TranscriptionStats.failed_requests (stats self)
           + (if success then 0 else 1)).
Proof.
  pose proof (transcribe_effect self w audio_path language filter_aizuchi
                additional_hotwords) as H. cbv zeta in H.
  destruct (transcribe self w audio_path language filter_aizuchi
              additional_hotwords) as [[r s'] w'].
  cbn [fst snd] in H. cbv zeta.
  destruct H as [(Hi & -> & -> & _)|(Hi & _ & _ & _ & _ & _ & Hrec & _)].
  - split; [auto | congruence].
  - split; [congruence|]. intros _.
    destruct Hrec as (pt & dur & ->).
    destruct r as [[[text c] pt']|e]; cbn; [destruct (truthy text)|]; cbn;
      repeat split; lia.
Qed.

Lemma transcribe_is_recorded_once_witness :
  let sw := Sample.loaded default_config
              (Sample.world
                 (Return {| dec_segments := []; dec_failure := None;
                            dec_info := {| duration := None |} |})
                 (Return (utf8 "hello"))) in
  fst (fst (transcribe (fst sw) (snd sw) (utf8 "a.wav") (utf8 "ja") true
              None))
  = Return ([], 0%float, 1%float)
  /\ TranscriptionStats.failed_requests
       (stats (snd (fst (transcribe (fst sw) (snd sw) (utf8 "a.wav")
                           (utf8 "ja") true None))))
     = 1.
Proof.
  cbv zeta. split; [vm_compute; reflexivity|].
  pose proof (transcribe_is_recorded_once
                (fst (Sample.loaded default_config
                        (Sample.world
                           (Return {| dec_segments := []; dec_failure := None;
                                      dec_info := {| duration := None |} |})
                           (Return (utf8 "hello")))))
                (snd (Sample.loaded default_config
                        (Sample.world
                           (Return {| dec_segments := []; dec_failure := None;
                                      dec_info := {| duration := None |} |})
                           (Return (utf8 "hello")))))
                (utf8 "a.wav") (utf8 "ja") true None) as H.
  destruct (transcribe _ _ _ _ _ _) as [[r s'] w'] eqn:E.
  cbv zeta in H. destruct H as (_ & H).
  destruct (H eq_refl) as (_ & _ & Hf). cbn [fst snd].
  rewrite Hf.
  assert (Er : r = Return ([], 0%float, 1%float)).
  { apply (f_equal (fun x => fst (fst x))) in E. cbn [fst] in E.
    rewrite <- E. vm_compute. reflexivity. }
  rewrite Er. reflexivity.
Defined.

(** X16: the text that [transcribe] returns is always trimmed: it never
    begins or ends with whitespace, on the local and on the remote path
    and whatever the filters do. *)
Theorem transcribe_returns_trimmed_text (self s' : t) (w w' : World)
    (audio_path language text : str) (filter_aizuchi : bool)
    (additional_hotwords : option (list str))
    (confidence processing_time : float) :
  transcribe self w audio_path language filter_aizuchi additional_hotwords
  = (Return (text, confidence, processing_time), s', w') ->
  strip text = text
  /\ match text with [] => True | c :: _ => isspace c = false end
  /\ match rev text with [] => True | c :: _ => isspace c = false end.
Proof.
  intros E.
  pose proof (transcribe_effect self w audio_path language filter_aizuchi
                additional_hotwords) as H. cbv zeta in H.
  rewrite E in H. cbn [fst snd] in H.
  destruct H as [(_ & _ & _ & H)|(_ & _ & _ & _ & _ & _ & _ & Hs & _)].
  - destruct (is_cloud self); discriminate.
  - split; [exact Hs|]. split.
    + rewrite <- Hs. apply strip_clean.
    + rewrite <- Hs. unfold strip. apply rstrip_clean.
Qed.

Lemma transcribe_returns_trimmed_text_witness :
  let sw := Sample.loaded
              (Sample.with_provider default_config "groq"
                 (Some (utf8 "key")))
              (Sample.world (Return Sample.decoding)
                 (Return (utf8 "  hello "))) in
  let out := transcribe (fst sw) (snd sw) (utf8 "a.wav") (utf8 "ja") true
               None in
  fst (fst out)
  = Return (utf8 "hello", CloudProvider.assumed_confidence Groq, 1%float)
  /\ strip (utf8 "hello") = utf8 "hello".
Proof.
  cbv zeta. split; [vm_compute; reflexivity|].
  refine (proj1 (transcribe_returns_trimmed_text
                   (fst (Sample.loaded
                           (Sample.with_provider default_config "groq"
                              (Some (utf8 "key")))
                           (Sample.world (Return Sample.decoding)
                              (Return (utf8 "  hello ")))))
                   (snd (fst (transcribe
                      (fst (Sample.loaded
                              (Sample.with_provider default_config "groq"
                                 (Some (utf8 "key")))
                              (Sample.world (Return Sample.decoding)
                                 (Return (utf8 "  hello ")))))
                      (snd (Sample.loaded
                              (Sample.with_provider default_config "groq"
                                 (Some (utf8 "key")))
                              (Sample.world (Return Sample.decoding)
                                 (Return (utf8 "  hello ")))))
                      (utf8 "a.wav") (utf8 "ja") true None)))
                   (snd (Sample.loaded
                           (Sample.with_provider default_config "groq"
                              (Some (utf8 "key")))
                           (Sample.world (Return Sample.decoding)
                              (Return (utf8 "  hello ")))))
                   (snd (transcribe
                      (fst (Sample.loaded
                              (Sample.with_provider default_config "groq"
                                 (Some (utf8 "key")))
                              (Sample.world (Return Sample.decoding)
                                 (Return (utf8 "  hello ")))))
                      (snd (Sample.loaded
                              (Sample.with_provider default_config "groq"
                                 (Some (utf8 "key")))
                              (Sample.world (Return Sample.decoding)
                                 (Return (utf8 "  hello ")))))
                      (utf8 "a.wav") (utf8 "ja") true None))
                   (utf8 "a.wav") (utf8 "ja") (utf8 "hello") true None
                   (CloudProvider.assumed_confidence Groq) 1%float _)).
  vm_compute. reflexivity.
Defined.

End ServiceLifecycle.

Section ServiceRuns.
Import WhisperService.

Lemma step_effect (s : t) (w : World) (o : op) :
  let s' := fst (step (s, w) o) in
  config s' = config s /\ _provider_type s' = _provider_type s
  /\ hotwords_manager s' = hotwords_manager s
  /\ (is_transcribe o = false -> stats s' = stats s)
  /\ (is_transcribe o = true ->
      stats s' = stats s
      \/ exists pt success dur,
           stats s' = TranscriptionStats.record (stats s) pt success dur)
  /\ (o <> LoadModel -> operational s = true -> operational s' = true).
Proof.
  cbv zeta. destruct o as [|a l fa hot| |]; unfold step.
  - pose proof (load_model_effect s w) as H. cbv zeta in H.
    destruct (load_model s w) as [[r s'] w']. cbn [fst snd] in H |- *.
    destruct H as (H1 & H2 & H3 & H4 & _).
    repeat split; auto; try discriminate; congruence.
  - pose proof (transcribe_effect s w a l fa hot) as H. cbv zeta in H.
    destruct (transcribe s w a l fa hot) as [[r s'] w'].
    cbn [fst snd] in H |- *.
    destruct H as [(_ & -> & _)|(_ & H1 & H2 & H3 & H4 & _ & Hrec & _ & Hop)].
    + repeat split; auto.
    + split; [assumption|]. split; [assumption|]. split; [assumption|].
      split; [discriminate|]. split.
      * intros _. right. destruct Hrec as (pt & dur & Hrec). eauto.
      * intros _ Ho. specialize (Hop Ho). unfold operational, is_cloud in *.
        now rewrite H3, Hop, H2.
  - pose proof (is_ready_effect s w) as H. cbv zeta in H.
    destruct H as (H1 & H2 & H3 & H4 & _ & Hop & _). cbn [fst].
    split; [assumption|]. split; [assumption|]. split; [assumption|].
    split; [auto|]. split; [discriminate|].
    intros _ Ho. now rewrite (Hop Ho).
  - pose proof (is_ready_effect s w) as H. cbv zeta in H.
    destruct H as (H1 & H2 & H3 & H4 & _ & Hop & _). cbn [fst].
    split; [assumption|]. split; [assumption|]. split; [assumption|].
    split; [auto|]. split; [discriminate|].
    intros _ Ho. now rewrite (Hop Ho).
Qed.

Lemma run_snoc (ops : list op) (o : op) (sw : t * World) :
  run (ops ++ [o]) sw = step (run ops sw) o.
Proof. unfold run. now rewrite fold_left_app. Qed.

(** X17: once [load_model] has returned normally, [is_ready] answers
    True, in whatever state the outside world is, and it goes on doing so
    after any series of calls of [transcribe], [is_ready] and
    [get_status], whether the transcriptions succeed or fail. *)
Theorem loaded_service_stays_ready (self s1 : t) (w w1 : World)
    (ops : list op) :
  load_model self w = (Return tt, s1, w1) ->
  Forall (fun o => o <> LoadModel) ops ->
  forall w' : World,
    is_ready (fst (run ops (s1, w1))) w' = (true, fst (run ops (s1, w1))).
Proof.
  intros El Hops w'.
  apply (proj1 (proj2 (proj2 (proj2 (proj2 (proj2
           (is_ready_effect (fst (run ops (s1, w1))) w'))))))).
  induction ops as [|o ops IH] using rev_ind.
  - pose proof (load_model_effect self w) as H. cbv zeta in H.
    rewrite El in H. cbn [fst snd] in H. cbn. tauto.
  - rewrite run_snoc. apply Forall_app in Hops. destruct Hops as [Hops Ho].
    inversion Ho as [|? ? Hne _]; subst.
    destruct (run ops (s1, w1)) as [s2 w2].
    apply (step_effect s2 w2 o); auto.
Qed.

Lemma loaded_service_stays_ready_witness :
  let sw := Sample.loaded
              (Sample.with_provider default_config "groq"
                 (Some (utf8 "key")))
              (Sample.world (Return Sample.decoding)
                 (Raise Sample.test_error)) in
  let ops := [Transcribe (utf8 "a.wav") (utf8 "ja") true None; GetStatus] in
  fst (is_ready (fst (run ops sw)) (snd sw)) = true.
Proof.
  cbv zeta.
  refine (f_equal fst
            (loaded_service_stays_ready
               (init Sample.env
                  (Sample.with_provider default_config "groq"
                     (Some (utf8 "key"))))
               (fst (Sample.loaded
                       (Sample.with_provider default_config "groq"
                          (Some (utf8 "key")))
                       (Sample.world (Return Sample.decoding)
                          (Raise Sample.test_error))))
               (Sample.world (Return Sample.decoding)
                  (Raise Sample.test_error))
               (snd (Sample.loaded
                       (Sample.with_provider default_config "groq"
                          (Some (utf8 "key")))
                       (Sample.world (Return Sample.decoding)
                          (Raise Sample.test_error))))
               [Transcribe (utf8 "a.wav") (utf8 "ja") true None; GetStatus]
               _ _ _)).
  - vm_compute. reflexivity.
  - repeat constructor; discriminate.
Defined.

(** X18: after a successful [load_model] of a local service, the
    properties [device] and [compute_type] report the resolved device and
    compute type, and so never "auto", even when the configuration says
    "auto". *)
Theorem loaded_device_is_resolved (self s' : t) (w w' : World) :
  is_cloud self = false ->
  load_model self w = (Return tt, s', w') ->
  (device_property s', compute_type_property s')
  = Device.resolve_device_and_compute_type (host w)
      (device (config self)) (compute_type (config self))
  /\ device_property s' <> utf8 "auto"
  /\ compute_type_property s' <> utf8 "auto".
Proof.
  intros Hk El.
  pose proof (load_model_effect self w) as H. cbv zeta in H.
  rewrite El in H. cbn [fst snd] in H.
  destruct H as (Hc & _ & Hp & _ & _ & Hl).
  destruct (Hl Hk) as (m & _ & Hd).
  pose proof (resolve_cases (host w) (device (config self))
                (compute_type (config self))) as Hr.
  destruct (Device.resolve_device_and_compute_type _ _ _) as [d c].
  injection Hd as Hd Hct. destruct Hr as (Hd1 & Hc1 & Hd2 & Hc2).
  assert (Ed : device_property s' = d).
  { unfold device_property, is_cloud, configured_device in *.
    rewrite Hp, Hk, Hd, Hc. destruct d; [now rewrite Hd2 | reflexivity]. }
  assert (Ec : compute_type_property s' = c).
  { unfold compute_type_property, is_cloud, configured_compute_type in *.
    rewrite Hp, Hk, Hct, Hc. destruct c; [now rewrite Hc2 | reflexivity]. }
  rewrite Ed, Ec. auto.
Qed.

Lemma loaded_device_is_resolved_witness :
  let sw := Sample.loaded default_config
              (Sample.world (Return Sample.decoding)
                 (Return (utf8 "hello"))) in
  device (config (fst sw)) = utf8 "auto"
  /\ device_property (init Sample.env default_config) = utf8 "auto"
  /\ (device_property (fst sw), compute_type_property (fst sw))
     = (utf8 "cpu", utf8 "int8").
Proof.
  cbv zeta. split; [reflexivity|]. split; [reflexivity|].
  refine (eq_trans
            (proj1 (loaded_device_is_resolved
                      (init Sample.env default_config)
                      (fst (Sample.loaded default_config
                              (Sample.world (Return Sample.decoding)
                                 (Return (utf8 "hello")))))
                      (Sample.world (Return Sample.decoding)
                         (Return (utf8 "hello")))
                      (snd (Sample.loaded default_config
                              (Sample.world (Return Sample.decoding)
                                 (Return (utf8 "hello")))))
                      _ _)) _).
  - reflexivity.
  - vm_compute. reflexivity.
  - vm_compute. reflexivity.
Defined.

Lemma run_effect (ops : list op) (s : t) (w : World) :
  let s' := fst (run ops (s, w)) in
  let st := stats s in
  let st' := stats s' in
  config s' = config s /\ _provider_type s' = _provider_type s
  /\ hotwords_manager s' = hotwords_manager s
  /\ (TranscriptionStats.total_requests st
      = TranscriptionStats.successful_requests st
        + TranscriptionStats.failed_requests st ->
      0 <= TranscriptionStats.successful_requests st ->
      0 <= TranscriptionStats.failed_requests st ->
      TranscriptionStats.total_requests st'
      = TranscriptionStats.successful_requests st'
        + TranscriptionStats.failed_requests st'
      /\ TranscriptionStats.successful_requests st
         <= TranscriptionStats.successful_requests st'
      /\ TranscriptionStats.failed_requests st
         <= TranscriptionStats.failed_requests st'
      /\ TranscriptionStats.total_requests st'
         <= TranscriptionStats.total_requests st
            + len (List.filter is_transcribe ops)).
Proof.
  cbv zeta. induction ops as [|o ops IH] using rev_ind.
  - cbn. repeat split; auto; lia.
  - rewrite run_snoc. destruct (run ops (s, w)) as [s2 w2].
    cbn [fst] in IH. destruct IH as (I1 & I2 & I3 & I4).
    pose proof (step_effect s2 w2 o) as H. cbv zeta in H.
    destruct H as (H1 & H2 & H3 & H4 & H5 & _).
    split; [congruence|]. split; [congruence|]. split; [congruence|].
    intros A1 A2 A3. destruct (I4 A1 A2 A3) as (J1 & J2 & J3 & J4).
    rewrite filter_app. unfold len in *. rewrite length_app.
    destruct (is_transcribe o) eqn:Eo; cbn [List.filter List.length].
    + rewrite Eo. cbn [List.length].
      destruct (H5 eq_refl) as [->|(pt & success & dur & ->)].
      * repeat split; lia.
      * destruct success; cbn; repeat split; lia.
    + rewrite Eo. cbn [List.length]. rewrite (H4 eq_refl).
      repeat split; lia.
Qed.

End ServiceRuns.

Section ServiceAccounts.
Import WhisperService.

(** X19: whatever series of calls a service goes through after its
    construction, its counters add up (total_requests is
    successful_requests + failed_requests, none is negative, and
    total_requests is at most the number of calls of [transcribe]), and
    its configuration and its registry of hotwords are the ones it was
    constructed with: the hotwords of a request are never stored. *)
Theorem service_accounts_add_up (env : HotwordsManager.Env)
    (c : WhisperConfig) (w : World) (ops : list op) :
  let s := fst (run ops (init env c, w)) in
  TranscriptionStats.total_requests (stats s)
  = TranscriptionStats.successful_requests (stats s)
    + TranscriptionStats.failed_requests (stats s)
  /\ 0 <= TranscriptionStats.successful_requests (stats s)
  /\ 0 <= TranscriptionStats.failed_requests (stats s)
  /\ TranscriptionStats.total_requests (stats s)
     <= len (List.filter is_transcribe ops)
  /\ config s = c
  /\ hotwords_manager s = hotwords_manager (init env c).
Proof.
  cbv zeta. pose proof (run_effect ops (init env c) w) as H. cbv zeta in H.
  destruct H as (H1 & _ & H3 & H4).
  destruct H4 as (J1 & J2 & J3 & J4); [reflexivity | cbn; lia | cbn; lia |].
  change (TranscriptionStats.successful_requests (stats (init env c)))
    with 0 in J2.
  change (TranscriptionStats.failed_requests (stats (init env c)))
    with 0 in J3.
  change (TranscriptionStats.total_requests (stats (init env c)))
    with 0 in J4.
  repeat split; try assumption; lia.
Qed.

(** X20: a configuration error makes [load_model] raise ValueError
    before anything is built: with the provider "groq" or "openai" and a
    missing or empty API key, as with a provider that is none of
    "local", "groq" and "openai", the service is left as it was and no
    backend is asked. *)
Theorem load_model_configuration_errors (self : t) (w : World) :
  (_provider_type self = utf8 "groq"
   /\ (groq_api_key (config self) = None
       \/ groq_api_key (config self) = Some []))
  \/ (_provider_type self = utf8 "openai"
      /\ (openai_api_key (config self) = None
          \/ openai_api_key (config self) = Some []))
  \/ (_provider_type self <> utf8 "local"
      /\ _provider_type self <> utf8 "groq"
      /\ _provider_type self <> utf8 "openai") ->
  exists msg,
    load_model self w = (Raise (ValueError msg), self, snd (time w)).
Proof.
  intros H. unfold load_model, is_cloud. rewrite (surjective_pairing (time w)).
  destruct H as [(Hp & Hk)|[(Hp & Hk)|(H1 & H2 & H3)]].
  - rewrite Hp. cbn [str_eqb]. 
    change (str_eqb (utf8 "groq") (utf8 "local")) with false.
    change (str_eqb (utf8 "groq") (utf8 "groq")) with true.
    cbn [orb]. unfold CloudProvider.create_provider.
    change (str_eqb (utf8 "groq") (utf8 "groq")) with true.
    destruct Hk as [-> | ->]; eauto.
  - rewrite Hp.
    change (str_eqb (utf8 "openai") (utf8 "local")) with false.
    change (str_eqb (utf8 "openai") (utf8 "groq")) with false.
    change (str_eqb (utf8 "openai") (utf8 "openai")) with true.
    cbn [orb]. unfold CloudProvider.create_provider.
    change (str_eqb (utf8 "openai") (utf8 "groq")) with false.
    change (str_eqb (utf8 "openai") (utf8 "openai")) with true.
    destruct Hk as [-> | ->]; eauto.
  - apply str_eqb_neq in H1, H2, H3. rewrite H1, H2, H3. cbn [orb]. eauto.
Qed.

Lemma load_model_configuration_errors_witness :
  let s := init Sample.env (Sample.with_provider default_config "groq" None) in
  let w := Sample.world (Return Sample.decoding) (Return (utf8 "hello")) in
  exists msg, load_model s w = (Raise (ValueError msg), s, snd (time w)).
Proof.
  cbv zeta. apply load_model_configuration_errors.
  left. split; [reflexivity | left; reflexivity].
Defined.

End ServiceAccounts.

Section LocalPath.
Import WhisperService.

(** X21: what the local path returns when the decoder answers.  The
    text is the trimmed texts of the segments that were kept, joined by
    single spaces and trimmed, then passed through the hallucination
    filter; the processing time is the difference of the two clock
    readings around the work; the decoder was asked exactly once, with
    the request built from the arguments; the call is recorded with the
    duration the decoder reported (0 when it reported none), as a
    success exactly when the text is not empty; and the filter's new
    counters are kept in the service. *)
Theorem local_transcribe_result (self : t) (w : World)
    (audio_path language : str) (filter_aizuchi : bool)
    (additional_hotwords : option (list str)) (m : LocalModel)
    (d : Decoding) :
  is_cloud self = false ->
  model self = Some m ->
  decoder w (List.length (invocations w))
    (decode_request self audio_path language additional_hotwords)
  = Return d ->
  dec_failure d = None ->
  let kept :=
    Spec.kept (aizuchi_filter self) filter_aizuchi (dec_segments d) in
  let joined :=
    strip (join (utf8 " ") (map (fun s => strip (seg_text s)) kept)) in
  let filtered :=
    HallucinationFilter.filter (hallucination_filter self) joined in
  let text := fst (fst (snd filtered)) in
  let processing_time :=
    PrimFloat.sub (clock w (S (ticks w))) (clock w (ticks w)) in
  exists confidence s' w',
    transcribe self w audio_path language filter_aizuchi additional_hotwords
    = (Return (text, confidence, processing_time), s', w')
    /\ stats s'
       = TranscriptionStats.record (stats self) processing_time
           (truthy text)
           (match duration (dec_info d) with
            | Some secs => secs
            | None => 0%float
            end)
    /\ hallucination_filter s' = fst filtered
    /\ invocations w'
       = invocations w
         ++ [Decode (decode_request self audio_path language
                       additional_hotwords)]
    /\ ticks w' = S (S (ticks w)).
Proof.
  intros Hk Hm Hd Hf. cbv zeta.
  unfold transcribe. rewrite Hk. unfold _transcribe_local. rewrite Hm.
  unfold time, invoke_decoder, log.
  cbn [decoder invocations fst snd clock ticks]. rewrite Hd, Hf.
  destruct (collect_spec self filter_aizuchi (dec_segments d) collect_start)
    as (H1 & _).
  cbn [collect_start text_parts app] in H1. rewrite H1. clear H1.
  destruct (HallucinationFilter.filter _ _) as [hf [[text b] r]].
  cbn [fst snd]. do 3 eexists. split; [reflexivity|].
  cbn [set_stats set_hallucination_filter stats hallucination_filter
       invocations ticks].
  repeat split. f_equal. unfold truthy.
  destruct text; reflexivity.
Qed.

Lemma local_transcribe_result_witness :
  let sw := Sample.loaded default_config
              (Sample.world (Return Sample.decoding)
                 (Return (utf8 "hello"))) in
  exists confidence s' w',
    transcribe (fst sw) (snd sw) (utf8 "a.wav") (utf8 "ja") true None
    = (Return (utf8 "うん これはテストです", confidence, 1%float), s', w')
    /\ TranscriptionStats.total_audio_seconds (stats s') = 2.5%float.
Proof.
  cbv zeta.
  destruct (local_transcribe_result
              (fst (Sample.loaded default_config
                      (Sample.world (Return Sample.decoding)
                         (Return (utf8 "hello")))))
              (snd (Sample.loaded default_config
                      (Sample.world (Return Sample.decoding)
                         (Return (utf8 "hello")))))
              (utf8 "a.wav") (utf8 "ja") true None Sample.local_model
              Sample.decoding eq_refl)
    as (c & s' & w' & E & Hs & _).
  - vm_compute. reflexivity.
  - vm_compute. reflexivity.
  - reflexivity.
  - exists c, s', w'. split.
    + refine (eq_trans E _). vm_compute. reflexivity.
    + rewrite Hs. vm_compute. reflexivity.
Defined.

End LocalPath.
